(** * CleanMusicLocator: a shallow embedding of the prober wrapper and of the
    orchestration script, with the properties of their specification.

    The development follows the sources:
    - [ffprobePython/ffprobe3.py]  (function [probe], class [ParsedJson] and
      the stream classes),
    - [ffprobePython/exceptions.py] (the exception classes),
    - [Song_Metadata.py], [ISRC_Metadata.py] (the two data classes),
    - [main.py] (normalisation, catalog client, the main loop).

    Python objects are dynamically typed, so the data model is one type of
    values; a function that can raise returns a [result]; [try]/[except]
    is a handler on results.  Floating-point numbers are IEEE-754 binary64
    values, taken from the specification of floats of the standard library
    ([SpecFloat]), whose operations are plain functions. *)

From Stdlib Require Import ZArith List String Ascii Bool Lia SpecFloat DecimalString.
Import ListNotations.

Open Scope string_scope.
Open Scope Z_scope.

(* ================================================================= *)
(** * Exceptions and results *)

Module Py.

(** Python values: what [json.loads] returns, plus tuples. *)
#[warnings="-register-all"]
Inductive value : Type :=
  | PNone
  | PBool (b : bool)
  | PInt (n : Z)
  | PFloat (f : spec_float)
  | PStr (s : string)
  | PList (l : list value)
  | PTuple (l : list value)
  | PDict (d : list (string * value)).

(** A [dict] with string keys, in insertion order (the dictionaries of the
    program come from [json.loads] or from a literal with string keys). *)
Definition dict := list (string * value).

(** The exceptions the modelled code can meet.  The classes of
    [exceptions.py] keep the attributes their constructors store. *)
Inductive exn : Type :=
  | KeyError
  | TypeError
  | ValueError
  | OverflowError
  | ZeroDivisionError
  | AttributeError
  | IndexError
  | ConnectionError                (* raised by [requests] *)
  | SqlError                       (* raised by [sqlite3] *)
  | FFprobeInvalidArgumentError (arg_name problem : string) (v : value)
  | FFprobeOverrideFileError (file_path : string)
  | FFprobeExecutableError (cmd : string)
  | FFprobeMediaFileError (file_path : string)
  | FFprobePopenError (caught_type_name : string)
  | FFprobeJsonParseError (caught_type_name : string)
  | FFprobeSubprocessError (split_cmdline : list string) (exit_status : Z)
                           (stderr : string)
  | FFprobeStreamSubclassError (class_name : string) (received_codec_type : value)
                               (required_codec_type : string)
  | BuiltinError (class_name : string).    (* another built-in exception *)

(** The built-in exceptions that a library call made by [probe] raises on
    its own account, and that [probe] does not catch:
    [Popen.communicate] raises [ValueError] for a timeout that is not a
    number (NaN) or an output that cannot be decoded, [OverflowError] for
    a timeout that is infinite or too large; [json.loads] raises
    [ValueError] for an integer literal with more digits than [int]
    accepts, [RecursionError] for too deep a nesting. *)
Inductive library_error : Type :=
  | LibValueError
  | LibOverflowError
  | LibOther (class_name : string).

Definition raised (e : library_error) : exn :=
  match e with
  | LibValueError => ValueError
  | LibOverflowError => OverflowError
  | LibOther class_name => BuiltinError class_name
  end.

Inductive result (A : Type) : Type :=
  | Ok (a : A)
  | Raise (e : exn).
Arguments Ok {A} a.
Arguments Raise {A} e.

Definition bind {A B} (m : result A) (k : A -> result B) : result B :=
  match m with
  | Ok a => k a
  | Raise e => Raise e
  end.

Definition raises {A} (m : result A) : Prop := exists e, m = Raise e.

End Py.
Import Py.

Notation "x <- m ;; k" := (bind m (fun x => k))
  (at level 61, m at next level, right associativity).
Notation "' pat <- m ;; k" := (bind m (fun x => match x with pat => k end))
  (at level 61, pat pattern, m at next level, right associativity).

(* ================================================================= *)
(** * Floating-point numbers (binary64) *)

Module F64.

Definition prec : Z := 53.
Definition emax : Z := 1024.

Definition of_Z (n : Z) : spec_float := binary_normalize prec emax n 0 false.

Definition add := SFadd prec emax.
Definition sub := SFsub prec emax.
Definition mul := SFmul prec emax.
Definition div := SFdiv prec emax.
Definition abs := SFabs.
Definition ltb := SFltb.
Definition leb := SFleb.
Definition eqb := SFeqb.

Definition zero : spec_float := S754_zero false.
Definition one : spec_float := of_Z 1.

Definition is_nan (x : spec_float) : bool :=
  match x with S754_nan => true | _ => false end.

Definition is_inf (x : spec_float) : bool :=
  match x with S754_infinity _ => true | _ => false end.

Definition is_zero (x : spec_float) : bool :=
  match x with S754_zero _ => true | _ => false end.

Definition sign (x : spec_float) : bool :=
  match x with
  | S754_zero s | S754_infinity s | S754_finite s _ _ => s
  | S754_nan => false
  end.

(** [float(n)] for an [int]: rounded to nearest even, [OverflowError] when
    the rounded value is not finite. *)
Definition of_int (n : Z) : result spec_float :=
  let f := of_Z n in
  if is_inf f then Raise OverflowError else Ok f.

(** [int(x)] for a [float]: truncation towards zero. *)
Definition to_int (x : spec_float) : result Z :=
  match x with
  | S754_nan => Raise ValueError
  | S754_infinity _ => Raise OverflowError
  | S754_zero _ => Ok 0
  | S754_finite s m e =>
      let a := if 0 <=? e then Z.pos m * 2 ^ e else Z.pos m / 2 ^ (- e) in
      Ok (if s then - a else a)
  end.

(** The value [m * 10^e10] of a decimal literal, correctly rounded (what
    [float] does on a string).  For a negative exponent the quotient is
    computed with enough extra bits for one rounding. *)
Definition of_decimal (s : bool) (m : Z) (e10 : Z) : spec_float :=
  match m with
  | Z.pos p =>
      if 0 <=? e10 then binary_normalize prec emax (if s then - (m * 10 ^ e10) else m * 10 ^ e10) 0 false
      else
        let den := 10 ^ (- e10) in
        let sh := Z.max 0 (Zdigits2 den - Zdigits2 m + 64) in
        let '(q, r) := Z.div_eucl (Z.shiftl m sh) den in
        binary_round_aux prec emax s q (- sh) (new_location den r)
  | _ => S754_zero s
  end.

(** [math.floor] on a float, as a float. *)
Definition floor (x : spec_float) : spec_float :=
  match x with
  | S754_finite s m e =>
      if 0 <=? e then x
      else
        let q := Z.pos m / 2 ^ (- e) in
        let r := Z.pos m mod 2 ^ (- e) in
        if s then
          (if r =? 0 then binary_normalize prec emax (- q) 0 true
           else binary_normalize prec emax (- (q + 1)) 0 true)
        else binary_normalize prec emax q 0 false
  | _ => x
  end.

(** C's [fmod x y]: exact, with the sign of [x]. *)
Definition fmod (x y : spec_float) : spec_float :=
  match x, y with
  | S754_nan, _ | _, S754_nan => S754_nan
  | S754_infinity _, _ => S754_nan
  | _, S754_zero _ => S754_nan
  | _, S754_infinity _ => x
  | S754_zero _, _ => x
  | S754_finite sx mx ex, S754_finite _ my ey =>
      let e := Z.min ex ey in
      let a := Z.pos mx * 2 ^ (ex - e) in
      let b := Z.pos my * 2 ^ (ey - e) in
      let r := a mod b in
      binary_normalize prec emax (if sx then - r else r) e sx
  end.

Definition copysign_zero (x : spec_float) : spec_float := S754_zero (sign x).

Definition half : spec_float := S754_finite false 4503599627370496 (-53).

(** Python's [x // y] and [x % y] on floats ([_float_div_mod] of the
    interpreter), for a divisor that is not zero. *)
Definition divmod (vx wx : spec_float) : spec_float * spec_float :=
  let md := fmod vx wx in
  let dv := div (sub vx md) wx in
  let '(md, dv) :=
    if negb (is_zero md) then
      if negb (Bool.eqb (ltb wx zero) (ltb md zero))
      then (add md wx, sub dv one) else (md, dv)
    else (copysign_zero wx, dv) in
  let fl :=
    if negb (is_zero dv) then
      let f := floor dv in
      if ltb half (sub dv f) then add f one else f
    else copysign_zero (div vx wx) in
  (fl, md).

Definition floordiv (x y : spec_float) : spec_float := fst (divmod x y).
Definition modulo (x y : spec_float) : spec_float := snd (divmod x y).

End F64.

(* ================================================================= *)
(** * Text: the conversions and formats of the interpreter that the code uses

    A string is a text whose characters have code points below 256: the
    character [n] of [ascii] is the code point [n].  Text with other
    characters is outside the model.  Among these characters the decimal
    digits are ["0"] to ["9"], and the white space above 127 is 133 and
    160. *)

Module Text.

Definition code (c : ascii) : Z := Z.of_nat (nat_of_ascii c).

Definition is_digit (c : ascii) : bool := (48 <=? code c) && (code c <=? 57).
Definition is_lower (c : ascii) : bool := (97 <=? code c) && (code c <=? 122).
Definition digit_val (c : ascii) : Z := code c - 48.

(** White space that [int] and [float] strip from both ends: the
    characters 9 to 13 and the blank, and the white space above 127,
    which the conversion first replaces by a blank.  The separators 28
    to 31 stay in place (they are white space for [str.isspace] only). *)
Definition is_space (c : ascii) : bool :=
  ((9 <=? code c) && (code c <=? 13)) || (code c =? 32) ||
  (code c =? 133) || (code c =? 160).

Definition to_lower (c : ascii) : ascii :=
  if (65 <=? code c) && (code c <=? 90)
  then ascii_of_nat (nat_of_ascii c + 32) else c.

Fixpoint lstrip (l : list ascii) : list ascii :=
  match l with
  | c :: r => if is_space c then lstrip r else l
  | [] => []
  end.

Definition strip (l : list ascii) : list ascii := rev (lstrip (rev (lstrip l))).

(** The decimal value of a list of digits. *)
Definition digits_value (ds : list ascii) : Z :=
  fold_left (fun acc c => 10 * acc + digit_val c) ds 0.

(** [digit (["_"] digit)*]: the digits read and the rest of the text. *)
Fixpoint digitpart (l : list ascii) : option (list ascii * list ascii) :=
  match l with
  | c :: r =>
      if is_digit c then
        match r with
        | c' :: r' =>
            if (c' =? "_")%char then
              match digitpart r' with
              | Some (ds, rest) => Some (c :: ds, rest)
              | None => Some ([c], r)
              end
            else
              match digitpart r with
              | Some (ds, rest) => Some (c :: ds, rest)
              | None => Some ([c], r)
              end
        | [] => Some ([c], [])
        end
      else None
  | [] => None
  end.

Definition read_sign (l : list ascii) : bool * list ascii :=
  match l with
  | c :: r =>
      if (c =? "-")%char then (true, r)
      else if (c =? "+")%char then (false, r)
      else (false, l)
  | [] => (false, [])
  end.

(** The most digits that [int] accepts in a text, leading zeros counted
    and underscores not: the default of the interpreter
    ([sys.int_info.default_max_str_digits]), which the program leaves as
    it is. *)
Definition max_str_digits : Z := 4300.

(** [int(s)] for a [str], base 10: [None] stands for [ValueError], also
    when there are more digits than [max_str_digits]. *)
Definition int_of_string (s : string) : option Z :=
  let '(neg, r) := read_sign (strip (list_ascii_of_string s)) in
  match digitpart r with
  | Some (ds, []) =>
      if max_str_digits <? Z.of_nat (List.length ds) then None
      else Some (if neg then - digits_value ds else digits_value ds)
  | _ => None
  end.

Definition lower_string (l : list ascii) : string :=
  string_of_list_ascii (map to_lower l).

(** The exponent part [("e" | "E") [sign] digitpart], when there is one. *)
Definition read_exponent (l : list ascii) : option (Z * list ascii) :=
  match l with
  | c :: r =>
      if (c =? "e")%char || (c =? "E")%char then
        let '(neg, r1) := read_sign r in
        match digitpart r1 with
        | Some (ds, rest) => Some (if neg then - digits_value ds else digits_value ds, rest)
        | None => None
        end
      else Some (0, l)
  | [] => Some (0, [])
  end.

(** [[digitpart] "." digitpart | digitpart ["."]]: the digits before and
    after the point. *)
Definition read_number (l : list ascii) : option (list ascii * list ascii * list ascii) :=
  match digitpart l with
  | Some (ip, "."%char :: r) =>
      match digitpart r with
      | Some (fp, rest) => Some (ip, fp, rest)
      | None => Some (ip, [], r)
      end
  | Some (ip, rest) => Some (ip, [], rest)
  | None =>
      match l with
      | "."%char :: r =>
          match digitpart r with
          | Some (fp, rest) => Some ([], fp, rest)
          | None => None
          end
      | _ => None
      end
  end.

(** [float(s)] for a [str]: [None] stands for [ValueError]. *)
Definition float_of_string (s : string) : option spec_float :=
  let '(neg, r) := read_sign (strip (list_ascii_of_string s)) in
  let w := lower_string r in
  if (w =? "inf")%string || (w =? "infinity")%string then Some (S754_infinity neg)
  else if (w =? "nan")%string then Some S754_nan
  else
    match read_number r with
    | Some (ip, fp, rest) =>
        match read_exponent rest with
        | Some (ex, []) =>
            Some (F64.of_decimal neg (digits_value (ip ++ fp)%list)
                    (ex - Z.of_nat (List.length fp)))
        | _ => None
        end
    | None => None
    end.

(** Decimal numerals. *)
Definition string_of_Z (n : Z) : string := NilZero.string_of_int (Z.to_int n).

Fixpoint repeat_char (c : ascii) (n : nat) : string :=
  match n with
  | O => EmptyString
  | S k => String c (repeat_char c k)
  end.

Definition pad_left (c : ascii) (width : nat) (s : string) : string :=
  (repeat_char c (width - String.length s) ++ s)%string.

(** [|x| * 10^d] rounded to the nearest integer, ties to even: the digits
    that ["%.df"] prints for a finite [x]. *)
Definition scaled_round (m : positive) (e : Z) (d : Z) : Z :=
  if 0 <=? e then Z.pos m * 2 ^ e * 10 ^ d
  else
    let n := Z.pos m * 10 ^ d in
    let den := 2 ^ (- e) in
    let q := n / den in
    let r := n mod den in
    match 2 * r ?= den with
    | Lt => q
    | Gt => q + 1
    | Eq => if Z.even q then q else q + 1
    end.

(** The text of ["%.df"] without its sign. *)
Definition fixed_body (x : spec_float) (d : nat) : string :=
  match x with
  | S754_nan => "nan"
  | S754_infinity _ => "inf"
  | S754_zero _ => ("0." ++ repeat_char "0" d)%string
  | S754_finite _ m e =>
      let t := scaled_round m e (Z.of_nat d) in
      (string_of_Z (t / 10 ^ Z.of_nat d) ++ "." ++
       pad_left "0" d (string_of_Z (t mod 10 ^ Z.of_nat d)))%string
  end.

Definition sign_text (x : spec_float) : string :=
  if F64.sign x then "-" else "".

(** ["%w.df" % x]: padded with spaces on the left up to the width [w]. *)
Definition format_f (width d : nat) (x : spec_float) : string :=
  pad_left " " width (sign_text x ++ fixed_body x d)%string.

(** ["%0w.df" % x]: padded with zeros after the sign. *)
Definition format_0f (width d : nat) (x : spec_float) : string :=
  (sign_text x ++
   pad_left "0" (width - String.length (sign_text x)) (fixed_body x d))%string.

(** ["%0wd" % n]. *)
Definition format_0d (width : nat) (n : Z) : string :=
  if n <? 0
  then ("-" ++ pad_left "0" (width - 1) (string_of_Z (- n)))%string
  else pad_left "0" width (string_of_Z n).

End Text.

(* ================================================================= *)
(** * Built-in operations on values *)

Module Builtins.

(** [try: body  except Exception as e: handler e] (also a bare [except:];
    every exception of [exn] is an [Exception]). *)
Definition try_except {A} (body : result A) (handler : exn -> result A) : result A :=
  match body with
  | Ok a => Ok a
  | Raise e => handler e
  end.

(** [try: x = body  except: x = default]. *)
Definition try_or {A} (body : result A) (default : A) : A :=
  match body with
  | Ok a => a
  | Raise _ => default
  end.

Fixpoint assoc (k : string) (d : dict) : option value :=
  match d with
  | [] => None
  | (k', v) :: r => if (k =? k')%string then Some v else assoc k r
  end.

(** Lists and dictionaries have no hash. *)
Fixpoint hashable (v : value) : bool :=
  match v with
  | PList _ | PDict _ => false
  | PTuple l => forallb hashable l
  | _ => true
  end.

(** [d[key]] on a [dict] whose keys are strings. *)
Definition dict_getitem (d : dict) (key : value) : result value :=
  match key with
  | PStr k => match assoc k d with Some v => Ok v | None => Raise KeyError end
  | _ => if hashable key then Raise KeyError else Raise TypeError
  end.

(** [d.get(key, default)] for a string key. *)
Definition dict_get (d : dict) (key : string) (default : value) : value :=
  match assoc key d with Some v => v | None => default end.

(** [d[key] = v] on a [dict]: an existing key keeps its place. *)
Fixpoint dict_set (d : dict) (k : string) (v : value) : dict :=
  match d with
  | [] => [(k, v)]
  | (k', v') :: r =>
      if (k =? k')%string then (k', v) :: r else (k', v') :: dict_set r k v
  end.

(** [v[key]] for a string key. *)
Definition subscript_str (v : value) (key : string) : result value :=
  match v with
  | PDict d => dict_getitem d (PStr key)
  | _ => Raise TypeError
  end.

(** [v[0]]. *)
Definition subscript_zero (v : value) : result value :=
  match v with
  | PList (x :: _) | PTuple (x :: _) => Ok x
  | PList [] | PTuple [] => Raise IndexError
  | PStr (String c _) => Ok (PStr (String c EmptyString))
  | PStr EmptyString => Raise IndexError
  | PDict _ => Raise KeyError
  | _ => Raise TypeError
  end.

(** [v[key] = x] for a string key. *)
Definition setitem (v : value) (key : string) (x : value) : result value :=
  match v with
  | PDict d => Ok (PDict (dict_set d key x))
  | _ => Raise TypeError
  end.

(** [v[k1][k2] = x]: the inner object is changed in place, so the outer
    one sees the change. *)
Definition setitem2 (v : value) (k1 k2 : string) (x : value) : result value :=
  inner <- subscript_str v k1 ;;
  inner' <- setitem inner k2 x ;;
  setitem v k1 inner'.

(** [v[k1][k2][k3] = x]. *)
Definition setitem3 (v : value) (k1 k2 k3 : string) (x : value) : result value :=
  inner <- subscript_str v k1 ;;
  inner' <- setitem2 inner k2 k3 x ;;
  setitem v k1 inner'.

(** [len(v)]. *)
Definition len (v : value) : result Z :=
  match v with
  | PList l | PTuple l => Ok (Z.of_nat (List.length l))
  | PDict d => Ok (Z.of_nat (List.length d))
  | PStr s => Ok (Z.of_nat (String.length s))
  | _ => Raise TypeError
  end.

(** The elements that [for x in v] visits. *)
Definition iterate (v : value) : result (list value) :=
  match v with
  | PList l | PTuple l => Ok l
  | PDict d => Ok (map (fun kv => PStr (fst kv)) d)
  | PStr s => Ok (map (fun c => PStr (String c EmptyString)) (list_ascii_of_string s))
  | _ => Raise TypeError
  end.

(** [float(v)]. *)
Definition float_ (v : value) : result spec_float :=
  match v with
  | PFloat f => Ok f
  | PInt n => F64.of_int n
  | PBool b => Ok (F64.of_Z (if b then 1 else 0))
  | PStr s =>
      match Text.float_of_string s with
      | Some f => Ok f
      | None => Raise ValueError
      end
  | _ => Raise TypeError
  end.

(** [int(v)]. *)
Definition int_ (v : value) : result Z :=
  match v with
  | PInt n => Ok n
  | PBool b => Ok (if b then 1 else 0)
  | PFloat f => F64.to_int f
  | PStr s =>
      match Text.int_of_string s with
      | Some n => Ok n
      | None => Raise ValueError
      end
  | _ => Raise TypeError
  end.

(** [v == s] for a string [s], and [v != s]. *)
Definition eq_str (v : value) (s : string) : bool :=
  match v with
  | PStr t => (t =? s)%string
  | _ => false
  end.

(** [v == n] for an integer [n]. *)
Definition eq_int (v : value) (n : Z) : bool :=
  match v with
  | PInt m => m =? n
  | PBool b => (if b then 1 else 0) =? n
  | PFloat f => F64.eqb f (F64.of_Z n)
  | _ => false
  end.

(** [v <= 0.0] for a number [v]. *)
Definition le_zero (v : value) : result bool :=
  match v with
  | PInt n => Ok (n <=? 0)
  | PBool b => Ok (negb b)
  | PFloat f => Ok (F64.leb f F64.zero)
  | _ => Raise TypeError
  end.

(** [isinstance(v, (int, float))]. *)
Definition is_int_or_float (v : value) : bool :=
  match v with
  | PInt _ | PBool _ | PFloat _ => true
  | _ => false
  end.

Fixpoint mapM {A B} (f : A -> result B) (l : list A) : result (list B) :=
  match l with
  | [] => Ok []
  | x :: r => y <- f x ;; ys <- mapM f r ;; Ok (y :: ys)
  end.

End Builtins.
Import Builtins.

(* ================================================================= *)
(** * [ffprobe3.py]: class [ParsedJson] *)

Module ParsedJson.

(** [ParsedJson.__init__]: the wrapped object must be a mapping. *)
Definition init (parsed_json : value) : result dict :=
  match parsed_json with
  | PDict d => Ok d
  | _ => Raise (FFprobeInvalidArgumentError "parsed_json"
                  "Supplied parsed JSON is not a dictionary" parsed_json)
  end.

Definition get (self : dict) (key : string) (default : value) : value :=
  dict_get self key default.

Definition get_as_float_body (self : dict) (key : value) : result value :=
  v <- dict_getitem self key ;;
  f <- float_ v ;;
  Ok (PFloat f).

Definition get_as_float (self : dict) (key : value) (default : value) : result value :=
  try_except (get_as_float_body self key) (fun _ => Ok default).

Definition get_as_int_body (self : dict) (key : value) : result value :=
  v <- dict_getitem self key ;;
  n <- int_ v ;;
  Ok (PInt n).

Definition get_as_int (self : dict) (key : value) (default : value) : result value :=
  try_except (get_as_int_body self key) (fun _ => Ok default).

Definition unit_prefixes : list string := [""; "k"; "M"; "G"; "T"; "P"; "E"; "Z"].

(** The [for unit in [...]] loop of [get_datasize_as_human] with what
    follows it: the text returned for the number [num]. *)
Fixpoint datasize_loop (units : list string) (num divisor : spec_float)
    (use_base_10 : bool) (suffix : string) : string :=
  match units with
  | unit :: rest =>
      if F64.ltb (F64.abs num) divisor then
        if negb (unit =? "")%string && negb use_base_10
        then (Text.format_f 3 1 num ++ " " ++ unit ++ "i" ++ suffix)%string
        else (Text.format_f 3 1 num ++ " " ++ unit ++ suffix)%string
      else datasize_loop rest (F64.div num divisor) divisor use_base_10 suffix
  | [] =>
      if negb use_base_10
      then (Text.format_f 0 1 num ++ " " ++ "Yi" ++ suffix)%string
      else (Text.format_f 0 1 num ++ " " ++ "Y" ++ suffix)%string
  end.

Definition datasize_divisor (use_base_10 : bool) : spec_float :=
  if use_base_10 then F64.of_Z 1000 else F64.of_Z 1024.

Definition get_datasize_as_human_body (self : dict) (key : value)
    (suffix : string) (use_base_10 : bool) : result value :=
  v <- dict_getitem self key ;;
  num <- float_ v ;;
  Ok (PStr (datasize_loop unit_prefixes num (datasize_divisor use_base_10)
              use_base_10 suffix)).

Definition get_datasize_as_human (self : dict) (key : value) (default : value)
    (suffix : string) (use_base_10 : bool) : result value :=
  try_except (get_datasize_as_human_body self key suffix use_base_10)
             (fun _ => Ok default).

Definition sixty : spec_float := F64.of_Z 60.

Definition get_duration_as_human_body (self : dict) : result value :=
  v <- dict_getitem self (PStr "duration") ;;
  duration_secs <- float_ v ;;
  let duration_mins := F64.floordiv duration_secs sixty in
  let duration_secs := F64.sub duration_secs (F64.mul duration_mins sixty) in
  let duration_hours := F64.floordiv duration_mins sixty in
  let duration_mins := F64.sub duration_mins (F64.mul duration_hours sixty) in
  h <- F64.to_int duration_hours ;;
  m <- F64.to_int duration_mins ;;
  Ok (PStr (Text.format_0d 2 h ++ ":" ++ Text.format_0d 2 m ++ ":" ++
            Text.format_0f 5 2 duration_secs)%string).

Definition get_duration_as_human (self : dict) (default : value) : result value :=
  try_except (get_duration_as_human_body self) (fun _ => Ok default).

(** [float(self.bit_rate_bps) / 1000.0] under
    [except (TypeError, ValueError)], as the constructors of [FFformat],
    [FFaudioStream] and [FFvideoStream] compute [bit_rate_kbps]. *)
Definition bit_rate_kbps_of (bit_rate_bps : value) : result value :=
  try_except (f <- float_ bit_rate_bps ;; Ok (PFloat (F64.div f (F64.of_Z 1000))))
             (fun e => match e with
                       | TypeError | ValueError => Ok PNone
                       | _ => Raise e
                       end).

End ParsedJson.

(* ================================================================= *)
(** * [ffprobe3.py]: [FFformat], [FFchapter] *)

Record FFformat : Type := {
  format_json : dict;
  format_name : value;
  format_long_name : value;
  format_duration_secs : value;
  duration_human : value;
  num_streams : value;
  format_bit_rate_bps : value;
  format_bit_rate_kbps : value;
  size_B : value;
  size_human : value
}.

Definition FFformat_init (parsed_json : value) : result FFformat :=
  self <- ParsedJson.init parsed_json ;;
  duration_secs <- ParsedJson.get_as_float self (PStr "duration") PNone ;;
  duration_human <- ParsedJson.get_duration_as_human self PNone ;;
  num_streams <- ParsedJson.get_as_int self (PStr "nb_streams") PNone ;;
  bit_rate_bps <- ParsedJson.get_as_int self (PStr "bit_rate") PNone ;;
  bit_rate_kbps <- ParsedJson.bit_rate_kbps_of bit_rate_bps ;;
  size_B <- ParsedJson.get_as_int self (PStr "size") PNone ;;
  size_human <- ParsedJson.get_datasize_as_human self (PStr "size") PNone "B" true ;;
  Ok {| format_json := self;
        format_name := ParsedJson.get self "format_name" PNone;
        format_long_name := ParsedJson.get self "format_long_name" PNone;
        format_duration_secs := duration_secs;
        duration_human := duration_human;
        num_streams := num_streams;
        format_bit_rate_bps := bit_rate_bps;
        format_bit_rate_kbps := bit_rate_kbps;
        size_B := size_B;
        size_human := size_human |}.

Record FFchapter : Type := {
  chapter_json : dict;
  chapter_id : value;
  chapter_title : value
}.

Definition FFchapter_init (parsed_json : value) : result FFchapter :=
  self <- ParsedJson.init parsed_json ;;
  title <- try_except (tags <- dict_getitem self (PStr "tags") ;;
                       subscript_str tags "title")
                      (fun _ => Ok PNone) ;;
  Ok {| chapter_json := self;
        chapter_id := ParsedJson.get self "id" PNone;
        chapter_title := title |}.

(* ================================================================= *)
(** * [ffprobe3.py]: the stream classes *)

Record FFstream : Type := {
  parsed_json : dict;
  index : value;
  codec_type : value;
  codec_name : value;
  codec_long_name : value;
  duration_secs : value
}.

Definition FFstream_init (pj : value) : result FFstream :=
  self <- ParsedJson.init pj ;;
  duration_secs <- ParsedJson.get_as_float self (PStr "duration") PNone ;;
  Ok {| parsed_json := self;
        index := ParsedJson.get self "index" PNone;
        codec_type := ParsedJson.get self "codec_type" PNone;
        codec_name := ParsedJson.get self "codec_name" PNone;
        codec_long_name := ParsedJson.get self "codec_long_name" PNone;
        duration_secs := duration_secs |}.

Definition is_attachment (s : FFstream) : bool := eq_str (codec_type s) "attachment".
Definition is_audio (s : FFstream) : bool := eq_str (codec_type s) "audio".
Definition is_subtitle (s : FFstream) : bool := eq_str (codec_type s) "subtitle".
Definition is_video (s : FFstream) : bool := eq_str (codec_type s) "video".

(** The check every derived class makes after [super().__init__]. *)
Definition require_codec_type (class_name required : string) (s : FFstream)
  : result unit :=
  if negb (eq_str (codec_type s) required)
  then Raise (FFprobeStreamSubclassError class_name (codec_type s) required)
  else Ok tt.

Definition FFattachmentStream_init (pj : value) : result FFstream :=
  s <- FFstream_init pj ;;
  _ <- require_codec_type "FFattachmentStream" "attachment" s ;;
  Ok s.

Definition FFsubtitleStream_init (pj : value) : result FFstream :=
  s <- FFstream_init pj ;;
  _ <- require_codec_type "FFsubtitleStream" "subtitle" s ;;
  Ok s.

Record FFaudioStream : Type := {
  audio_base : FFstream;
  num_channels : value;
  audio_num_frames : value;
  channel_layout : value;
  sample_rate_Hz : value;
  audio_bit_rate_bps : value;
  audio_bit_rate_kbps : value
}.

Definition FFaudioStream_init (pj : value) : result FFaudioStream :=
  s <- FFstream_init pj ;;
  _ <- require_codec_type "FFaudioStream" "audio" s ;;
  let self := parsed_json s in
  num_channels <- ParsedJson.get_as_int self (PStr "channels") PNone ;;
  num_frames <- ParsedJson.get_as_int self (PStr "nb_frames") PNone ;;
  sample_rate_Hz <- ParsedJson.get_as_int self (PStr "sample_rate") PNone ;;
  bit_rate_bps <- ParsedJson.get_as_int self (PStr "bit_rate") PNone ;;
  bit_rate_kbps <- ParsedJson.bit_rate_kbps_of bit_rate_bps ;;
  Ok {| audio_base := s;
        num_channels := num_channels;
        audio_num_frames := num_frames;
        channel_layout := ParsedJson.get self "channel_layout" PNone;
        sample_rate_Hz := sample_rate_Hz;
        audio_bit_rate_bps := bit_rate_bps;
        audio_bit_rate_kbps := bit_rate_kbps |}.

Record FFvideoStream : Type := {
  video_base : FFstream;
  width : value;
  height : value;
  avg_frame_rate : value;
  r_frame_rate : value;
  video_num_frames : value;
  video_bit_rate_bps : value;
  video_bit_rate_kbps : value;
  side_data_list : value
}.

Definition FFvideoStream_init (pj : value) : result FFvideoStream :=
  s <- FFstream_init pj ;;
  _ <- require_codec_type "FFvideoStream" "video" s ;;
  let self := parsed_json s in
  width <- ParsedJson.get_as_int self (PStr "width") PNone ;;
  height <- ParsedJson.get_as_int self (PStr "height") PNone ;;
  num_frames <- ParsedJson.get_as_int self (PStr "nb_frames") PNone ;;
  bit_rate_bps <- ParsedJson.get_as_int self (PStr "bit_rate") PNone ;;
  bit_rate_kbps <- ParsedJson.bit_rate_kbps_of bit_rate_bps ;;
  Ok {| video_base := s;
        width := width;
        height := height;
        avg_frame_rate := ParsedJson.get self "avg_frame_rate" PNone;
        r_frame_rate := ParsedJson.get self "r_frame_rate" PNone;
        video_num_frames := num_frames;
        video_bit_rate_bps := bit_rate_bps;
        video_bit_rate_kbps := bit_rate_kbps;
        side_data_list := ParsedJson.get self "side_data_list" PNone |}.

(** A stream object, by its class. *)
Inductive stream : Type :=
  | Generic (s : FFstream)
  | Attachment (s : FFstream)
  | Audio (a : FFaudioStream)
  | Subtitle (s : FFstream)
  | Video (v : FFvideoStream).

Definition base (x : stream) : FFstream :=
  match x with
  | Generic s | Attachment s | Subtitle s => s
  | Audio a => audio_base a
  | Video v => video_base v
  end.

(** [_KNOWN_FFSTREAM_SUBCLASSES.get(codec_type)]: the constructor found
    for a codec type; a key without a hash is a [TypeError]. *)
Definition known_subclass (codec_type : value)
  : result (option (value -> result stream)) :=
  match codec_type with
  | PStr s =>
      if (s =? "attachment")%string
      then Ok (Some (fun pj => x <- FFattachmentStream_init pj ;; Ok (Attachment x)))
      else if (s =? "audio")%string
      then Ok (Some (fun pj => x <- FFaudioStream_init pj ;; Ok (Audio x)))
      else if (s =? "subtitle")%string
      then Ok (Some (fun pj => x <- FFsubtitleStream_init pj ;; Ok (Subtitle x)))
      else if (s =? "video")%string
      then Ok (Some (fun pj => x <- FFvideoStream_init pj ;; Ok (Video x)))
      else Ok None
  | _ => if hashable codec_type then Ok None else Raise TypeError
  end.

Definition _construct_ffstream_subclass (pj : value) : result stream :=
  codec_type <- match pj with
                | PDict d => Ok (dict_get d "codec_type" PNone)
                | _ => Raise AttributeError
                end ;;
  match codec_type with
  | PNone => s <- FFstream_init pj ;; Ok (Generic s)
  | _ =>
      constructor <- known_subclass codec_type ;;
      match constructor with
      | Some make => make pj
      | None => s <- FFstream_init pj ;; Ok (Generic s)
      end
  end.

(* ================================================================= *)
(** * [ffprobe3.py]: the accessors of [FFvideoStream] *)

Module FrameRate.

(** [-?[0-9]+], greedy: the text matched and the rest. *)
Fixpoint span_digits (l : list ascii) : list ascii * list ascii :=
  match l with
  | c :: r =>
      if Text.is_digit c
      then let '(ds, rest) := span_digits r in (c :: ds, rest)
      else ([], l)
  | [] => ([], [])
  end.

Definition nonempty_digits (p : list ascii * list ascii)
  : option (list ascii * list ascii) :=
  match fst p with
  | [] => None
  | _ => Some p
  end.

Definition read_int_token (l : list ascii) : option (list ascii * list ascii) :=
  match l with
  | c :: r =>
      if (c =? "-")%char
      then match nonempty_digits (span_digits r) with
           | Some (ds, rest) => Some (c :: ds, rest)
           | None => None
           end
      else nonempty_digits (span_digits l)
  | [] => None
  end.

Definition newline : ascii := ascii_of_nat 10.

(** [re.match("^(-?[0-9]+)/(-?[0-9]+)$", s)]: the two groups.  The
    anchor [$] matches at the end of the text and also just before a
    line feed that ends the text. *)
Definition re_match (s : string) : option (string * string) :=
  match read_int_token (list_ascii_of_string s) with
  | Some (n, c :: r) =>
      if (c =? "/")%char then
        match read_int_token r with
        | Some (d, []) => Some (string_of_list_ascii n, string_of_list_ascii d)
        | Some (d, [c']) =>
            if (c' =? newline)%char
            then Some (string_of_list_ascii n, string_of_list_ascii d)
            else None
        | _ => None
        end
      else None
  | _ => None
  end.

End FrameRate.

Section VideoAccessors.

(** [s % v] for a [str] [s] (printf-style formatting), a built-in
    operation the model leaves open. *)
Variable str_format : string -> value -> result value.

Definition get_frame_rate_as_ratio_body (self : FFvideoStream) (key : value)
  : result value :=
  frame_rate <- dict_getitem (parsed_json (video_base self)) key ;;
  match frame_rate with
  | PStr s =>
      match FrameRate.re_match s with
      | Some (n, d) =>
          n' <- int_ (PStr n) ;;
          d' <- int_ (PStr d) ;;
          Ok (PTuple [PInt n'; PInt d'])
      | None => Raise AttributeError
      end
  | _ => Raise TypeError
  end.

Definition get_frame_rate_as_ratio (self : FFvideoStream) (key default : value)
  : result value :=
  try_except (get_frame_rate_as_ratio_body self key) (fun _ => Ok default).

(** [(n, d) = v]. *)
Definition unpack2 (v : value) : result (value * value) :=
  l <- iterate v ;;
  match l with
  | [n; d] => Ok (n, d)
  | _ => Raise ValueError
  end.

Definition get_frame_rate_as_float_body (self : FFvideoStream) (key default : value)
  : result value :=
  r <- get_frame_rate_as_ratio self key PNone ;;
  '(n, d) <- unpack2 r ;;
  n_le <- le_zero n ;;
  nonpos <- (if n_le then Ok true else le_zero d) ;;
  if nonpos then Ok default
  else
    fn <- float_ n ;;
    fd <- float_ d ;;
    if F64.is_zero fd then Raise ZeroDivisionError
    else Ok (PFloat (F64.div fn fd)).

Definition get_frame_rate_as_float (self : FFvideoStream) (key default : value)
  : result value :=
  try_except (get_frame_rate_as_float_body self key default) (fun _ => Ok default).

Definition get_avg_frame_rate (self : FFvideoStream) (default : value) : result value :=
  get_frame_rate_as_float self (PStr "avg_frame_rate") default.

Definition get_r_frame_rate (self : FFvideoStream) (default : value) : result value :=
  get_frame_rate_as_float self (PStr "r_frame_rate") default.

Definition get_frame_rotation_body (self : FFvideoStream) : result value :=
  ds <- iterate (side_data_list self) ;;
  rotations <- mapM (fun d => subscript_str d "rotation") ds ;;
  subscript_zero (PList rotations).

Definition get_frame_rotation (self : FFvideoStream) (default : value) : result value :=
  try_except (get_frame_rotation_body self) (fun _ => Ok default).

(** [v % 360]. *)
Definition mod_360 (v : value) : result value :=
  match v with
  | PInt n => Ok (PInt (n mod 360))
  | PBool b => Ok (PInt ((if b then 1 else 0) mod 360))
  | PFloat f => Ok (PFloat (F64.modulo f (F64.of_Z 360)))
  | PStr s => str_format s (PInt 360)
  | _ => Raise TypeError
  end.

Definition get_frame_shape_body (self : FFvideoStream) : result value :=
  height <- int_ (height self) ;;
  width <- int_ (width self) ;;
  rotation <- get_frame_rotation self (PInt 0) ;;
  r <- mod_360 rotation ;;
  if eq_int r 90 || eq_int r 270
  then Ok (PTuple [PInt height; PInt width])
  else Ok (PTuple [PInt width; PInt height]).

Definition get_frame_shape (self : FFvideoStream) (default : value) : result value :=
  try_except (get_frame_shape_body self) (fun _ => Ok default).

End VideoAccessors.

(* ================================================================= *)
(** * [ffprobe3.py]: class [FFprobe] and function [probe] *)

Record FFprobe : Type := {
  split_cmdline : list string;
  executed_cmd : string;
  media_filename : string;
  probe_json : dict;
  format : FFformat;
  streams : list stream;
  chapters : list FFchapter;
  attachment : list stream;
  audio : list stream;
  subtitle : list stream;
  video : list stream
}.

Definition FFprobe_init (split_cmdline : list string) (parsed_json : value)
  : result FFprobe :=
  if (List.length split_cmdline <? 2)%nat
  then Raise (FFprobeInvalidArgumentError "split_cmdline"
                "Supplied split command-line has too few elements"
                (PList (map PStr split_cmdline)))
  else
    self <- ParsedJson.init parsed_json ;;
    format <- FFformat_init (ParsedJson.get self "format" (PDict [])) ;;
    stream_jsons <- iterate (ParsedJson.get self "streams" (PList [])) ;;
    streams <- mapM _construct_ffstream_subclass stream_jsons ;;
    chapter_jsons <- iterate (ParsedJson.get self "chapters" (PList [])) ;;
    chapters <- mapM FFchapter_init chapter_jsons ;;
    Ok {| split_cmdline := split_cmdline;
          executed_cmd := hd "" split_cmdline;
          media_filename := last split_cmdline "";
          probe_json := self;
          format := format;
          streams := streams;
          chapters := chapters;
          attachment := filter (fun s => is_attachment (base s)) streams;
          audio := filter (fun s => is_audio (base s)) streams;
          subtitle := filter (fun s => is_subtitle (base s)) streams;
          video := filter (fun s => is_video (base s)) streams |}.

(** ** The operating system, as [probe] sees it *)

(** What [Popen.communicate] hands back when it returns: the standard
    output once through [json.loads], the text of the error stream, and
    the exit status.  On the output [json.loads] raises a built-in
    exception other than [JSONDecodeError] ([loads_fails], and then
    [outs_json] does not count), or it raises [JSONDecodeError]
    ([outs_json] is [None]), or it returns a value. *)
Record completion : Type := {
  loads_fails : option library_error;
  outs_json : option value;
  errs : string;
  returncode : Z
}.

(** A started process, by what the two calls of [communicate] do.  The
    call with the timeout [t] raises [TimeoutExpired] ([expires]), or
    else another exception ([fails]), or else returns ([in_time]).  The
    call without timeout that follows [kill] raises an exception
    ([fails_after_kill]) or returns ([after_kill]). *)
Record process : Type := {
  expires : value -> bool;
  fails : value -> option library_error;
  in_time : completion;
  fails_after_kill : option library_error;
  after_kill : completion
}.

Inductive popen_outcome : Type :=
  | Spawned (p : process)
  | PopenFileNotFoundError
  | PopenOSError
  | PopenValueError
  | PopenSubprocessError.

Record os_world : Type := {
  isfile : string -> bool;                   (* [os.path.isfile] *)
  popen : list string -> popen_outcome       (* [subprocess.Popen] *)
}.

Inductive event : Type :=
  | EvSpawn (cmdline : list string)
  | EvKill.

Definition _SPLIT_COMMAND_LINE : list string :=
  ["ffprobe"; "-v"; "error"; "-print_format"; "json";
   "-show_chapters"; "-show_format"; "-show_streams"].

(** [_URI_SCHEME.match(s) is not None], for ["^[a-z][a-z0-9-]*://"]. *)
Fixpoint uri_scheme_tail (l : list ascii) : bool :=
  match l with
  | c :: r =>
      if Text.is_lower c || Text.is_digit c || (c =? "-")%char
      then uri_scheme_tail r
      else match l with
           | ":"%char :: "/"%char :: "/"%char :: _ => true
           | _ => false
           end
  | [] => false
  end.

Definition looks_like_uri (s : string) : bool :=
  match list_ascii_of_string s with
  | c :: r => Text.is_lower c && uri_scheme_tail r
  | [] => false
  end.

(** The checks of the timeout argument. *)
Definition check_communicate_timeout (communicate_timeout : value) : result unit :=
  match communicate_timeout with
  | PNone => Ok tt
  | _ =>
      if negb (is_int_or_float communicate_timeout)
      then Raise (FFprobeInvalidArgumentError "communicate_timeout"
                    "Supplied timeout is non-None and non-numeric"
                    communicate_timeout)
      else
        nonpos <- le_zero communicate_timeout ;;
        if nonpos
        then Raise (FFprobeInvalidArgumentError "communicate_timeout"
                      "Supplied timeout is non-None and non-positive"
                      communicate_timeout)
        else Ok tt
  end.

(** Everything [probe] does before it starts the process: the command
    line to run and the name of the command. *)
Definition probe_prepare (w : os_world) (media_filename : string)
    (communicate_timeout : value) (ffprobe_cmd_override : option string)
    (verify_local_mediafile : bool) : result (list string * string) :=
  '(split_cmdline, ffprobe_cmd) <-
     match ffprobe_cmd_override with
     | Some f =>
         if negb (isfile w f) then Raise (FFprobeOverrideFileError f)
         else Ok (f :: tl _SPLIT_COMMAND_LINE, f)
     | None => Ok (_SPLIT_COMMAND_LINE, hd "" _SPLIT_COMMAND_LINE)
     end ;;
  _ <- check_communicate_timeout communicate_timeout ;;
  _ <- (if verify_local_mediafile
        then if negb (looks_like_uri media_filename)
             then if negb (isfile w media_filename)
                  then Raise (FFprobeMediaFileError media_filename)
                  else Ok tt
             else Ok tt
        else Ok tt) ;;
  Ok ((split_cmdline ++ [media_filename])%list, ffprobe_cmd).

(** The outcome of a call of [communicate] that did not time out. *)
Definition returned (failure : option library_error) (c : completion)
  : result completion :=
  match failure with
  | Some e => Raise (raised e)
  | None => Ok c
  end.

(** [proc.communicate(timeout=...)], with the [kill] and the second call
    on expiry.  Without timeout the first call cannot expire.  Only
    [TimeoutExpired] is caught. *)
Definition communicate (p : process) (communicate_timeout : value)
  : list event * result completion :=
  let first := ([], returned (fails p communicate_timeout) (in_time p)) in
  match communicate_timeout with
  | PNone => first
  | t => if expires p t
         then ([EvKill], returned (fails_after_kill p) (after_kill p))
         else first
  end.

(** What [probe] does with the output of the process. *)
Definition probe_finish (split_cmdline : list string) (c : completion)
  : result FFprobe :=
  parsed_json <- match loads_fails c with
                 | Some e => Raise (raised e)
                 | None =>
                     match outs_json c with
                     | Some j => Ok j
                     | None =>
                         Raise (FFprobeJsonParseError "json.decoder.JSONDecodeError")
                     end
                 end ;;
  let exit_status := returncode c in
  if negb (exit_status =? 0)
  then Raise (FFprobeSubprocessError split_cmdline exit_status (errs c))
  else FFprobe_init split_cmdline parsed_json.

(** [probe]: the events it causes and its result. *)
Definition probe (w : os_world) (media_filename : string)
    (communicate_timeout : value) (ffprobe_cmd_override : option string)
    (verify_local_mediafile : bool) : list event * result FFprobe :=
  match probe_prepare w media_filename communicate_timeout
          ffprobe_cmd_override verify_local_mediafile with
  | Raise e => ([], Raise e)
  | Ok (split_cmdline, ffprobe_cmd) =>
      match popen w split_cmdline with
      | PopenFileNotFoundError => ([], Raise (FFprobeExecutableError ffprobe_cmd))
      | PopenOSError => ([], Raise (FFprobePopenError "OSError"))
      | PopenValueError => ([], Raise (FFprobePopenError "ValueError"))
      | PopenSubprocessError =>
          ([], Raise (FFprobePopenError "subprocess.SubprocessError"))
      | Spawned p =>
          let '(evs, c) := communicate p communicate_timeout in
          (EvSpawn split_cmdline :: evs, c <- c ;; probe_finish split_cmdline c)
      end
  end.

(** The default arguments of [probe]. *)
Definition default_timeout : value := PFloat (F64.of_Z 10).

Definition probe_default (w : os_world) (media_filename : string)
  : list event * result FFprobe :=
  probe w media_filename default_timeout None true.

(* ================================================================= *)
(** * [Song_Metadata.py], [ISRC_Metadata.py] *)

Record SongMetadata : Type := {
  Artist : value;
  Title : value;
  Year : value;
  ISRC : value;
  AlbumArtist : value;
  FilePath : string
}.

Record ISRCMetadata : Type := {
  duration : value;
  recordingVersion : value;
  isValidIsrc : value;
  recordingYear : value;
  recordingArtistName : value;
  isExplicit : value;
  isrc : value;
  isrcFailureCode : value;
  recordingTitle : value;
  id_ : value
}.

Definition ISRCMetadata_fields : list string :=
  ["duration"; "recordingVersion"; "isValidIsrc"; "recordingYear";
   "recordingArtistName"; "isExplicit"; "isrc"; "isrcFailureCode";
   "recordingTitle"; "id"].

(** The constructor [ISRCMetadata] called with the items of [v] as its
    keywords: they must be the ten fields, no more and no fewer. *)
Definition ISRCMetadata_of (v : value) : result ISRCMetadata :=
  match v with
  | PDict d =>
      if forallb (fun kv => existsb (String.eqb (fst kv)) ISRCMetadata_fields) d
      then
        match assoc "duration" d, assoc "recordingVersion" d,
              assoc "isValidIsrc" d, assoc "recordingYear" d,
              assoc "recordingArtistName" d, assoc "isExplicit" d,
              assoc "isrc" d, assoc "isrcFailureCode" d,
              assoc "recordingTitle" d, assoc "id" d with
        | Some a, Some b, Some c, Some e, Some f, Some g, Some h, Some i,
          Some j, Some k =>
            Ok {| duration := a; recordingVersion := b; isValidIsrc := c;
                  recordingYear := e; recordingArtistName := f;
                  isExplicit := g; isrc := h; isrcFailureCode := i;
                  recordingTitle := j; id_ := k |}
        | _, _, _, _, _, _, _, _, _, _ => Raise TypeError
        end
      else Raise TypeError
  | _ => Raise TypeError
  end.

(* ================================================================= *)
(** * [main.py] *)

(** The template of the search request, a module-level dictionary. *)
Definition search_payload_initial : value :=
  PDict [("searchFields",
          PDict [("recordingArtistName", PDict [("value", PStr "")]);
                 ("recordingTitle", PDict [("value", PStr "")]);
                 ("releaseName", PDict [("value", PStr "")]);
                 ("releaseYear", PStr "");
                 ("recordingVersion", PDict [("value", PStr "")]);
                 ("recordingYear", PStr "");
                 ("recordingType", PStr "")]);
         ("start", PInt 0);
         ("number", PInt 100);
         ("showReleases", PBool false)].

(** Modelled from the spec: the package initialiser
    [ffprobePython/__init__.py] is not among the sources, so the name
    [ffprobePython.FFaudioStream] of the test
    [isinstance(s, ffprobePython.FFaudioStream)] is read as the spec does,
    the audio stream class of [ffprobe3.py]. *)
Definition as_FFaudioStream (s : stream) : option FFaudioStream :=
  match s with
  | Audio a => Some a
  | _ => None
  end.

(** [try: x = tags[key]  except: x = default]. *)
Definition tag_or (tags : value) (key : string) (default : value) : value :=
  try_or (subscript_str tags key) default.

(** The [for s in metadata.streams] loop of [GetTrackMetaData]. *)
Fixpoint scan_streams (streams : list stream) (song_file_path : string)
  : option SongMetadata :=
  match streams with
  | [] => None
  | s :: rest =>
      match as_FFaudioStream s with
      | Some a =>
          match dict_getitem (parsed_json (audio_base a)) (PStr "tags") with
          | Raise _ => None
          | Ok tags =>
              Some {| Artist := tag_or tags "ARTIST" (PStr "");
                      AlbumArtist := tag_or tags "album_artist" (PStr "");
                      Title := tag_or tags "TITLE" (PStr "");
                      Year := tag_or tags "DATE" (PStr "");
                      ISRC := tag_or tags "ISRC" (PStr "error");
                      FilePath := song_file_path |}
          end
      | None => scan_streams rest song_file_path
      end
  end.

Definition GetTrackMetaData (w : os_world) (song_file_path : string)
  : option SongMetadata :=
  match snd (probe_default w song_file_path) with
  | Raise _ => None
  | Ok metadata => scan_streams (streams metadata) song_file_path
  end.

(** The answer of the catalog to one request: [requests] raises, or there
    is a response whose text goes through [json.loads] ([None] when that
    raises). *)
Inductive http_reply : Type :=
  | NoResponse
  | Response (text_json : option value).

Definition GetISRCMetadata (reply : http_reply) (song : SongMetadata)
  : result (option ISRCMetadata) :=
  match reply with
  | NoResponse => Raise ConnectionError
  | Response None => Ok None
  | Response (Some json_obj) =>
      recordings <- subscript_str json_obj "recordings" ;;
      n <- len recordings ;;
      if n =? 0 then Ok None
      else
        first <- subscript_zero recordings ;;
        metadata <- ISRCMetadata_of first ;;
        Ok (Some metadata)
  end.

(** The three assignments into the shared template. *)
Definition fill_search_payload (search_payload : value) (song : ISRCMetadata)
  : value * result unit :=
  match setitem3 search_payload "searchFields" "recordingArtistName" "value"
                 (recordingArtistName song) with
  | Raise e => (search_payload, Raise e)
  | Ok p1 =>
      match setitem3 p1 "searchFields" "recordingTitle" "value"
                     (recordingTitle song) with
      | Raise e => (p1, Raise e)
      | Ok p2 =>
          match setitem2 p2 "searchFields" "recordingYear" (recordingYear song) with
          | Raise e => (p2, Raise e)
          | Ok p3 => (p3, Ok tt)
          end
      end
  end.

(** The scan of the matches: every match is looked at. *)
Definition any_explicit (dump : value) : result bool :=
  recordings <- subscript_str dump "recordings" ;;
  recs <- iterate recordings ;;
  flags <- mapM (fun rec => v <- subscript_str rec "isExplicit" ;;
                            Ok (eq_str v "True")) recs ;;
  Ok (existsb (fun b => b) flags).

(** [DoesExplicitVersionExist]: the new content of the template and the
    result.  The catalog answers to the content that [json.dumps]
    serialises. *)
Definition DoesExplicitVersionExist (search_payload : value)
    (catalog : value -> http_reply) (song : ISRCMetadata)
  : value * result bool :=
  match fill_search_payload search_payload song with
  | (p, Raise e) => (p, Raise e)
  | (p, Ok _) =>
      (p, match catalog p with
          | NoResponse => Raise ConnectionError
          | Response None => Ok false
          | Response (Some dump) => any_explicit dump
          end)
  end.

(* ================================================================= *)
(** * The store of processed tracks *)

(** What [sqlite3] stores for a parameter. *)
Inductive sql_value : Type :=
  | SqlNull
  | SqlInteger (n : Z)
  | SqlReal (f : spec_float)
  | SqlText (s : string).

(** The binding of a parameter of [execute]: [None], [int], [float] and
    [str] are supported, an [int] must fit 64 bits. *)
Definition bind_param (v : value) : result sql_value :=
  match v with
  | PNone => Ok SqlNull
  | PBool b => Ok (SqlInteger (if b then 1 else 0))
  | PInt n =>
      if (- 2 ^ 63 <=? n) && (n <? 2 ^ 63) then Ok (SqlInteger n)
      else Raise OverflowError
  | PFloat f => Ok (if F64.is_nan f then SqlNull else SqlReal f)
  | PStr s => Ok (SqlText s)
  | _ => Raise SqlError
  end.

Definition spec_float_eqb (a b : spec_float) : bool :=
  match a, b with
  | S754_zero s, S754_zero t => Bool.eqb s t
  | S754_infinity s, S754_infinity t => Bool.eqb s t
  | S754_nan, S754_nan => true
  | S754_finite s m e, S754_finite t n f => Bool.eqb s t && (m =? n)%positive && (e =? f)
  | _, _ => false
  end.

(** Modelled from the spec: the table [music] and its column types are
    not among the sources ("a single table keyed by ISRC ... queried by
    exact ISRC match, appended via positional insert", without a
    uniqueness constraint).  A row is the list of its eleven cells, the
    first being the ISRC; a cell matches a parameter when both hold the
    same non-null content. *)
Definition row : Type := list sql_value.

Definition row_isrc (r : row) : sql_value := hd SqlNull r.

Definition sql_eq (a b : sql_value) : bool :=
  match a, b with
  | SqlInteger x, SqlInteger y => x =? y
  | SqlReal x, SqlReal y => spec_float_eqb x y
  | SqlText x, SqlText y => (x =? y)%string
  | _, _ => false
  end.

(** [SELECT isrc from music where isrc = ?]. *)
Definition select_isrc (db : list row) (k : sql_value) : list row :=
  filter (fun r => sql_eq (row_isrc r) k) db.

(** [INSERT INTO music VALUES (?,...,?)]. *)
Definition insert_row (db : list row) (r : row) : list row := (db ++ [r])%list.

(* ================================================================= *)
(** * [main.py]: the loop over the files *)

(** What persists from one file to the next: the table and the
    module-level template of the search request. *)
Record state : Type := {
  db : list row;
  search_payload : value
}.

(** What the outside answers while one file is processed.  The body of
    the lookup request is a function of the ISRC, that of the search
    request a function of the template. *)
Record file_io : Type := {
  os : os_world;
  isrc_catalog : value -> http_reply;
  search_catalog : value -> http_reply
}.

Definition str_of_bool (b : bool) : value := PStr (if b then "True" else "False").

Definition insert_params (data : SongMetadata) (isrcMetadata : ISRCMetadata)
    (doesExplicitExist : bool) : list value :=
  [ISRC data; recordingTitle isrcMetadata; isrcFailureCode isrcMetadata;
   recordingArtistName isrcMetadata; recordingYear isrcMetadata;
   isValidIsrc isrcMetadata; recordingVersion isrcMetadata;
   duration isrcMetadata; isExplicit isrcMetadata;
   str_of_bool doesExplicitExist; PStr (FilePath data)].

(** The explicit-version decision of the loop: no search when the track
    itself is flagged explicit. *)
Definition resolve_explicit (search_payload : value)
    (catalog : value -> http_reply) (isrcMetadata : ISRCMetadata)
  : value * result bool :=
  if eq_str (isExplicit isrcMetadata) "True"
  then (search_payload, Ok true)
  else DoesExplicitVersionExist search_payload catalog isrcMetadata.

(** One turn of the loop: the new state, and [Ok] when the loop goes on
    with the next file ([continue] or the end of the body), [Raise] when
    an exception leaves the loop. *)
Definition loop_body (sleep_ms : Z) (st : state) (song : string) (io : file_io)
  : state * result unit :=
  match GetTrackMetaData (os io) song with
  | None => (st, Ok tt)
  | Some data =>
      match bind_param (ISRC data) with
      | Raise e => (st, Raise e)
      | Ok k =>
          if negb (Nat.eqb (List.length (select_isrc (db st) k)) 0)
          then (st, Ok tt)
          else
            match GetISRCMetadata (isrc_catalog io (ISRC data)) data with
            | Raise e => (st, Raise e)
            | Ok None => (st, Ok tt)
            | Ok (Some isrcMetadata) =>
                let '(payload, flag) :=
                  resolve_explicit (search_payload st) (search_catalog io)
                    isrcMetadata in
                match flag with
                | Raise e => ({| db := db st; search_payload := payload |}, Raise e)
                | Ok doesExplicitExist =>
                    match mapM bind_param
                            (insert_params data isrcMetadata doesExplicitExist) with
                    | Raise e =>
                        ({| db := db st; search_payload := payload |}, Raise e)
                    | Ok r =>
                        let st' := {| db := insert_row (db st) r;
                                      search_payload := payload |} in
                        if sleep_ms <? 0 then (st', Raise ValueError)
                        else (st', Ok tt)
                    end
                end
            end
      end
  end.

(** The [for song in song_paths] loop inside [try]: it stops at the first
    exception.  The table of the final state is what [commit] keeps. *)
Fixpoint main_loop (sleep_ms : Z) (st : state) (songs : list (string * file_io))
  : state * result unit :=
  match songs with
  | [] => (st, Ok tt)
  | (song, io) :: rest =>
      match loop_body sleep_ms st song io with
      | (st', Ok _) => main_loop sleep_ms st' rest
      | (st', Raise e) => (st', Raise e)
      end
  end.

(* ================================================================= *)
(** * [ffprobe3.py]: [FFvideoStream.get_side_data] *)

(** [v[:]]: a copy of a sequence.  A number and [None] have no
    subscript; a dictionary has no slice (the look-up of the slice as a
    key fails, with [TypeError] before Python 3.12). *)
Definition slice_all (v : value) : result value :=
  match v with
  | PList l => Ok (PList l)
  | PTuple l => Ok (PTuple l)
  | PStr s => Ok (PStr s)
  | _ => Raise TypeError
  end.

(** [self.side_data_list = v]. *)
Definition set_side_data_list (self : FFvideoStream) (v : value) : FFvideoStream :=
  {| video_base := video_base self;
     width := width self;
     height := height self;
     avg_frame_rate := avg_frame_rate self;
     r_frame_rate := r_frame_rate self;
     video_num_frames := video_num_frames self;
     video_bit_rate_bps := video_bit_rate_bps self;
     video_bit_rate_kbps := video_bit_rate_kbps self;
     side_data_list := v |}.

(** [get_side_data]: the object after the call and what is returned (in
    the internal case, the list the object holds). *)
Definition get_side_data (self : FFvideoStream) (internal : bool)
  : FFvideoStream * result value :=
  if internal then
    let self' := match side_data_list self with
                 | PNone => set_side_data_list self (PList [])
                 | _ => self
                 end in
    (self', Ok (side_data_list self'))
  else
    (self, match side_data_list self with
           | PNone => Ok (PList [])
           | l => slice_all l
           end).

(* ================================================================= *)
(** * [main.py]: [GetAllMusicFiles] *)

(** [sub in s] for two [str]: [sub] occurs somewhere in [s]. *)
Fixpoint str_contains (sub s : string) : bool :=
  String.prefix sub s ||
  match s with
  | EmptyString => false
  | String _ r => str_contains sub r
  end.

Definition ends_with_sep (a : string) : bool :=
  match rev (list_ascii_of_string a) with
  | c :: _ => (c =? "/")%char
  | [] => false
  end.

(** [os.path.join(a, b)] with the separator [/]. *)
Definition path_join (a b : string) : string :=
  if String.prefix "/" b then b
  else if (a =? "")%string || ends_with_sep a then (a ++ b)%string
  else (a ++ "/" ++ b)%string.

(** The test of the inner loop on a file name. *)
Definition is_music_file (file : string) : bool :=
  str_contains ".flac" file || str_contains ".opus" file || str_contains ".mp3" file.

(** [GetAllMusicFiles]: [walk] gives the triples that [os.walk] yields
    for a directory, in their order; [files] grows by [append]. *)
Definition GetAllMusicFiles
    (walk : string -> list (string * list string * list string))
    (root_dir : string) : list string :=
  fold_left
    (fun files rdf =>
       let '(r, d, f) := rdf in
       fold_left
         (fun files file =>
            if is_music_file file then (files ++ [path_join r file])%list
            else files)
         f files)
    (walk root_dir) [].

(* ================================================================= *)
(** * The vocabulary of the properties *)

(** ** Streams *)

Definition codec_of (d : dict) : value := dict_get d "codec_type" PNone.

Definition known_codec_types : list string :=
  ["attachment"; "audio"; "subtitle"; "video"].

(** The codec type is absent or is not one of the four known names. *)
Definition unrecognised (d : dict) : Prop :=
  forall s, In s known_codec_types -> codec_of d <> PStr s.

(** The type of the field [codec_type]: [str] or [None]. *)
Definition str_or_none (v : value) : bool :=
  match v with
  | PNone | PStr _ => true
  | _ => false
  end.

(** ** Worlds for the prober *)

(** A world for the examples: every file exists, the command starts, the
    process ends in time with the completion [c]. *)
Definition process_of (c : completion) : process :=
  {| expires := fun _ => false; fails := fun _ => None; in_time := c;
     fails_after_kill := None; after_kill := c |}.

Definition world_of (c : completion) : os_world :=
  {| isfile := fun _ => true; popen := fun _ => Spawned (process_of c) |}.

(** [v] is a number greater than zero. *)
Definition positive_number (v : value) : bool :=
  match v with
  | PInt n => 0 <? n
  | PBool b => b
  | PFloat f => F64.ltb F64.zero f
  | _ => false
  end.

(** The override of the command is absent or names an existing file: the
    check that [probe] makes before it looks at the timeout. *)
Definition override_ok (w : os_world) (ov : option string) : Prop :=
  match ov with
  | Some f => isfile w f = true
  | None => True
  end.

(** The class of a stream object agrees with its codec type: it is an
    [FFaudioStream] exactly when its codec type is ["audio"]. *)
Definition class_agrees (s : stream) : Prop :=
  match s with
  | Audio a => is_audio (audio_base a) = true
  | _ => is_audio (base s) = false
  end.

(** The value of a tag: the entry of the tag dictionary, or the default
    when the key is absent (or when the tags are not a dictionary). *)
Definition tag (tags : value) (key : string) (default : value) : value :=
  match tags with
  | PDict d => dict_get d key default
  | _ => default
  end.

(** The record built from the tags of an audio stream. *)
Definition metadata_of_tags (tags : value) (song_file_path : string) : SongMetadata :=
  {| Artist := tag tags "ARTIST" (PStr "");
     AlbumArtist := tag tags "album_artist" (PStr "");
     Title := tag tags "TITLE" (PStr "");
     Year := tag tags "DATE" (PStr "");
     ISRC := tag tags "ISRC" (PStr "error");
     FilePath := song_file_path |}.

(** A probe result with a video stream and an audio stream that has only
    a title and a date. *)
Definition sample_probe_json : value :=
  PDict [("streams",
          PList [PDict [("codec_type", PStr "video")];
                 PDict [("codec_type", PStr "audio");
                        ("tags", PDict [("TITLE", PStr "T"); ("DATE", PStr "2020")])]])].

Definition sample_world : os_world :=
  world_of {| loads_fails := None; outs_json := Some sample_probe_json; errs := ""; returncode := 0 |}.

(** ** The search template *)

(** The template with given values at the three places the search fills. *)
Definition search_template (artist title year : value) : value :=
  PDict [("searchFields",
          PDict [("recordingArtistName", PDict [("value", artist)]);
                 ("recordingTitle", PDict [("value", title)]);
                 ("releaseName", PDict [("value", PStr "")]);
                 ("releaseYear", PStr "");
                 ("recordingVersion", PDict [("value", PStr "")]);
                 ("recordingYear", year);
                 ("recordingType", PStr "")]);
         ("start", PInt 0);
         ("number", PInt 100);
         ("showReleases", PBool false)].

Definition payload_for (song : ISRCMetadata) : value :=
  search_template (recordingArtistName song) (recordingTitle song)
                  (recordingYear song).

(** The content of the template after a sequence of calls of
    [DoesExplicitVersionExist], each with its catalog and its song. *)
Fixpoint payload_after (p : value)
    (calls : list ((value -> http_reply) * ISRCMetadata)) : value :=
  match calls with
  | [] => p
  | (catalog, song) :: rest =>
      payload_after (fst (DoesExplicitVersionExist p catalog song)) rest
  end.

(** ** The store and sample runs *)

(** Two cells hold the same ISRC: they are equal and not the null
    marker, which stands for no ISRC and equals nothing in SQL. *)
Definition same_isrc (a b : sql_value) : Prop := a = b /\ a <> SqlNull.

(** The table contains a row whose ISRC is [k]. *)
Definition has_row_for (db : list row) (k : sql_value) : Prop :=
  exists r, In r db /\ same_isrc (row_isrc r) k.

(** At most one row for every ISRC: no two rows at different places of
    the table hold the same ISRC. *)
Definition one_row_per_isrc (db : list row) : Prop :=
  ForallOrdPairs (fun r1 r2 => ~ same_isrc (row_isrc r1) (row_isrc r2)) db.

(** A file with the tags of artist, title, date and ISRC ["X1"], and a
    catalog that knows the recording and flags it explicit. *)
Definition tagged_probe_json : value :=
  PDict [("streams",
          PList [PDict [("codec_type", PStr "audio");
                        ("tags", PDict [("ARTIST", PStr "A"); ("TITLE", PStr "T");
                                        ("DATE", PStr "2020"); ("ISRC", PStr "X1")])]])].

Definition catalog_record : value :=
  PDict [("duration", PStr "180"); ("recordingVersion", PStr "");
         ("isValidIsrc", PStr "True"); ("recordingYear", PStr "2020");
         ("recordingArtistName", PStr "A"); ("isExplicit", PStr "True");
         ("isrc", PStr "X1"); ("isrcFailureCode", PStr "");
         ("recordingTitle", PStr "T"); ("id", PStr "1")].

Definition tagged_io (lookup : http_reply) : file_io :=
  {| os := world_of {| loads_fails := None; outs_json := Some tagged_probe_json; errs := "";
                       returncode := 0 |};
     isrc_catalog := fun _ => lookup;
     search_catalog := fun _ => Response None |}.

Definition found_io : file_io :=
  tagged_io (Response (Some (PDict [("recordings", PList [catalog_record])]))).

Definition tagged_data : SongMetadata :=
  {| Artist := PStr "A"; AlbumArtist := PStr ""; Title := PStr "T";
     Year := PStr "2020"; ISRC := PStr "X1"; FilePath := "a.mp3" |}.

Definition x1_row : row :=
  [SqlText "X1"; SqlText "T"; SqlText ""; SqlText "A"; SqlText "2020";
   SqlText "True"; SqlText ""; SqlText "180"; SqlText "True"; SqlText "True";
   SqlText "a.mp3"].

Definition empty_state : state :=
  {| db := []; search_payload := search_payload_initial |}.

Definition x1_state : state :=
  {| db := [x1_row]; search_payload := search_payload_initial |}.

(** ** Accessors *)

(** An accessor built as [try: body  except Exception: return default]:
    it returns a value for every default, the default when the body
    raises, the value of the body otherwise. *)
Definition defaulting (body : result value) (accessor : value -> result value)
  : Prop :=
  forall default,
    (exists r, accessor default = Ok r) /\
    (raises body -> accessor default = Ok default) /\
    (forall r, body = Ok r -> accessor default = Ok r).

(** ** Frame rates *)

Definition all_digits (l : list ascii) : Prop :=
  Forall (fun c => Text.is_digit c = true) l.

(** An integer as written: an optional minus sign and digits. *)
Definition int_token (neg : bool) (ds : list ascii) : list ascii :=
  if neg then "-"%char :: ds else ds.

Definition token_value (neg : bool) (ds : list ascii) : Z :=
  if neg then - Text.digits_value ds else Text.digits_value ds.

(** The digits are no more than [int] accepts. *)
Definition within_limit (ds : list ascii) : bool :=
  Z.of_nat (List.length ds) <=? Text.max_str_digits.

(** The text [n/d]. *)
Definition ratio_text (sn : bool) (dn : list ascii) (sd : bool) (dd : list ascii)
  : list ascii :=
  (int_token sn dn ++ "/"%char :: int_token sd dd)%list.

(** A string of the exact form integer/integer. *)
Definition exact_form (s : string) : Prop :=
  exists sn dn sd dd,
    dn <> [] /\ dd <> [] /\ all_digits dn /\ all_digits dd /\
    s = string_of_list_ascii (ratio_text sn dn sd dd).

(** The same followed by one line feed. *)
Definition exact_form_newline (s : string) : Prop :=
  exists sn dn sd dd,
    dn <> [] /\ dd <> [] /\ all_digits dn /\ all_digits dd /\
    s = string_of_list_ascii (ratio_text sn dn sd dd ++ [FrameRate.newline])%list.

Definition starts_with_digit (l : list ascii) : bool :=
  match l with
  | c :: _ => Text.is_digit c
  | [] => false
  end.

(** The least exponent of binary64. *)
Definition emin64 : Z := emin F64.prec F64.emax.

(** [float(n) / float(d)] for two integers, or the default when a
    conversion overflows. *)
Definition quotient_or (n d : Z) (default : value) : value :=
  match F64.of_int n, F64.of_int d with
  | Ok fn, Ok fd => PFloat (F64.div fn fd)
  | _, _ => default
  end.

(** The ratio of 1 followed by 400 zeros to 1. *)
Definition huge_ratio : string :=
  String "1" (Text.repeat_char "0" 400 ++ "/1")%string.

Definition video_with (fields : dict) : result FFvideoStream :=
  FFvideoStream_init (PDict (("codec_type", PStr "video") :: fields)).

Definition sample_video_fields : dict :=
  [("r_frame_rate", PStr "2997/100"); ("a", PStr "abc"); ("b", PStr "30");
   ("c", PStr "-1/0")].

(** The ratio of a number of 4301 digits to 1. *)
Definition long_ratio : string :=
  (Text.repeat_char "7" 4301 ++ "/1")%string.

Definition ratio_with_newline : string :=
  string_of_list_ascii (list_ascii_of_string "30/1" ++ [FrameRate.newline])%list.

(** ** Data sizes *)

(** The number after [k] divisions by the divisor. *)
Fixpoint divided (num divisor : spec_float) (k : nat) : spec_float :=
  match k with
  | O => num
  | S k' => divided (F64.div num divisor) divisor k'
  end.

(** The number of divisions until the magnitude is below the divisor,
    at most [n]. *)
Fixpoint divisions (n : nat) (num divisor : spec_float) : nat :=
  match n with
  | O => O
  | S n' =>
      if F64.ltb (F64.abs num) divisor then O
      else S (divisions n' (F64.div num divisor) divisor)
  end.

Definition below (x divisor : spec_float) : bool := F64.ltb (F64.abs x) divisor.

(** The magnitude is in the interval from 1 to the divisor, the divisor
    left out. *)
Definition in_unit_range (x divisor : spec_float) : bool :=
  F64.leb F64.one (F64.abs x) && below x divisor.

(** The prefix for [k] divisions. *)
Definition prefix_of (use_base_10 : bool) (k : nat) : string :=
  let unit := nth k (ParsedJson.unit_prefixes ++ ["Y"])%list "Y" in
  if negb (unit =? "")%string && negb use_base_10 then (unit ++ "i")%string else unit.

(** The text for the number [x] reached after [k] divisions. *)
Definition datasize_text (use_base_10 : bool) (suffix : string) (k : nat)
    (x : spec_float) : string :=
  (Text.format_f (if (k <? 8)%nat then 3 else 0) 1 x ++ " " ++
   prefix_of use_base_10 k ++ suffix)%string.

(** [x] is a binary64 number in normal form. *)
Definition valid (x : spec_float) : bool := valid_binary F64.prec F64.emax x.

(** ** The parsed output that the constructors accept *)

Definition is_int (v : value) : bool :=
  match v with PInt _ => true | _ => false end.

Definition is_float (v : value) : bool :=
  match v with PFloat _ => true | _ => false end.

Definition is_str (v : value) : bool :=
  match v with PStr _ => true | _ => false end.

Definition is_dict (j : value) : bool :=
  match j with PDict _ => true | _ => false end.

(** [None], or a value of the given kind. *)
Definition none_or (P : value -> bool) (v : value) : bool :=
  match v with
  | PNone => true
  | _ => P v
  end.

(** The bit rate of the dictionary, once it is an [int], has a float:
    the conversion does not overflow.  True also when there is no bit
    rate that converts to an [int]. *)
Definition bit_rate_fits (d : dict) : bool :=
  match ParsedJson.get_as_int d (PStr "bit_rate") PNone with
  | Ok (PInt n) => negb (F64.is_inf (F64.of_Z n))
  | _ => true
  end.

(** The name of the class of a stream object. *)
Definition class_name (s : stream) : string :=
  match s with
  | Generic _ => "FFstream"
  | Attachment _ => "FFattachmentStream"
  | Audio _ => "FFaudioStream"
  | Subtitle _ => "FFsubtitleStream"
  | Video _ => "FFvideoStream"
  end.

(** The class that stands for a codec type. *)
Definition class_for (codec_type : value) : string :=
  if eq_str codec_type "attachment" then "FFattachmentStream"
  else if eq_str codec_type "audio" then "FFaudioStream"
  else if eq_str codec_type "subtitle" then "FFsubtitleStream"
  else if eq_str codec_type "video" then "FFvideoStream"
  else "FFstream".

(** An entry of the list of streams from which a stream object can be
    built: a dictionary, with a codec type that has a hash and, for an
    audio or a video stream, a bit rate that has a float. *)
Definition stream_json_ok (j : value) : bool :=
  match j with
  | PDict d =>
      hashable (codec_of d) &&
      (if eq_str (codec_of d) "audio" || eq_str (codec_of d) "video"
       then bit_rate_fits d else true)
  | _ => false
  end.

Definition format_json_ok (j : value) : bool :=
  match j with
  | PDict d => bit_rate_fits d
  | _ => false
  end.

(** [v] can be iterated and all its elements pass the test. *)
Definition all_of (P : value -> bool) (v : value) : bool :=
  match iterate v with
  | Ok l => forallb P l
  | Raise _ => false
  end.

(** A parsed output from which an [FFprobe] object can be built. *)
Definition probe_json_ok (pj : value) : bool :=
  match pj with
  | PDict d =>
      format_json_ok (dict_get d "format" (PDict [])) &&
      all_of stream_json_ok (dict_get d "streams" (PList [])) &&
      all_of is_dict (dict_get d "chapters" (PList []))
  | _ => false
  end.

(** The attributes that [FFformat] derives have the types that its
    documentation gives, and the two bit rates are absent together. *)
Definition format_typed (fmt : FFformat) : Prop :=
  none_or is_float (format_duration_secs fmt) = true /\
  none_or is_str (duration_human fmt) = true /\
  none_or is_int (num_streams fmt) = true /\
  none_or is_int (format_bit_rate_bps fmt) = true /\
  none_or is_float (format_bit_rate_kbps fmt) = true /\
  none_or is_int (size_B fmt) = true /\
  none_or is_str (size_human fmt) = true /\
  (format_bit_rate_kbps fmt = PNone <-> format_bit_rate_bps fmt = PNone).

Definition audio_typed (a : FFaudioStream) : Prop :=
  none_or is_float (duration_secs (audio_base a)) = true /\
  none_or is_int (num_channels a) = true /\
  none_or is_int (audio_num_frames a) = true /\
  none_or is_int (sample_rate_Hz a) = true /\
  none_or is_int (audio_bit_rate_bps a) = true /\
  none_or is_float (audio_bit_rate_kbps a) = true /\
  (audio_bit_rate_kbps a = PNone <-> audio_bit_rate_bps a = PNone).

Definition video_typed (v : FFvideoStream) : Prop :=
  none_or is_float (duration_secs (video_base v)) = true /\
  none_or is_int (width v) = true /\
  none_or is_int (height v) = true /\
  none_or is_int (video_num_frames v) = true /\
  none_or is_int (video_bit_rate_bps v) = true /\
  none_or is_float (video_bit_rate_kbps v) = true /\
  (video_bit_rate_kbps v = PNone <-> video_bit_rate_bps v = PNone).

(** The stream object [s] wraps the dictionary [j], and its class is the
    one of its codec type. *)
Definition wraps (j : value) (s : stream) : Prop :=
  j = PDict (parsed_json (base s)) /\
  class_name s = class_for (codec_type (base s)) /\
  codec_type (base s) = codec_of (parsed_json (base s)).

(** The chapter object [c] wraps the dictionary [j]; its title is the
    entry ["title"] of the dictionary under ["tags"], when there is one. *)
Definition chapter_wraps (j : value) (c : FFchapter) : Prop :=
  j = PDict (chapter_json c) /\
  chapter_id c = dict_get (chapter_json c) "id" PNone /\
  chapter_title c =
    match assoc "tags" (chapter_json c) with
    | Some (PDict t) => dict_get t "title" PNone
    | _ => PNone
    end.

Definition in_class (name : string) (s : stream) : bool :=
  (class_name s =? name)%string.

Definition two_streams_json : value :=
  PDict [("streams",
          PList [PDict [("codec_type", PStr "video"); ("width", PInt 640)];
                 PDict [("codec_type", PStr "data")]]);
         ("chapters",
          PList [PDict [("id", PInt 0); ("tags", PDict [("title", PStr "Intro")])]])].

Definition sample_format_json : value :=
  PDict [("format_name", PStr "flac"); ("duration", PStr "3854.8");
         ("bit_rate", PStr "128000"); ("size", PStr "x")].

(** ** The run of the prober *)

(** The exceptions of [exceptions.py]. *)
Definition is_FFprobeError (e : exn) : bool :=
  match e with
  | FFprobeInvalidArgumentError _ _ _ | FFprobeOverrideFileError _
  | FFprobeExecutableError _ | FFprobeMediaFileError _ | FFprobePopenError _
  | FFprobeJsonParseError _ | FFprobeSubprocessError _ _ _
  | FFprobeStreamSubclassError _ _ _ => true
  | _ => false
  end.

Definition is_invalid_argument (e : exn) : bool :=
  match e with
  | FFprobeInvalidArgumentError _ _ _ => true
  | _ => false
  end.

(** A character that can follow the first letter of a URI scheme. *)
Definition scheme_char (c : ascii) : bool :=
  Text.is_lower c || Text.is_digit c || (c =? "-")%char.

(** A URI scheme: a lower-case letter, then lower-case letters, digits
    and hyphens. *)
Definition uri_scheme (l : list ascii) : Prop :=
  match l with
  | c :: r => Text.is_lower c = true /\ Forall (fun x => scheme_char x = true) r
  | [] => False
  end.

Definition scheme_mark : list ascii := [":"; "/"; "/"]%char.

(** The command that is run, and its command line for a media file. *)
Definition command_name (ov : option string) : string :=
  match ov with Some c => c | None => "ffprobe" end.

Definition command_line (ov : option string) (media_filename : string) : list string :=
  command_name ov ::
  ["-v"; "error"; "-print_format"; "json"; "-show_chapters"; "-show_format";
   "-show_streams"; media_filename].

(** The media file passes the check: no check is asked for, or the name
    looks like a URI, or the file exists. *)
Definition media_ok (w : os_world) (f : string) (verify : bool) : bool :=
  negb verify || looks_like_uri f || isfile w f.

(** The three checks that come before the process is started. *)
Definition may_start (w : os_world) (f : string) (t : value)
    (ov : option string) (verify : bool) : Prop :=
  override_ok w ov /\ check_communicate_timeout t = Ok tt /\
  media_ok w f verify = true.

(** [communicate] runs out of time: only with a timeout. *)
Definition timed_out (p : process) (t : value) : bool :=
  match t with
  | PNone => false
  | _ => expires p t
  end.

(** What the process hands back in the end, when the last call of
    [communicate] returns. *)
Definition completion_of (p : process) (t : value) : completion :=
  if timed_out p t then after_kill p else in_time p.

(** The exception that the last call of [communicate] raises on its own
    account, if it does. *)
Definition failure_of (p : process) (t : value) : option library_error :=
  if timed_out p t then fails_after_kill p else fails p t.

(** [json.loads] returns the value [j] on the output. *)
Definition parses_to (c : completion) (j : value) : Prop :=
  loads_fails c = None /\ outs_json c = Some j.

(** A world in which the process ends in time with status 0 and the
    output [j]. *)
Definition world_with (j : value) : os_world :=
  world_of {| loads_fails := None; outs_json := Some j; errs := ""; returncode := 0 |}.

(** A world in which [communicate] refuses a timeout that is not a
    number, as the interpreter does on Linux, and otherwise returns in
    time an empty object with status 0. *)
Definition fails_on_nan (t : value) : option library_error :=
  match t with
  | PFloat S754_nan => Some LibValueError
  | _ => None
  end.

Definition nan_world : os_world :=
  {| isfile := fun _ => true;
     popen := fun _ =>
       Spawned {| expires := fun _ => false;
                  fails := fails_on_nan;
                  in_time := {| loads_fails := None; outs_json := Some (PDict []);
                                errs := ""; returncode := 0 |};
                  fails_after_kill := None;
                  after_kill := {| loads_fails := None; outs_json := Some (PDict []);
                                   errs := ""; returncode := 0 |} |} |}.

(** A world without any file, in which the process ends in time with
    status 0 and an empty object as output. *)
Definition bare_world : os_world :=
  {| isfile := fun _ => false;
     popen := fun _ => Spawned (process_of {| loads_fails := None; outs_json := Some (PDict []);
                                              errs := ""; returncode := 0 |}) |}.

(** ** Side data of a video stream *)

(** The rotation that a side-data entry carries. *)
Definition rotation_of (e : value) : option value :=
  match e with
  | PDict d => assoc "rotation" d
  | _ => None
  end.

Definition has_rotation (e : value) : bool :=
  match rotation_of e with
  | Some _ => true
  | None => false
  end.

(** A rotation by a quarter turn or by three quarters of a turn. *)
Definition quarter_turn (r : Z) : bool := (r mod 360 =? 90) || (r mod 360 =? 270).

(** A video stream of 1920 by 1080 with the given side data. *)
Definition rotated_video (side_data : value) : FFvideoStream :=
  {| video_base := {| parsed_json := []; index := PNone; codec_type := PStr "video";
                      codec_name := PNone; codec_long_name := PNone;
                      duration_secs := PNone |};
     width := PInt 1920; height := PInt 1080;
     avg_frame_rate := PNone; r_frame_rate := PNone; video_num_frames := PNone;
     video_bit_rate_bps := PNone; video_bit_rate_kbps := PNone;
     side_data_list := side_data |}.

(** A formatting operation for the examples: a [str] has no [%] with a
    number (the examples never reach it). *)
Definition no_str_format (s : string) (v : value) : result value := Raise TypeError.

(** ** The files of a library *)

Definition music_extensions : list string := [".flac"; ".opus"; ".mp3"].

(** The paths that one triple of the walk contributes. *)
Definition music_files_of (rdf : string * list string * list string) : list string :=
  let '(r, d, f) := rdf in map (path_join r) (filter is_music_file f).

Definition sample_walk (root : string)
  : list (string * list string * list string) :=
  [(root, ["live"], ["a.flac"; "cover.jpg"; "b.mp3.bak"; "C.MP3"]);
   ((root ++ "/live")%string, [], ["c.opus"])].

(** ** The answers of the catalog *)

(** The record whose fields are the entries of a dictionary. *)
Definition record_of (fd : dict) : ISRCMetadata :=
  {| duration := dict_get fd "duration" PNone;
     recordingVersion := dict_get fd "recordingVersion" PNone;
     isValidIsrc := dict_get fd "isValidIsrc" PNone;
     recordingYear := dict_get fd "recordingYear" PNone;
     recordingArtistName := dict_get fd "recordingArtistName" PNone;
     isExplicit := dict_get fd "isExplicit" PNone;
     isrc := dict_get fd "isrc" PNone;
     isrcFailureCode := dict_get fd "isrcFailureCode" PNone;
     recordingTitle := dict_get fd "recordingTitle" PNone;
     id_ := dict_get fd "id" PNone |}.

(** The keys of the dictionary are the ten fields, no more and no fewer. *)
Definition exactly_the_fields (fd : dict) : Prop :=
  (forall k, In k (map fst fd) -> In k ISRCMetadata_fields) /\
  (forall k, In k ISRCMetadata_fields -> assoc k fd <> None).

(** The explicit flag of a match, when the match is a dictionary that
    has one. *)
Definition explicit_flag (r : value) : option value :=
  match r with
  | PDict rd => assoc "isExplicit" rd
  | _ => None
  end.

Definition has_flag (r : value) : bool :=
  match explicit_flag r with
  | Some _ => true
  | None => false
  end.

(** The flag is the text ["True"]. *)
Definition flagged_explicit (r : value) : bool :=
  match explicit_flag r with
  | Some (PStr s) => (s =? "True")%string
  | _ => false
  end.

(** ** The rows that a run adds *)

(** [l] is [l'] with some elements left out. *)
Inductive subseq {A : Type} : list A -> list A -> Prop :=
  | subseq_nil : subseq [] []
  | subseq_skip (x : A) (l l' : list A) : subseq l l' -> subseq l (x :: l')
  | subseq_take (x : A) (l l' : list A) : subseq l l' -> subseq (x :: l) (x :: l').

(** A row of the table written for the file [path]: eleven cells, the
    last holds the path, the one before it the text of a truth value. *)
Definition row_of_file (path : string) (r : row) : Prop :=
  List.length r = 11%nat /\ nth 10 r SqlNull = SqlText path /\
  (nth 9 r SqlNull = SqlText "True" \/ nth 9 r SqlNull = SqlText "False").

(** The same answers of the outside, but for the search. *)
Definition with_search (io : file_io) (catalog : value -> http_reply) : file_io :=
  {| os := os io; isrc_catalog := isrc_catalog io; search_catalog := catalog |}.

(** A row stored for a file without ISRC tag, and a file without ISRC
    tag that the catalog would know. *)
Definition error_row : row :=
  [SqlText "error"; SqlText "T"; SqlText ""; SqlText "A"; SqlText "2020";
   SqlText "True"; SqlText ""; SqlText "180"; SqlText "False"; SqlText "False";
   SqlText "other.flac"].

Definition untagged_io : file_io :=
  {| os := sample_world;
     isrc_catalog :=
       fun _ => Response (Some (PDict [("recordings", PList [catalog_record])]));
     search_catalog := fun _ => Response None |}.

(** A file with tags whose catalog record carries a field the record
    class does not have. *)
Definition extended_io : file_io :=
  tagged_io (Response (Some (PDict [("recordings",
               PList [PDict [("isrc", PStr "X1"); ("label", PStr "L")]])]))).

(** The probe of the file fails, or finds no audio stream, or finds a
    first audio stream without tags. *)
Definition without_metadata (w : os_world) (song : string) : Prop :=
  (exists e, snd (probe_default w song) = Raise e) \/
  (exists md,
     snd (probe_default w song) = Ok md /\
     (find (fun s => is_audio (base s)) (streams md) = None \/
      exists s, find (fun s => is_audio (base s)) (streams md) = Some s /\
                assoc "tags" (parsed_json (base s)) = None)).

(* ================================================================= *)
(** ** Durations *)

(** The float of [N * 2^E], for a natural number [N] below [2^53]: zero,
    or the mantissa [N] shifted to 53 bits. *)
Definition canon (N E : Z) : spec_float :=
  match N with
  | Z.pos p =>
      let j := 53 - Zdigits2 N in
      S754_finite false (Z.to_pos (N * 2 ^ j)) (E - j)
  | _ => S754_zero false
  end.

(** * Properties *)

(** ** General facts on results and dictionaries *)

Lemma try_except_total {A} (body : result A) (default : A) :
  exists a, try_except body (fun _ => Ok default) = Ok a.
Proof. destruct body; simpl; eauto. Qed.

Lemma try_except_raises {A} (body : result A) (default : A) :
  raises body -> try_except body (fun _ => Ok default) = Ok default.
Proof. intros [e ->]. reflexivity. Qed.

Lemma try_except_ok {A} (body : result A) (default a : A) :
  body = Ok a -> try_except body (fun _ => Ok default) = Ok a.
Proof. intros ->. reflexivity. Qed.

Lemma get_as_float_ok (self : dict) (key default : value) :
  exists v, ParsedJson.get_as_float self key default = Ok v.
Proof. apply try_except_total. Qed.

Lemma get_as_int_ok (self : dict) (key default : value) :
  exists v, ParsedJson.get_as_int self key default = Ok v.
Proof. apply try_except_total. Qed.

(** The constructor of the base class succeeds on every dictionary. *)
Lemma FFstream_init_dict (d : dict) :
  exists s, FFstream_init (PDict d) = Ok s /\ parsed_json s = d /\
            codec_type s = dict_get d "codec_type" PNone.
Proof.
  unfold FFstream_init. simpl.
  destruct (get_as_float_ok d (PStr "duration") PNone) as [v ->]. simpl.
  eexists. split; [reflexivity|]. split; reflexivity.
Qed.

(** ** Stream construction (C3) *)

(** A derived class refuses a dictionary of another codec type. *)
Lemma require_codec_type_mismatch (cls required : string) (s : FFstream) :
  eq_str (codec_type s) required = false ->
  require_codec_type cls required s =
    Raise (FFprobeStreamSubclassError cls (codec_type s) required).
Proof. unfold require_codec_type. intros ->. reflexivity. Qed.

Lemma known_subclass_unrecognised (d : dict) :
  unrecognised d -> hashable (codec_of d) = true ->
  known_subclass (codec_of d) = Ok None.
Proof.
  intros Hu Hh. unfold known_subclass.
  destruct (codec_of d) eqn:E; try reflexivity; try (rewrite Hh; reflexivity).
  repeat match goal with
  | |- context [(?a =? ?b)%string] =>
      destruct (String.eqb_spec a b) as [->|_];
      [exfalso; eapply Hu; [|exact E]; simpl; tauto|]
  end.
  reflexivity.
Qed.

(** Outside the type of the field ([codec_type] is documented as [str]
    or [None]): on a codec type that is a list (or a dictionary) the
    look-up in the table of classes raises [TypeError], where the
    docstring of [FFstream] promises a plain [FFstream]. *)
Remark dispatch_unhashable_codec_type :
  unrecognised [("codec_type", PList [])] /\
  _construct_ffstream_subclass (PDict [("codec_type", PList [])]) = Raise TypeError.
Proof.
  split; [|reflexivity].
  intros s _. unfold codec_of. simpl. discriminate.
Qed.

(** C3: each derived stream class raises [FFprobeStreamSubclassError],
    with the class name, the received and the required codec type, when
    the [codec_type] of the dictionary is not the one it requires (so
    [FFaudioStream] on ["video"] data); and [_construct_ffstream_subclass]
    builds a plain [FFstream] over the same dictionary, without error,
    when the [codec_type] is absent or is not one of the four known
    names: for every [codec_type] of the type of the field, [str] or
    [None], and more generally for every hashable one (null, boolean,
    number, string). *)
Theorem C3_stream_construction (d : dict) :
  (eq_str (codec_of d) "audio" = false ->
     FFaudioStream_init (PDict d) =
       Raise (FFprobeStreamSubclassError "FFaudioStream" (codec_of d) "audio")) /\
  (eq_str (codec_of d) "video" = false ->
     FFvideoStream_init (PDict d) =
       Raise (FFprobeStreamSubclassError "FFvideoStream" (codec_of d) "video")) /\
  (eq_str (codec_of d) "attachment" = false ->
     FFattachmentStream_init (PDict d) =
       Raise (FFprobeStreamSubclassError "FFattachmentStream" (codec_of d) "attachment")) /\
  (eq_str (codec_of d) "subtitle" = false ->
     FFsubtitleStream_init (PDict d) =
       Raise (FFprobeStreamSubclassError "FFsubtitleStream" (codec_of d) "subtitle")) /\
  (unrecognised d -> hashable (codec_of d) = true ->
     exists s, _construct_ffstream_subclass (PDict d) = Ok (Generic s) /\
               parsed_json s = d) /\
  (unrecognised d -> str_or_none (codec_of d) = true ->
     exists s, _construct_ffstream_subclass (PDict d) = Ok (Generic s) /\
               parsed_json s = d).
Proof.
  destruct (FFstream_init_dict d) as (s & Hs & Hj & Hc).
  assert (Hgen : unrecognised d -> hashable (codec_of d) = true ->
            exists s, _construct_ffstream_subclass (PDict d) = Ok (Generic s) /\
                      parsed_json s = d).
  { intros Hu Hh. exists s. split; [|exact Hj].
    unfold _construct_ffstream_subclass. simpl.
    fold (codec_of d).
    pose proof (known_subclass_unrecognised d Hu Hh) as Hk.
    destruct (codec_of d) eqn:E; try (rewrite Hk; simpl); rewrite Hs; reflexivity. }
  split; [|split; [|split; [|split; [|split]]]].
  - intros H. unfold FFaudioStream_init. rewrite Hs. simpl.
    rewrite require_codec_type_mismatch by (rewrite Hc; exact H).
    rewrite Hc. reflexivity.
  - intros H. unfold FFvideoStream_init. rewrite Hs. simpl.
    rewrite require_codec_type_mismatch by (rewrite Hc; exact H).
    rewrite Hc. reflexivity.
  - intros H. unfold FFattachmentStream_init. rewrite Hs. simpl.
    rewrite require_codec_type_mismatch by (rewrite Hc; exact H).
    rewrite Hc. reflexivity.
  - intros H. unfold FFsubtitleStream_init. rewrite Hs. simpl.
    rewrite require_codec_type_mismatch by (rewrite Hc; exact H).
    rewrite Hc. reflexivity.
  - exact Hgen.
  - intros Hu Hd. apply Hgen; [exact Hu|].
    destruct (codec_of d); try discriminate Hd; reflexivity.
Qed.

(** The audio class on video data, and the dispatch on an unknown and on
    an absent codec type. *)
Lemma C3_stream_construction_witness :
  FFaudioStream_init (PDict [("codec_type", PStr "video")]) =
    Raise (FFprobeStreamSubclassError "FFaudioStream" (PStr "video") "audio") /\
  (exists s, _construct_ffstream_subclass (PDict [("codec_type", PStr "data")]) =
               Ok (Generic s) /\
             parsed_json s = [("codec_type", PStr "data")]) /\
  (exists s, _construct_ffstream_subclass (PDict [("index", PInt 0)]) =
               Ok (Generic s) /\
             parsed_json s = [("index", PInt 0)]).
Proof.
  split; [|split].
  - apply (proj1 (C3_stream_construction [("codec_type", PStr "video")])).
    reflexivity.
  - apply (proj2 (proj2 (proj2 (proj2 (proj2
             (C3_stream_construction [("codec_type", PStr "data")])))))).
    + intros s Hin. unfold codec_of. simpl in *.
      intuition (subst; discriminate).
    + reflexivity.
  - apply (proj2 (proj2 (proj2 (proj2 (proj2
             (C3_stream_construction [("index", PInt 0)])))))).
    + intros s Hin. unfold codec_of. simpl. discriminate.
    + reflexivity.
Defined.

(** ** The prober: exit status and output (C7) *)

(** When the process was started, the result of [probe] is what
    [probe_finish] makes of the output collected. *)
Lemma probe_spawned (w : os_world) (f : string) (t : value) (ov : option string)
    (verify : bool) (cmd : list string) (name : string) (p : process) :
  probe_prepare w f t ov verify = Ok (cmd, name) ->
  popen w cmd = Spawned p ->
  probe w f t ov verify =
    (EvSpawn cmd :: fst (communicate p t),
     c <- snd (communicate p t) ;; probe_finish cmd c).
Proof.
  intros Hp Hs. unfold probe. rewrite Hp, Hs.
  destruct (communicate p t). reflexivity.
Qed.

(** C7, as stated, fails: with an exit status 1 and an output that is not
    JSON, [probe] raises [FFprobeJsonParseError], not
    [FFprobeSubprocessError]. *)
Lemma C7_nonzero_exit_unparsed_output :
  let c := {| loads_fails := None; outs_json := None; errs := "No such file"; returncode := 1 |} in
  returncode c <> 0 /\
  snd (probe (world_of c) "a.mp3" PNone None true) =
    Raise (FFprobeJsonParseError "json.decoder.JSONDecodeError").
Proof. split; [discriminate | reflexivity]. Qed.

(** C7 (amended): when the process was started and [communicate]
    returned, in time or after the kill that follows a timeout: if the
    output parsed as JSON and the exit status is not zero, [probe] raises
    [FFprobeSubprocessError] with the command line, the exit status and
    the text of the error stream; if [json.loads] raised
    [JSONDecodeError] on the output, [probe] raises
    [FFprobeJsonParseError], whatever the exit status; and another
    exception of [json.loads] leaves [probe] as it is, whatever the exit
    status.  The output is parsed before the exit status is looked at. *)
Theorem C7_exit_status_after_parse (w : os_world) (f : string) (t : value)
    (ov : option string) (verify : bool) (cmd : list string) (name : string)
    (p : process) (c : completion)
    (Hprep : probe_prepare w f t ov verify = Ok (cmd, name))
    (Hspawn : popen w cmd = Spawned p)
    (Hcomm : snd (communicate p t) = Ok c) :
  (forall j, loads_fails c = None -> outs_json c = Some j -> returncode c <> 0 ->
     snd (probe w f t ov verify) =
       Raise (FFprobeSubprocessError cmd (returncode c) (errs c))) /\
  (loads_fails c = None -> outs_json c = None ->
     snd (probe w f t ov verify) =
       Raise (FFprobeJsonParseError "json.decoder.JSONDecodeError")) /\
  (forall e, loads_fails c = Some e ->
     snd (probe w f t ov verify) = Raise (raised e)).
Proof.
  rewrite (probe_spawned _ _ _ _ _ _ _ _ Hprep Hspawn). cbn [snd].
  rewrite Hcomm. cbn [bind]. unfold probe_finish. split; [|split].
  - intros j Hl Hj Hrc. rewrite Hl, Hj. cbn [bind].
    destruct (Z.eqb_spec (returncode c) 0) as [E|_]; [contradiction|].
    reflexivity.
  - intros Hl Hj. rewrite Hl, Hj. reflexivity.
  - intros e Hl. rewrite Hl. reflexivity.
Qed.

(** An exit status 1 with an empty JSON object on the output. *)
Lemma C7_exit_status_after_parse_witness :
  let c := {| loads_fails := None; outs_json := Some (PDict []); errs := "a.mp3: Invalid data";
              returncode := 1 |} in
  snd (probe (world_of c) "a.mp3" default_timeout None true) =
    Raise (FFprobeSubprocessError (_SPLIT_COMMAND_LINE ++ ["a.mp3"])%list 1
             "a.mp3: Invalid data").
Proof.
  intros c.
  refine (proj1 (C7_exit_status_after_parse (world_of c) "a.mp3" default_timeout
                   None true (_SPLIT_COMMAND_LINE ++ ["a.mp3"])%list "ffprobe"
                   (process_of c) c _ _ _) (PDict []) _ _ _).
  - reflexivity.
  - reflexivity.
  - reflexivity.
  - reflexivity.
  - reflexivity.
  - simpl. discriminate.
Defined.

(** ** The prober: the timeout argument (C8) *)

(** C8, as stated, fails: [None] is not a positive number, and [probe]
    accepts it (no time limit) and starts the process. *)
Lemma C8_timeout_none_accepted :
  let c := {| loads_fails := None; outs_json := Some (PDict []); errs := ""; returncode := 0 |} in
  positive_number PNone = false /\
  check_communicate_timeout PNone = Ok tt /\
  fst (probe (world_of c) "a.mp3" PNone None true) =
    [EvSpawn (_SPLIT_COMMAND_LINE ++ ["a.mp3"])%list] /\
  exists r, snd (probe (world_of c) "a.mp3" PNone None true) = Ok r.
Proof.
  repeat split. eexists. reflexivity.
Qed.

(** The two checks of the timeout, put together. *)
Lemma check_communicate_timeout_rejects (t : value) :
  t <> PNone ->
  is_int_or_float t = false \/ le_zero t = Ok true ->
  exists problem,
    check_communicate_timeout t =
      Raise (FFprobeInvalidArgumentError "communicate_timeout" problem t).
Proof.
  intros Hnone Hbad. unfold check_communicate_timeout.
  destruct Hbad as [Hb|Hb].
  - destruct t; try contradiction; try discriminate; simpl; eauto.
  - destruct t; try contradiction; try discriminate; simpl in *;
      try (injection Hb as ->); simpl; eauto.
Qed.

(** A number that is not greater than zero is at most zero, except for
    the float that is not a number. *)
Lemma not_positive_le_zero (t : value) :
  is_int_or_float t = true -> t <> PFloat S754_nan ->
  positive_number t = false -> le_zero t = Ok true.
Proof.
  destruct t; simpl; try discriminate; intros _ Hnan H.
  - rewrite H. reflexivity.
  - f_equal. lia.
  - f_equal. destruct f as [s|s| |s m e]; try (destruct s); try reflexivity;
      try discriminate. contradiction.
Qed.

(** C8 (amended): when [communicate_timeout] is not [None] and is not a
    positive number (the float NaN left aside), [probe] raises
    [FFprobeInvalidArgumentError] for ['communicate_timeout'], carrying
    the value, and starts no process; the command override, when given,
    must be an existing file, that check coming first.  [None] is
    accepted and means no time limit. *)
Theorem C8_timeout_rejected (w : os_world) (f : string) (t : value)
    (ov : option string) (verify : bool)
    (Hov : override_ok w ov)
    (Hnone : t <> PNone)
    (Hnan : t <> PFloat S754_nan)
    (Hbad : positive_number t = false) :
  exists problem,
    probe w f t ov verify =
      ([], Raise (FFprobeInvalidArgumentError "communicate_timeout" problem t)).
Proof.
  destruct (check_communicate_timeout_rejects t Hnone) as [problem Hc].
  { destruct (is_int_or_float t) eqn:E; [right|left; reflexivity].
    apply not_positive_le_zero; assumption. }
  exists problem.
  unfold probe, probe_prepare.
  destruct ov as [o|]; simpl in *.
  - rewrite Hov. simpl. rewrite Hc. reflexivity.
  - rewrite Hc. reflexivity.
Qed.

(** The timeouts [0] and ["10"] are refused before any process starts. *)
Lemma C8_timeout_rejected_witness :
  let c := {| loads_fails := None; outs_json := Some (PDict []); errs := ""; returncode := 0 |} in
  (exists problem,
     probe (world_of c) "a.mp3" (PInt 0) None true =
       ([], Raise (FFprobeInvalidArgumentError "communicate_timeout" problem (PInt 0)))) /\
  (exists problem,
     probe (world_of c) "a.mp3" (PStr "10") None true =
       ([], Raise (FFprobeInvalidArgumentError "communicate_timeout" problem (PStr "10")))).
Proof.
  intros c. split.
  - apply C8_timeout_rejected; [exact I | discriminate | discriminate | reflexivity].
  - apply C8_timeout_rejected; [exact I | discriminate | discriminate | reflexivity].
Defined.

(** A float that is not a number passes both comparisons of the check,
    so the process is started.  What [communicate] makes of such a
    timeout is the library's affair: where it raises [ValueError], as in
    [nan_world], the exception leaves [probe], and the process is not
    killed. *)
Remark check_communicate_timeout_nan :
  check_communicate_timeout (PFloat S754_nan) = Ok tt /\
  probe nan_world "a.mp3" (PFloat S754_nan) None true =
    ([EvSpawn (_SPLIT_COMMAND_LINE ++ ["a.mp3"])%list], Raise ValueError).
Proof. split; reflexivity. Qed.

(** ** Metadata normalisation (C2) *)

Lemma mapM_Forall2 {A B} (f : A -> result B) (l : list A) (l' : list B) :
  mapM f l = Ok l' -> Forall2 (fun x y => f x = Ok y) l l'.
Proof.
  revert l'. induction l as [|x r IH]; simpl; intros l' H.
  - injection H as <-. constructor.
  - destruct (f x) as [y|e] eqn:Ex; simpl in H; [|discriminate].
    destruct (mapM f r) as [ys|e] eqn:Er; simpl in H; [|discriminate].
    injection H as <-. constructor; auto.
Qed.

Lemma mapM_Forall {A B} (f : A -> result B) (P : B -> Prop) (l : list A)
    (l' : list B) :
  (forall x y, f x = Ok y -> P y) -> mapM f l = Ok l' -> Forall P l'.
Proof.
  intros HP H. apply mapM_Forall2 in H.
  induction H; constructor; eauto.
Qed.

Lemma FFstream_init_inv (pj : value) (s : FFstream) :
  FFstream_init pj = Ok s ->
  exists d, pj = PDict d /\ parsed_json s = d /\ codec_type s = codec_of d.
Proof.
  intros H. destruct pj; try discriminate.
  destruct (FFstream_init_dict d) as (s0 & H0 & Hj & Hc).
  rewrite H0 in H. injection H as <-. eauto.
Qed.

Lemma require_codec_type_inv (cls required : string) (s : FFstream) (u : unit) :
  require_codec_type cls required s = Ok u -> codec_type s = PStr required.
Proof.
  unfold require_codec_type, eq_str.
  destruct (codec_type s); simpl; try discriminate.
  destruct (String.eqb_spec s0 required); simpl; [congruence | discriminate].
Qed.

Ltac split_bind H :=
  match type of H with
  | bind ?m _ = Ok _ =>
      let E := fresh "E" in
      destruct m eqn:E; simpl in H; [|discriminate]
  end.

Lemma FFaudioStream_init_inv (pj : value) (a : FFaudioStream) :
  FFaudioStream_init pj = Ok a -> codec_type (audio_base a) = PStr "audio".
Proof.
  unfold FFaudioStream_init. intros H.
  repeat split_bind H. injection H as <-. simpl.
  eapply require_codec_type_inv; eauto.
Qed.

Lemma FFvideoStream_init_inv (pj : value) (v : FFvideoStream) :
  FFvideoStream_init pj = Ok v -> codec_type (video_base v) = PStr "video".
Proof.
  unfold FFvideoStream_init. intros H.
  repeat split_bind H. injection H as <-. simpl.
  eapply require_codec_type_inv; eauto.
Qed.

Lemma FFattachmentStream_init_inv (pj : value) (s : FFstream) :
  FFattachmentStream_init pj = Ok s -> codec_type s = PStr "attachment".
Proof.
  unfold FFattachmentStream_init. intros H.
  repeat split_bind H. injection H as <-.
  eapply require_codec_type_inv; eauto.
Qed.

Lemma FFsubtitleStream_init_inv (pj : value) (s : FFstream) :
  FFsubtitleStream_init pj = Ok s -> codec_type s = PStr "subtitle".
Proof.
  unfold FFsubtitleStream_init. intros H.
  repeat split_bind H. injection H as <-.
  eapply require_codec_type_inv; eauto.
Qed.

Lemma construct_class_agrees (pj : value) (s : stream) :
  _construct_ffstream_subclass pj = Ok s -> class_agrees s.
Proof.
  unfold _construct_ffstream_subclass. intros H.
  destruct pj; simpl in H; try discriminate.
  fold (codec_of d) in H.
  assert (Hgen : forall s0, FFstream_init (PDict d) = Ok s0 ->
                   eq_str (codec_of d) "audio" = false ->
                   class_agrees (Generic s0)).
  { intros s0 H0 Hn. apply FFstream_init_inv in H0 as (d' & Hd & _ & Hc).
    injection Hd as <-. simpl. unfold is_audio. rewrite Hc. exact Hn. }
  destruct (codec_of d) eqn:E; cbn [bind known_subclass hashable] in H;
    try (destruct (forallb hashable l); cbn [bind] in H);
    try discriminate;
    try (split_bind H; injection H as <-; apply Hgen; [reflexivity|reflexivity]).
  repeat match type of H with
  | context [(?a =? ?b)%string] => destruct (String.eqb_spec a b) as [->|]
  end; cbn [bind] in H.
  - split_bind H. injection H as <-. simpl. unfold is_audio.
    apply FFattachmentStream_init_inv in E0. rewrite E0. reflexivity.
  - split_bind H. injection H as <-. simpl. unfold is_audio.
    apply FFaudioStream_init_inv in E0. rewrite E0. reflexivity.
  - split_bind H. injection H as <-. simpl. unfold is_audio.
    apply FFsubtitleStream_init_inv in E0. rewrite E0. reflexivity.
  - split_bind H. injection H as <-. simpl. unfold is_audio.
    apply FFvideoStream_init_inv in E0. rewrite E0. reflexivity.
  - split_bind H. injection H as <-. apply Hgen; [reflexivity|].
    simpl. destruct (String.eqb_spec s0 "audio"); [contradiction|reflexivity].
Qed.

Lemma FFprobe_init_streams (cmd : list string) (pj : value) (md : FFprobe) :
  FFprobe_init cmd pj = Ok md -> Forall class_agrees (streams md).
Proof.
  unfold FFprobe_init. intros H.
  destruct (List.length cmd <? 2)%nat; [discriminate|].
  repeat split_bind H. injection H as <-. simpl.
  eapply mapM_Forall; [|eassumption].
  intros x y. apply construct_class_agrees.
Qed.

Lemma probe_ok_inv (w : os_world) (f : string) (t : value) (ov : option string)
    (verify : bool) (md : FFprobe) :
  snd (probe w f t ov verify) = Ok md ->
  exists cmd pj, FFprobe_init cmd pj = Ok md.
Proof.
  unfold probe. intros H.
  destruct (probe_prepare w f t ov verify) as [[cmd name]|e]; [|discriminate].
  destruct (popen w cmd); try discriminate.
  destruct (communicate p t) as [evs [c|e]]; simpl in H; [|discriminate].
  unfold probe_finish in H.
  destruct (loads_fails c); simpl in H; [discriminate|].
  destruct (outs_json c); simpl in H; [|discriminate].
  destruct (returncode c =? 0); simpl in H; [|discriminate].
  eauto.
Qed.

Lemma tag_or_tag (tags : value) (key : string) (default : value) :
  tag_or tags key default = tag tags key default.
Proof.
  unfold tag_or, tag, try_or, subscript_str, dict_get.
  destruct tags; try reflexivity. simpl.
  destruct (assoc key d); reflexivity.
Qed.

Lemma dict_getitem_str (d : dict) (k : string) :
  dict_getitem d (PStr k) =
    match assoc k d with Some v => Ok v | None => Raise KeyError end.
Proof. reflexivity. Qed.

Lemma scan_streams_find (l : list stream) (path : string) :
  Forall class_agrees l ->
  scan_streams l path =
    match find (fun s => is_audio (base s)) l with
    | None => None
    | Some s =>
        match assoc "tags" (parsed_json (base s)) with
        | None => None
        | Some tags => Some (metadata_of_tags tags path)
        end
    end.
Proof.
  induction 1 as [|s r Hs Hr IH]; [reflexivity|].
  cbn [scan_streams find].
  destruct s; cbn [as_FFaudioStream base class_agrees] in *; rewrite Hs;
    try exact IH.
  rewrite dict_getitem_str. cbn [base].
  destruct (assoc "tags" (parsed_json (audio_base a))); [|reflexivity].
  unfold metadata_of_tags. rewrite !tag_or_tag. reflexivity.
Qed.

(** C2: when the probe of the file succeeds, [GetTrackMetaData] looks at
    the first stream whose codec type is ["audio"].  Without such a
    stream it returns [None]; when that stream has no ["tags"] entry it
    returns [None]; otherwise it returns the record whose artist,
    album artist, title and year are the tags [ARTIST], [album_artist],
    [TITLE] and [DATE], each the empty string when absent, whose ISRC is
    the tag [ISRC], or ["error"] when absent, and whose path is the
    path of the file. *)
Theorem C2_GetTrackMetaData (w : os_world) (song_file_path : string) (md : FFprobe)
    (Hprobe : snd (probe_default w song_file_path) = Ok md) :
  GetTrackMetaData w song_file_path =
    match find (fun s => is_audio (base s)) (streams md) with
    | None => None
    | Some s =>
        match assoc "tags" (parsed_json (base s)) with
        | None => None
        | Some tags =>
            Some {| Artist := tag tags "ARTIST" (PStr "");
                    AlbumArtist := tag tags "album_artist" (PStr "");
                    Title := tag tags "TITLE" (PStr "");
                    Year := tag tags "DATE" (PStr "");
                    ISRC := tag tags "ISRC" (PStr "error");
                    FilePath := song_file_path |}
        end
    end.
Proof.
  unfold GetTrackMetaData. rewrite Hprobe.
  apply probe_ok_inv in Hprobe as (cmd & pj & Hinit).
  apply scan_streams_find. eapply FFprobe_init_streams; eassumption.
Qed.

(** The record of a file whose audio stream has a title and a date only. *)
Lemma C2_GetTrackMetaData_witness :
  GetTrackMetaData sample_world "a.mp3" =
    Some {| Artist := PStr ""; AlbumArtist := PStr ""; Title := PStr "T";
            Year := PStr "2020"; ISRC := PStr "error"; FilePath := "a.mp3" |}.
Proof.
  destruct (snd (probe_default sample_world "a.mp3")) as [md|e] eqn:E;
    [|vm_compute in E; discriminate].
  rewrite (C2_GetTrackMetaData sample_world "a.mp3" md E).
  vm_compute in E. injection E as <-. reflexivity.
Defined.

(** A failed probe gives [None], whatever the exception. *)
Lemma GetTrackMetaData_probe_fails (w : os_world) (song_file_path : string) (e : exn) :
  snd (probe_default w song_file_path) = Raise e ->
  GetTrackMetaData w song_file_path = None.
Proof. unfold GetTrackMetaData. intros ->. reflexivity. Qed.

(** ** The search template (C10) *)

Lemma fill_search_template (artist title year : value) (song : ISRCMetadata) :
  fill_search_payload (search_template artist title year) song =
    (payload_for song, Ok tt).
Proof. reflexivity. Qed.

Lemma DoesExplicitVersionExist_template (artist title year : value)
    (catalog : value -> http_reply) (song : ISRCMetadata) :
  fst (DoesExplicitVersionExist (search_template artist title year) catalog song) =
    payload_for song.
Proof.
  unfold DoesExplicitVersionExist. rewrite fill_search_template. reflexivity.
Qed.

Lemma payload_after_template (calls : list ((value -> http_reply) * ISRCMetadata))
    (artist title year : value) :
  exists a t y,
    payload_after (search_template artist title year) calls = search_template a t y.
Proof.
  revert artist title year.
  induction calls as [|[catalog song] rest IH]; intros artist title year;
    cbn [payload_after].
  - eauto.
  - rewrite DoesExplicitVersionExist_template. apply IH.
Qed.

(** C10: after any sequence of earlier calls, a call of
    [DoesExplicitVersionExist] leaves in the shared template the values
    of the song at [recordingArtistName.value], [recordingTitle.value]
    and [recordingYear], every other entry being the one of the template
    before the call (which is the initial one); so the content serialised
    for the request, and with it the serialised text and the answer
    used, are those of the song alone. *)
Theorem C10_search_payload (calls : list ((value -> http_reply) * ISRCMetadata))
    (catalog : value -> http_reply) (song : ISRCMetadata) :
  let before := payload_after search_payload_initial calls in
  let after := fst (DoesExplicitVersionExist before catalog song) in
  (exists a t y, before = search_template a t y) /\
  after = search_template (recordingArtistName song) (recordingTitle song)
                          (recordingYear song) /\
  (forall dumps : value -> string, dumps after = dumps (payload_for song)) /\
  snd (DoesExplicitVersionExist before catalog song) =
    match catalog (payload_for song) with
    | NoResponse => Raise ConnectionError
    | Response None => Ok false
    | Response (Some dump) => any_explicit dump
    end.
Proof.
  intros before after.
  destruct (payload_after_template calls (PStr "") (PStr "") (PStr ""))
    as (a & t & y & Hb).
  change (search_template (PStr "") (PStr "") (PStr ""))
    with search_payload_initial in Hb.
  fold before in Hb.
  assert (Ha : after = payload_for song).
  { unfold after. rewrite Hb. apply DoesExplicitVersionExist_template. }
  split; [eauto|]. split; [exact Ha|]. split; [intros; rewrite Ha; reflexivity|].
  rewrite Hb. unfold DoesExplicitVersionExist. rewrite fill_search_template.
  reflexivity.
Qed.

(** ** The loop and the store (C1) *)

Lemma spec_float_eqb_eq (a b : spec_float) : spec_float_eqb a b = true -> a = b.
Proof.
  destruct a, b; simpl; try discriminate; try reflexivity.
  - intros H. apply Bool.eqb_prop in H. congruence.
  - intros H. apply Bool.eqb_prop in H. congruence.
  - intros H. apply andb_prop in H as [H He]. apply andb_prop in H as [Hs Hm].
    apply Bool.eqb_prop in Hs. apply Pos.eqb_eq in Hm. apply Z.eqb_eq in He.
    congruence.
Qed.

Lemma sql_eq_eq (a b : sql_value) : sql_eq a b = true -> a = b.
Proof.
  destruct a, b; simpl; try discriminate.
  - intros H. apply Z.eqb_eq in H. congruence.
  - intros H. apply spec_float_eqb_eq in H. congruence.
  - intros H. apply String.eqb_eq in H. congruence.
Qed.

Lemma spec_float_eqb_refl (a : spec_float) : spec_float_eqb a a = true.
Proof.
  destruct a; simpl; try reflexivity; try apply Bool.eqb_reflx.
  rewrite Bool.eqb_reflx, Pos.eqb_refl, Z.eqb_refl. reflexivity.
Qed.

Lemma sql_eq_refl (k : sql_value) : k <> SqlNull -> sql_eq k k = true.
Proof.
  destruct k; simpl; intros H.
  - contradiction.
  - apply Z.eqb_refl.
  - apply spec_float_eqb_refl.
  - apply String.eqb_refl.
Qed.

(** The query of the loop finds rows exactly when the table contains a
    row with the ISRC asked for. *)
Lemma sql_eq_same (a k : sql_value) : sql_eq a k = true <-> same_isrc a k.
Proof.
  split.
  - intros H. split; [apply sql_eq_eq; exact H|].
    intros ->. discriminate H.
  - intros [-> Hn]. apply sql_eq_refl. exact Hn.
Qed.

Lemma select_isrc_rows (db : list row) (k : sql_value) :
  select_isrc db k <> [] <-> has_row_for db k.
Proof.
  unfold select_isrc, has_row_for. split.
  - intros H. destruct (filter _ db) as [|r rs] eqn:E; [contradiction|].
    assert (Hin : In r (filter (fun r => sql_eq (row_isrc r) k) db))
      by (rewrite E; left; reflexivity).
    apply filter_In in Hin as [Hin Heq]. exists r. split; [exact Hin|].
    apply sql_eq_same. exact Heq.
  - intros (r & Hin & Hs) E.
    assert (Hf : In r (filter (fun r => sql_eq (row_isrc r) k) db)).
    { apply filter_In. split; [exact Hin|]. apply sql_eq_same. exact Hs. }
    rewrite E in Hf. exact Hf.
Qed.

Lemma select_isrc_none (db : list row) (k : sql_value) :
  select_isrc db k = [] <-> ~ has_row_for db k.
Proof.
  rewrite <- select_isrc_rows. split; [intros -> H; apply H; reflexivity|].
  intros H. destruct (select_isrc db k); [reflexivity|].
  exfalso. apply H. discriminate.
Qed.

(** A row added at the end keeps the invariant when the table had no row
    with its ISRC. *)
Lemma insert_absent_keeps_invariant (db : list row) (r : row) :
  one_row_per_isrc db ->
  ~ has_row_for db (row_isrc r) ->
  one_row_per_isrc (insert_row db r).
Proof.
  unfold one_row_per_isrc, insert_row. intros Hinv Habs.
  induction Hinv as [|x l Hx Hl IH]; cbn [app].
  - constructor; constructor.
  - constructor.
    + apply Forall_app. split; [exact Hx|].
      constructor; [|constructor].
      intros Hs. apply Habs. exists x. split; [left; reflexivity|exact Hs].
    + apply IH. intros (y & Hy & Hs). apply Habs.
      exists y. split; [right; exact Hy|exact Hs].
Qed.

Lemma mapM_bind_params_head (v : value) (vs : list value) (r : row) :
  mapM bind_param (v :: vs) = Ok r -> bind_param v = Ok (row_isrc r).
Proof.
  cbn [mapM]. intros H. repeat split_bind H. injection H as <-. reflexivity.
Qed.

(** What one turn of the loop does to the table: nothing, or the insertion
    of one row whose ISRC had no row. *)
Lemma loop_body_db (sleep_ms : Z) (st : state) (song : string) (io : file_io) :
  db (fst (loop_body sleep_ms st song io)) = db st \/
  exists r, db (fst (loop_body sleep_ms st song io)) = insert_row (db st) r /\
            select_isrc (db st) (row_isrc r) = [].
Proof.
  unfold loop_body.
  destruct (GetTrackMetaData (os io) song) as [data|]; [|left; reflexivity].
  destruct (bind_param (ISRC data)) as [k|e] eqn:Ek; [|left; reflexivity].
  destruct (select_isrc (db st) k) as [|x xs] eqn:Es;
    cbn [List.length Nat.eqb negb]; [|left; reflexivity].
  destruct (GetISRCMetadata (isrc_catalog io (ISRC data)) data) as [[md|]|e];
    try (left; reflexivity).
  destruct (resolve_explicit (search_payload st) (search_catalog io) md)
    as [payload [b|e]]; [|left; reflexivity].
  destruct (mapM bind_param (insert_params data md b)) as [r|e] eqn:Er;
    [|left; reflexivity].
  right. exists r.
  apply mapM_bind_params_head in Er. rewrite Ek in Er. injection Er as <-.
  split; [|exact Es].
  destruct (sleep_ms <? 0); reflexivity.
Qed.

Lemma loop_body_invariant (sleep_ms : Z) (st : state) (song : string) (io : file_io) :
  one_row_per_isrc (db st) ->
  one_row_per_isrc (db (fst (loop_body sleep_ms st song io))).
Proof.
  intros Hinv.
  destruct (loop_body_db sleep_ms st song io) as [->|(r & -> & Habs)];
    [exact Hinv|].
  apply insert_absent_keeps_invariant; [exact Hinv|].
  apply select_isrc_none. exact Habs.
Qed.

Lemma main_loop_invariant (sleep_ms : Z) (songs : list (string * file_io))
    (st : state) :
  one_row_per_isrc (db st) ->
  one_row_per_isrc (db (fst (main_loop sleep_ms st songs))).
Proof.
  revert st. induction songs as [|[song io] rest IH]; intros st Hinv;
    cbn [main_loop]; [exact Hinv|].
  pose proof (loop_body_invariant sleep_ms st song io Hinv) as H1.
  destruct (loop_body sleep_ms st song io) as [st' [u|e]]; simpl in *.
  - apply IH. exact H1.
  - exact H1.
Qed.

(** C1: in one turn of the loop over a file whose metadata gave the ISRC
    [k] (the value bound to the query).  When the table contains a row
    whose ISRC is [k], the turn changes nothing and goes on to the next
    file.  When it contains none, the catalog lookup gave a record, the
    explicit-version decision was reached and the values of the row were
    accepted by the store, the table afterwards is the table before with
    exactly one more row, whose ISRC is [k].  Hence every turn, and the
    whole loop, keep the invariant that no two rows of the table hold the
    same ISRC.  That the table contains a row with an ISRC, and that two
    rows hold the same one, is said of the rows themselves, not of what
    the query of the loop returns. *)
Theorem C1_check_then_insert (sleep_ms : Z) (st : state) (song : string)
    (io : file_io) (data : SongMetadata) (k : sql_value)
    (Hdata : GetTrackMetaData (os io) song = Some data)
    (Hkey : bind_param (ISRC data) = Ok k) :
  (has_row_for (db st) k ->
     loop_body sleep_ms st song io = (st, Ok tt)) /\
  (forall md payload b r,
     ~ has_row_for (db st) k ->
     GetISRCMetadata (isrc_catalog io (ISRC data)) data = Ok (Some md) ->
     resolve_explicit (search_payload st) (search_catalog io) md = (payload, Ok b) ->
     mapM bind_param (insert_params data md b) = Ok r ->
     db (fst (loop_body sleep_ms st song io)) = (db st ++ [r])%list /\
     row_isrc r = k) /\
  (one_row_per_isrc (db st) ->
     one_row_per_isrc (db (fst (loop_body sleep_ms st song io)))) /\
  (forall rest,
     one_row_per_isrc (db st) ->
     one_row_per_isrc (db (fst (main_loop sleep_ms st ((song, io) :: rest))))).
Proof.
  split; [|split; [|split]].
  - intros Hrows. apply select_isrc_rows in Hrows.
    unfold loop_body. rewrite Hdata, Hkey.
    destruct (select_isrc (db st) k); [contradiction|reflexivity].
  - intros md payload b r Hrows Hmd Hex Hr. apply select_isrc_none in Hrows.
    assert (Hdb : db (fst (loop_body sleep_ms st song io)) = insert_row (db st) r).
    { unfold loop_body. rewrite Hdata, Hkey, Hrows.
      cbn [List.length Nat.eqb negb].
      rewrite Hmd, Hex, Hr. destruct (sleep_ms <? 0); reflexivity. }
    pose proof (mapM_bind_params_head _ _ _ Hr) as Hhd.
    cbn [insert_params] in Hhd. rewrite Hkey in Hhd. injection Hhd as Hhd.
    split; [exact Hdb|congruence].
  - apply loop_body_invariant.
  - intros rest. apply main_loop_invariant.
Qed.

(** A file of ISRC ["X1"]: skipped when the table has the row, inserted
    once when it has not, also when the file comes twice. *)
Lemma C1_check_then_insert_witness :
  has_row_for (db x1_state) (SqlText "X1") /\
  loop_body 1000 x1_state "a.mp3" found_io = (x1_state, Ok tt) /\
  ~ has_row_for (db empty_state) (SqlText "X1") /\
  db (fst (loop_body 1000 empty_state "a.mp3" found_io)) = [x1_row] /\
  List.length (db (fst (main_loop 1000 empty_state
                          [("a.mp3", found_io); ("b.mp3", found_io)]))) = 1%nat /\
  one_row_per_isrc
    (db (fst (main_loop 1000 empty_state
                [("a.mp3", found_io); ("b.mp3", found_io)]))).
Proof.
  assert (Hdata : GetTrackMetaData (os found_io) "a.mp3" = Some tagged_data)
    by reflexivity.
  assert (Hkey : bind_param (ISRC tagged_data) = Ok (SqlText "X1"))
    by reflexivity.
  assert (Hrow : has_row_for (db x1_state) (SqlText "X1")).
  { exists x1_row. split; [left; reflexivity|].
    split; [reflexivity|discriminate]. }
  assert (Hnone : ~ has_row_for (db empty_state) (SqlText "X1"))
    by (intros (r & [] & _)).
  split; [exact Hrow|]. split; [|split; [exact Hnone|split; [|split]]].
  - apply (proj1 (C1_check_then_insert 1000 x1_state "a.mp3" found_io
                    tagged_data (SqlText "X1") Hdata Hkey)).
    exact Hrow.
  - refine (proj1 (proj1 (proj2 (C1_check_then_insert 1000 empty_state "a.mp3"
                     found_io tagged_data (SqlText "X1") Hdata Hkey))
                     _ search_payload_initial true x1_row Hnone _ _ _));
      reflexivity.
  - reflexivity.
  - apply (proj2 (proj2 (proj2 (C1_check_then_insert 1000 empty_state "a.mp3"
                     found_io tagged_data (SqlText "X1") Hdata Hkey)))).
    constructor.
Defined.

(** ** A catalog answer without ["recordings"] (C9) *)

(** The two failures that [GetISRCMetadata] handles: it returns [None]. *)
Lemma GetISRCMetadata_unparseable (song : SongMetadata) :
  GetISRCMetadata (Response None) song = Ok None.
Proof. reflexivity. Qed.

Lemma GetISRCMetadata_no_match (d : dict) (song : SongMetadata) :
  assoc "recordings" d = Some (PList []) ->
  GetISRCMetadata (Response (Some (PDict d))) song = Ok None.
Proof.
  intros H. unfold GetISRCMetadata, subscript_str. rewrite dict_getitem_str, H.
  reflexivity.
Qed.

(** A turn that ends with [continue] or at the end of the body lets the
    loop go on; an exception ends the loop with the state of that turn. *)
Lemma main_loop_continue (sleep_ms : Z) (st st' : state) (song : string)
    (io : file_io) (rest : list (string * file_io)) (u : unit) :
  loop_body sleep_ms st song io = (st', Ok u) ->
  main_loop sleep_ms st ((song, io) :: rest) = main_loop sleep_ms st' rest.
Proof. intros H. cbn [main_loop]. rewrite H. reflexivity. Qed.

Lemma main_loop_abort (sleep_ms : Z) (st st' : state) (song : string)
    (io : file_io) (rest : list (string * file_io)) (e : exn) :
  loop_body sleep_ms st song io = (st', Raise e) ->
  main_loop sleep_ms st ((song, io) :: rest) = (st', Raise e).
Proof. intros H. cbn [main_loop]. rewrite H. reflexivity. Qed.

(** C9: when the answer to the ISRC lookup parses to an object without
    the key ["recordings"], [GetISRCMetadata] raises [KeyError] (it does
    not return [None] as for an answer that does not parse or has an
    empty list); in the loop, for a file that reaches the lookup, the
    exception ends the loop: the files that follow are not processed and
    the state is the one before the file, whereas an answer that does not
    parse only skips the file. *)
Theorem C9_missing_recordings_key (sleep_ms : Z) (st : state) (song : string)
    (io : file_io) (rest : list (string * file_io)) (data : SongMetadata)
    (k : sql_value) (d : dict)
    (Hdata : GetTrackMetaData (os io) song = Some data)
    (Hkey : bind_param (ISRC data) = Ok k)
    (Hrows : select_isrc (db st) k = []) :
  (assoc "recordings" d = None ->
     GetISRCMetadata (Response (Some (PDict d))) data = Raise KeyError) /\
  (assoc "recordings" d = None ->
     isrc_catalog io (ISRC data) = Response (Some (PDict d)) ->
     main_loop sleep_ms st ((song, io) :: rest) = (st, Raise KeyError)) /\
  (isrc_catalog io (ISRC data) = Response None ->
     main_loop sleep_ms st ((song, io) :: rest) = main_loop sleep_ms st rest).
Proof.
  assert (Hget : assoc "recordings" d = None ->
            GetISRCMetadata (Response (Some (PDict d))) data = Raise KeyError).
  { intros H. unfold GetISRCMetadata, subscript_str.
    rewrite dict_getitem_str, H. reflexivity. }
  split; [exact Hget|]. split.
  - intros Hd Hreply. apply main_loop_abort.
    unfold loop_body. rewrite Hdata, Hkey, Hrows. cbn [List.length Nat.eqb negb].
    rewrite Hreply, (Hget Hd). reflexivity.
  - intros Hreply. apply main_loop_continue with (u := tt).
    unfold loop_body. rewrite Hdata, Hkey, Hrows. cbn [List.length Nat.eqb negb].
    rewrite Hreply. reflexivity.
Qed.

(** An answer [{"error": ...}] ends the loop before the second file; an
    answer that does not parse lets the second file be processed. *)
Lemma C9_missing_recordings_key_witness :
  let bad := tagged_io (Response (Some (PDict [("error", PStr "rate limited")]))) in
  GetISRCMetadata (Response (Some (PDict [("error", PStr "rate limited")])))
    tagged_data = Raise KeyError /\
  main_loop 1000 empty_state [("a.mp3", bad); ("b.mp3", found_io)] =
    (empty_state, Raise KeyError) /\
  db (fst (main_loop 1000 empty_state
             [("a.mp3", tagged_io (Response None)); ("b.mp3", found_io)])) =
    [[SqlText "X1"; SqlText "T"; SqlText ""; SqlText "A"; SqlText "2020";
      SqlText "True"; SqlText ""; SqlText "180"; SqlText "True"; SqlText "True";
      SqlText "b.mp3"]].
Proof.
  intros bad.
  assert (Hdata : forall r, GetTrackMetaData (os (tagged_io r)) "a.mp3" = Some tagged_data)
    by reflexivity.
  assert (Hkey : bind_param (ISRC tagged_data) = Ok (SqlText "X1"))
    by reflexivity.
  split; [|split].
  - apply (proj1 (C9_missing_recordings_key 1000 empty_state "a.mp3" bad []
                    tagged_data (SqlText "X1") [("error", PStr "rate limited")]
                    (Hdata _) Hkey eq_refl)).
    reflexivity.
  - apply (proj1 (proj2 (C9_missing_recordings_key 1000 empty_state "a.mp3" bad
                    [("b.mp3", found_io)]
                    tagged_data (SqlText "X1") [("error", PStr "rate limited")]
                    (Hdata _) Hkey eq_refl))); reflexivity.
  - rewrite (proj2 (proj2 (C9_missing_recordings_key 1000 empty_state "a.mp3"
                    (tagged_io (Response None)) [("b.mp3", found_io)]
                    tagged_data (SqlText "X1") []
                    (Hdata _) Hkey eq_refl)) eq_refl).
    reflexivity.
Defined.

(** ** The accessors never raise (C6) *)

Lemma try_except_defaulting (body : result value) :
  defaulting body (fun default => try_except body (fun _ => Ok default)).
Proof.
  intros default. split; [apply try_except_total|].
  split; [apply try_except_raises | apply try_except_ok].
Qed.

(** The failures of the look-up and of the conversions. *)
Lemma dict_getitem_missing (self : dict) (k : string) :
  assoc k self = None -> raises (dict_getitem self (PStr k)).
Proof. intros H. exists KeyError. rewrite dict_getitem_str, H. reflexivity. Qed.

Lemma dict_getitem_not_str (self : dict) (key : value) :
  (forall k, key <> PStr k) -> raises (dict_getitem self key).
Proof.
  intros H. unfold dict_getitem.
  destruct key; try (destruct (hashable _); eexists; reflexivity);
    try (eexists; reflexivity).
  exfalso. eapply H. reflexivity.
Qed.

Lemma bind_raises {A B} (m : result A) (k : A -> result B) :
  raises m -> raises (bind m k).
Proof. intros [e ->]. exists e. reflexivity. Qed.

Lemma bind_ok_raises {A B} (m : result A) (k : A -> result B) (a : A) :
  m = Ok a -> raises (k a) -> raises (bind m k).
Proof. intros -> H. exact H. Qed.

Section Accessors.

Variable str_format : string -> value -> result value.

(** C6: each of the eight accessors returns a value for every mapping,
    key and default, and never an exception: the default when anything in
    its body raises (a missing key, a key that cannot be looked up, a
    value of the wrong type or shape, a failed conversion or operation),
    the value computed otherwise.  A missing key, in particular, gives the
    default. *)
Theorem C6_accessors_never_raise (self : dict) (video : FFvideoStream)
    (key : value) (suffix : string) (use_base_10 : bool) :
  defaulting (ParsedJson.get_as_float_body self key)
             (ParsedJson.get_as_float self key) /\
  defaulting (ParsedJson.get_as_int_body self key)
             (ParsedJson.get_as_int self key) /\
  defaulting (ParsedJson.get_datasize_as_human_body self key suffix use_base_10)
             (fun default =>
                ParsedJson.get_datasize_as_human self key default suffix use_base_10) /\
  defaulting (ParsedJson.get_duration_as_human_body self)
             (ParsedJson.get_duration_as_human self) /\
  defaulting (get_frame_rate_as_ratio_body video key)
             (get_frame_rate_as_ratio video key) /\
  (forall default,
     (exists r, get_frame_rate_as_float video key default = Ok r) /\
     (raises (get_frame_rate_as_float_body video key default) ->
      get_frame_rate_as_float video key default = Ok default)) /\
  defaulting (get_frame_shape_body str_format video)
             (get_frame_shape str_format video) /\
  defaulting (get_frame_rotation_body video) (get_frame_rotation video) /\
  (raises (dict_getitem self key) ->
   forall default,
     ParsedJson.get_as_float self key default = Ok default /\
     ParsedJson.get_as_int self key default = Ok default /\
     ParsedJson.get_datasize_as_human self key default suffix use_base_10 =
       Ok default) /\
  (raises (dict_getitem (parsed_json (video_base video)) key) ->
   forall default,
     get_frame_rate_as_ratio video key default = Ok default /\
     get_frame_rate_as_float video key default = Ok default).
Proof.
  do 5 (split; [exact (try_except_defaulting _)|]).
  split.
  { intros default.
    split; [exact (try_except_total _ _) | exact (try_except_raises _ _)]. }
  do 2 (split; [exact (try_except_defaulting _)|]).
  split.
  - intros Hk default. repeat split; apply try_except_raises;
      apply bind_raises; exact Hk.
  - intros Hk default.
    assert (Hr : get_frame_rate_as_ratio video key PNone = Ok PNone).
    { apply try_except_raises. apply bind_raises. exact Hk. }
    split.
    + apply try_except_raises. apply bind_raises. exact Hk.
    + apply try_except_raises. unfold get_frame_rate_as_float_body.
      rewrite Hr. exists TypeError. reflexivity.
Qed.

End Accessors.

(** A missing key, a text that is no number, a null duration, a key that
    is a list. *)
Lemma C6_accessors_never_raise_witness :
  let self := [("size", PStr "big"); ("duration", PNone)] in
  ParsedJson.get_as_float self (PStr "bit_rate") (PStr "n/a") = Ok (PStr "n/a") /\
  ParsedJson.get_as_int self (PStr "size") (PInt 0) = Ok (PInt 0) /\
  ParsedJson.get_duration_as_human self PNone = Ok PNone /\
  ParsedJson.get_datasize_as_human self (PList []) PNone "B" true = Ok PNone.
Proof.
  intros self.
  pose proof (C6_accessors_never_raise (fun _ _ => Raise TypeError) self
                {| video_base := {| parsed_json := []; index := PNone;
                                    codec_type := PStr "video"; codec_name := PNone;
                                    codec_long_name := PNone; duration_secs := PNone |};
                   width := PNone; height := PNone; avg_frame_rate := PNone;
                   r_frame_rate := PNone; video_num_frames := PNone;
                   video_bit_rate_bps := PNone; video_bit_rate_kbps := PNone;
                   side_data_list := PNone |}) as H.
  split; [|split; [|split]].
  - destruct (H (PStr "bit_rate") "B" true) as (_ & _ & _ & _ & _ & _ & _ & _ & Hk & _).
    apply Hk. apply dict_getitem_missing. reflexivity.
  - destruct (H (PStr "size") "B" true) as (_ & Hi & _).
    apply (proj1 (proj2 (Hi (PInt 0)))). exists ValueError. reflexivity.
  - destruct (H (PStr "size") "B" true) as (_ & _ & _ & Hd & _).
    apply (proj1 (proj2 (Hd PNone))). exists TypeError. reflexivity.
  - destruct (H (PList []) "B" true) as (_ & _ & _ & _ & _ & _ & _ & _ & Hk & _).
    apply Hk. exists TypeError. reflexivity.
Defined.

(** ** Frame rates (C5) *)

Lemma is_digit_not (c x : ascii) :
  Text.is_digit x = false -> Text.is_digit c = true -> (c =? x)%char = false.
Proof.
  intros Hx Hc. destruct (Ascii.eqb_spec c x) as [->|]; [congruence|reflexivity].
Qed.

Lemma span_digits_app (ds rest : list ascii) :
  all_digits ds -> starts_with_digit rest = false ->
  FrameRate.span_digits (ds ++ rest)%list = (ds, rest).
Proof.
  intros Hd Hr. induction Hd as [|c r Hc Hd IH]; simpl.
  - destruct rest as [|x xs]; [reflexivity|]. simpl in *. rewrite Hr. reflexivity.
  - rewrite Hc, IH. reflexivity.
Qed.

Lemma span_digits_inv (l ds rest : list ascii) :
  FrameRate.span_digits l = (ds, rest) ->
  l = (ds ++ rest)%list /\ all_digits ds /\ starts_with_digit rest = false.
Proof.
  revert ds rest. induction l as [|c r IH]; simpl; intros ds rest H.
  - injection H as <- <-. repeat split. constructor.
  - destruct (Text.is_digit c) eqn:Hc.
    + destruct (FrameRate.span_digits r) as [ds' rest'] eqn:E.
      injection H as <- <-. destruct (IH ds' rest' eq_refl) as (-> & Hd & Hr).
      repeat split; [constructor; assumption | assumption].
    + injection H as <- <-. repeat split; [constructor | simpl; exact Hc].
Qed.

Lemma read_int_token_app (neg : bool) (ds rest : list ascii) :
  ds <> [] -> all_digits ds -> starts_with_digit rest = false ->
  FrameRate.read_int_token (int_token neg ds ++ rest)%list =
    Some (int_token neg ds, rest).
Proof.
  intros Hne Hd Hr. unfold FrameRate.read_int_token, int_token.
  destruct neg; simpl.
  - rewrite span_digits_app by assumption.
    destruct ds; [contradiction|]. reflexivity.
  - destruct ds as [|c r]; [contradiction|]. simpl.
    inversion Hd as [|? ? Hc Hd']; subst.
    rewrite (is_digit_not c "-" eq_refl Hc), Hc.
    rewrite span_digits_app by assumption. reflexivity.
Qed.

Lemma read_int_token_inv (l tok rest : list ascii) :
  FrameRate.read_int_token l = Some (tok, rest) ->
  exists neg ds,
    tok = int_token neg ds /\ ds <> [] /\ all_digits ds /\
    l = (tok ++ rest)%list /\ starts_with_digit rest = false.
Proof.
  unfold FrameRate.read_int_token, FrameRate.nonempty_digits.
  destruct l as [|c r]; [discriminate|].
  destruct (Ascii.eqb_spec c "-") as [->|Hc].
  - destruct (FrameRate.span_digits r) as [ds rest'] eqn:E. simpl.
    destruct ds as [|d ds]; [discriminate|]. intros H. injection H as <- <-.
    apply span_digits_inv in E as (-> & Hd & Hr).
    exists true, (d :: ds). repeat split; try assumption. discriminate.
  - destruct (FrameRate.span_digits (c :: r)) as [ds rest'] eqn:E. simpl.
    destruct ds as [|d ds]; [discriminate|]. intros H. injection H as <- <-.
    apply span_digits_inv in E as (E & Hd & Hr).
    exists false, (d :: ds). repeat split; try assumption. discriminate.
Qed.

Lemma re_match_exact (sn : bool) (dn : list ascii) (sd : bool) (dd : list ascii) :
  dn <> [] -> dd <> [] -> all_digits dn -> all_digits dd ->
  FrameRate.re_match (string_of_list_ascii (ratio_text sn dn sd dd)) =
    Some (string_of_list_ascii (int_token sn dn),
          string_of_list_ascii (int_token sd dd)).
Proof.
  intros Hn Hd Han Had. unfold FrameRate.re_match, ratio_text.
  rewrite list_ascii_of_string_of_list_ascii.
  rewrite read_int_token_app by (assumption || reflexivity).
  simpl. rewrite <- (app_nil_r (int_token sd dd)).
  rewrite read_int_token_app by (assumption || reflexivity).
  rewrite app_nil_r. reflexivity.
Qed.

Lemma re_match_inv (s n d : string) :
  FrameRate.re_match s = Some (n, d) ->
  exists sn dn sd dd,
    dn <> [] /\ dd <> [] /\ all_digits dn /\ all_digits dd /\
    n = string_of_list_ascii (int_token sn dn) /\
    d = string_of_list_ascii (int_token sd dd) /\
    (s = string_of_list_ascii (ratio_text sn dn sd dd) \/
     s = string_of_list_ascii (ratio_text sn dn sd dd ++ [FrameRate.newline])%list).
Proof.
  unfold FrameRate.re_match. intros H.
  destruct (FrameRate.read_int_token (list_ascii_of_string s))
    as [[tn rest]|] eqn:E1; [|discriminate].
  destruct rest as [|c rest]; [discriminate|].
  destruct (Ascii.eqb_spec c "/") as [->|]; [|discriminate].
  destruct (FrameRate.read_int_token rest) as [[td tail]|] eqn:E2; [|discriminate].
  apply read_int_token_inv in E1 as (sn & dn & -> & Hn & Han & Hs & _).
  apply read_int_token_inv in E2 as (sd & dd & -> & Hd & Had & -> & _).
  assert (Hs' : s = string_of_list_ascii
                      (int_token sn dn ++ "/"%char :: int_token sd dd ++ tail)%list).
  { rewrite <- Hs. symmetry. apply string_of_list_ascii_of_string. }
  destruct tail as [|c' tail].
  - injection H as <- <-. exists sn, dn, sd, dd. repeat split; try assumption.
    left. rewrite Hs'. unfold ratio_text. rewrite app_nil_r. reflexivity.
  - destruct tail; [|discriminate].
    destruct (Ascii.eqb_spec c' FrameRate.newline) as [->|]; [|discriminate].
    injection H as <- <-. exists sn, dn, sd, dd. repeat split; try assumption.
    right. rewrite Hs'. unfold ratio_text. rewrite <- app_assoc. reflexivity.
Qed.

(** *** The conversions of the two sides *)

Lemma digit_not_space (c : ascii) : Text.is_digit c = true -> Text.is_space c = false.
Proof.
  unfold Text.is_digit, Text.is_space. intros H.
  apply andb_prop in H as [H1 H2]. apply Z.leb_le in H1, H2.
  replace (Text.code c <=? 13) with false by (symmetry; apply Z.leb_gt; lia).
  replace (Text.code c =? 32) with false by (symmetry; apply Z.eqb_neq; lia).
  replace (Text.code c =? 133) with false by (symmetry; apply Z.eqb_neq; lia).
  replace (Text.code c =? 160) with false by (symmetry; apply Z.eqb_neq; lia).
  rewrite andb_false_r. reflexivity.
Qed.

Lemma lstrip_head (c : ascii) (l : list ascii) :
  Text.is_space c = false -> Text.lstrip (c :: l) = c :: l.
Proof. intros H. simpl. rewrite H. reflexivity. Qed.

Lemma strip_int_token (neg : bool) (ds : list ascii) :
  ds <> [] -> all_digits ds ->
  Text.strip (int_token neg ds) = int_token neg ds.
Proof.
  intros Hne Hd. unfold Text.strip.
  assert (H1 : Text.lstrip (int_token neg ds) = int_token neg ds).
  { unfold int_token. destruct neg; [apply lstrip_head; reflexivity|].
    destruct ds as [|c r]; [contradiction|].
    apply lstrip_head, digit_not_space. inversion Hd; assumption. }
  rewrite H1.
  destruct (exists_last Hne) as (ds' & c & ->).
  assert (Hc : Text.is_digit c = true).
  { unfold all_digits in Hd. rewrite Forall_app in Hd. destruct Hd as [_ Hd].
    inversion Hd; assumption. }
  assert (H2 : rev (int_token neg (ds' ++ [c])%list) =
               c :: rev (int_token neg ds')).
  { unfold int_token. destruct neg.
    - change ("-"%char :: (ds' ++ [c])%list) with (("-"%char :: ds') ++ [c])%list.
      apply rev_unit.
    - apply rev_unit. }
  rewrite H2, lstrip_head by (apply digit_not_space; exact Hc).
  rewrite <- H2. apply rev_involutive.
Qed.

Lemma read_sign_int_token (neg : bool) (ds : list ascii) :
  ds <> [] -> all_digits ds ->
  Text.read_sign (int_token neg ds) = (neg, ds).
Proof.
  intros Hne Hd. unfold int_token, Text.read_sign. destruct neg; [reflexivity|].
  destruct ds as [|c r]; [contradiction|]. inversion Hd as [|? ? Hc _]; subst.
  rewrite (is_digit_not c "-" eq_refl Hc), (is_digit_not c "+" eq_refl Hc).
  reflexivity.
Qed.

Lemma digitpart_digits (ds : list ascii) :
  ds <> [] -> all_digits ds -> Text.digitpart ds = Some (ds, []).
Proof.
  intros Hne Hd. induction Hd as [|c r Hc Hd IH]; [contradiction|].
  cbn [Text.digitpart]. rewrite Hc.
  destruct r as [|c' r']; [reflexivity|].
  inversion Hd as [|? ? Hc' _]; subst.
  rewrite (is_digit_not c' "_" eq_refl Hc').
  rewrite IH by discriminate. reflexivity.
Qed.

(** [int] on the text of a group gives the integer written. *)
Lemma int_of_token (neg : bool) (ds : list ascii) :
  ds <> [] -> all_digits ds ->
  int_ (PStr (string_of_list_ascii (int_token neg ds))) =
    if within_limit ds then Ok (token_value neg ds) else Raise ValueError.
Proof.
  intros Hne Hd. unfold int_, Text.int_of_string, within_limit.
  rewrite list_ascii_of_string_of_list_ascii.
  rewrite strip_int_token, read_sign_int_token, digitpart_digits by assumption.
  rewrite Z.leb_antisym.
  destruct (Text.max_str_digits <? Z.of_nat (List.length ds)); reflexivity.
Qed.

(** *** Facts on the rounding of [SpecFloat] *)

Lemma digits2_pos_bounds (p : positive) :
  2 ^ (Z.pos (digits2_pos p) - 1) <= Z.pos p < 2 ^ Z.pos (digits2_pos p).
Proof.
  induction p as [p IH|p IH|]; cbn [digits2_pos].
  - rewrite Pos2Z.inj_succ.
    replace (Z.succ (Z.pos (digits2_pos p)) - 1) with (Z.pos (digits2_pos p)) by lia.
    rewrite Z.pow_succ_r by lia.
    replace (Z.pos (digits2_pos p)) with (Z.succ (Z.pos (digits2_pos p) - 1)) at 1 by lia.
    rewrite Z.pow_succ_r by lia. lia.
  - rewrite Pos2Z.inj_succ.
    replace (Z.succ (Z.pos (digits2_pos p)) - 1) with (Z.pos (digits2_pos p)) by lia.
    rewrite Z.pow_succ_r by lia.
    replace (Z.pos (digits2_pos p)) with (Z.succ (Z.pos (digits2_pos p) - 1)) at 1 by lia.
    rewrite Z.pow_succ_r by lia. lia.
  - simpl. lia.
Qed.

Lemma shr_1_m (mrs : shr_record) :
  0 <= shr_m mrs -> shr_m (shr_1 mrs) = shr_m mrs / 2.
Proof.
  destruct mrs as [m r s]. simpl. intros Hm.
  destruct m as [|p|p]; [reflexivity| |lia].
  destruct p as [p|p|]; simpl.
  - apply Z.div_unique with 1; lia.
  - apply Z.div_unique with 0; lia.
  - reflexivity.
Qed.

Lemma iter_pos_shr_1 (n : positive) :
  forall mrs, 0 <= shr_m mrs ->
    shr_m (iter_pos shr_1 n mrs) = shr_m mrs / 2 ^ Z.pos n.
Proof.
  induction n as [n IH|n IH|]; intros mrs Hm; cbn [iter_pos].
  - assert (H1 : 0 <= shr_m (shr_1 mrs)).
    { rewrite shr_1_m by assumption. apply Z.div_pos; lia. }
    assert (H2 : 0 <= shr_m (iter_pos shr_1 n (shr_1 mrs))).
    { rewrite IH by assumption. apply Z.div_pos; [assumption|]. apply Z.pow_pos_nonneg; lia. }
    rewrite IH, IH, shr_1_m by assumption.
    rewrite !Z.div_div by (try apply Z.pow_pos_nonneg; lia).
    f_equal. rewrite Pos2Z.inj_xI.
    replace (2 * Z.pos n + 1) with (1 + Z.pos n + Z.pos n) by lia.
    rewrite !Z.pow_add_r by lia. change (2 ^ 1) with 2. ring.
  - assert (H2 : 0 <= shr_m (iter_pos shr_1 n mrs)).
    { rewrite IH by assumption. apply Z.div_pos; [assumption|]. apply Z.pow_pos_nonneg; lia. }
    rewrite IH, IH by assumption.
    rewrite !Z.div_div by (try apply Z.pow_pos_nonneg; lia).
    f_equal. rewrite Pos2Z.inj_xO. rewrite <- Z.pow_add_r by lia. f_equal. lia.
  - rewrite shr_1_m by assumption. reflexivity.
Qed.

Lemma shr_m_of_loc (m : Z) (l : location) : shr_m (shr_record_of_loc m l) = m.
Proof. destruct l as [|[| |]]; reflexivity. Qed.

Lemma Zdigits2_pos (m : Z) : 0 < m -> 1 <= Zdigits2 m /\ 2 ^ (Zdigits2 m - 1) <= m.
Proof.
  destruct m as [|p|p]; try lia. intros _. cbn [Zdigits2].
  pose proof (digits2_pos_bounds p) as [H _]. split; [lia | exact H].
Qed.

Lemma shr_fexp_pos (m e : Z) (l : location) :
  0 < m -> emin64 <= e ->
  0 < shr_m (fst (shr_fexp F64.prec F64.emax m e l)) /\
  emin64 <= snd (shr_fexp F64.prec F64.emax m e l).
Proof.
  intros Hm He. unfold shr_fexp, shr.
  destruct (Zdigits2_pos m Hm) as [Hd Hb].
  assert (Hn : fexp F64.prec F64.emax (Zdigits2 m + e) - e <= Zdigits2 m - 1).
  { unfold fexp, emin64, emin, F64.prec, F64.emax in *. lia. }
  destruct (fexp F64.prec F64.emax (Zdigits2 m + e) - e) as [|n|n] eqn:E; simpl;
    rewrite ?shr_m_of_loc; try (split; lia).
  rewrite iter_pos_shr_1 by (rewrite shr_m_of_loc; lia).
  rewrite shr_m_of_loc. split; [|lia].
  apply Z.div_str_pos. split; [apply Z.pow_pos_nonneg; lia|].
  apply Z.le_trans with (2 ^ (Zdigits2 m - 1)); [|exact Hb].
  apply Z.pow_le_mono_r; lia.
Qed.

Lemma round_nearest_even_ge (m : Z) (l : location) : m <= round_nearest_even m l.
Proof.
  destruct l as [|[| |]]; simpl; try lia. destruct (Z.even m); lia.
Qed.

Lemma binary_round_aux_nonzero (s : bool) (m e : Z) (l : location) :
  0 < m -> emin64 <= e ->
  F64.is_zero (binary_round_aux F64.prec F64.emax s m e l) = false.
Proof.
  intros Hm He. unfold binary_round_aux.
  destruct (shr_fexp_pos m e l Hm He) as [H1 H2].
  destruct (shr_fexp F64.prec F64.emax m e l) as [mrs' e']. simpl in H1, H2.
  pose proof (round_nearest_even_ge (shr_m mrs') (loc_of_shr_record mrs')) as Hr.
  destruct (shr_fexp_pos (round_nearest_even (shr_m mrs') (loc_of_shr_record mrs'))
              e' loc_Exact ltac:(lia) H2) as [H3 _].
  destruct (shr_fexp F64.prec F64.emax
              (round_nearest_even (shr_m mrs') (loc_of_shr_record mrs')) e' loc_Exact)
    as [mrs'' e'']. simpl in H3.
  destruct (shr_m mrs''); try lia.
  - destruct (e'' <=? F64.emax - F64.prec); reflexivity.
Qed.

(** The float of a positive integer is not zero. *)
Lemma of_Z_pos_nonzero (d : Z) : 0 < d -> F64.is_zero (F64.of_Z d) = false.
Proof.
  destruct d as [|p|p]; try lia. intros _.
  unfold F64.of_Z, binary_normalize, binary_round, shl_align.
  assert (Hf : emin64 <= fexp F64.prec F64.emax (Z.pos (digits2_pos p) + 0)).
  { unfold fexp, emin64. lia. }
  destruct (fexp F64.prec F64.emax (Z.pos (digits2_pos p) + 0) - 0) eqn:E;
    apply binary_round_aux_nonzero; try lia; unfold emin64, emin; simpl; lia.
Qed.

(** *** The two accessors on a frame rate *)

Lemma ratio_of_exact_form (self : FFvideoStream) (key default : value)
    (sn : bool) (dn : list ascii) (sd : bool) (dd : list ascii) :
  dn <> [] -> dd <> [] -> all_digits dn -> all_digits dd ->
  dict_getitem (parsed_json (video_base self)) key =
    Ok (PStr (string_of_list_ascii (ratio_text sn dn sd dd))) ->
  get_frame_rate_as_ratio self key default =
    Ok (if within_limit dn && within_limit dd
        then PTuple [PInt (token_value sn dn); PInt (token_value sd dd)]
        else default).
Proof.
  intros Hn Hd Han Had Hval.
  unfold get_frame_rate_as_ratio, get_frame_rate_as_ratio_body.
  rewrite Hval. cbn [bind].
  rewrite re_match_exact by assumption.
  rewrite !int_of_token by assumption.
  destruct (within_limit dn), (within_limit dd); reflexivity.
Qed.

Lemma ratio_of_no_match (self : FFvideoStream) (key default : value) (s : string) :
  dict_getitem (parsed_json (video_base self)) key = Ok (PStr s) ->
  FrameRate.re_match s = None ->
  get_frame_rate_as_ratio self key default = Ok default.
Proof.
  intros Hval Hm.
  unfold get_frame_rate_as_ratio, get_frame_rate_as_ratio_body.
  rewrite Hval. cbn [bind]. rewrite Hm. reflexivity.
Qed.

Lemma no_match_of_other_forms (s : string) :
  ~ exact_form s -> ~ exact_form_newline s -> FrameRate.re_match s = None.
Proof.
  intros H1 H2. destruct (FrameRate.re_match s) as [[n d]|] eqn:E; [|reflexivity].
  apply re_match_inv in E as (sn & dn & sd & dd & Hn & Hd & Han & Had & _ & _ & [E|E]).
  - exfalso. apply H1. exists sn, dn, sd, dd. auto.
  - exfalso. apply H2. exists sn, dn, sd, dd. auto.
Qed.

Lemma float_of_ratio (self : FFvideoStream) (key default : value) (n d : Z) :
  get_frame_rate_as_ratio self key PNone = Ok (PTuple [PInt n; PInt d]) ->
  get_frame_rate_as_float self key default =
    Ok (if (n <=? 0) || (d <=? 0) then default else quotient_or n d default).
Proof.
  intros Hr. unfold get_frame_rate_as_float, get_frame_rate_as_float_body.
  rewrite Hr. cbn [bind unpack2 iterate le_zero].
  destruct (Z.leb_spec n 0) as [Hn|Hn]; cbn [bind orb]; [reflexivity|].
  cbn [le_zero].
  destruct (Z.leb_spec d 0) as [Hd|Hd]; cbn [bind]; [reflexivity|].
  unfold quotient_or, float_.
  destruct (F64.of_int n) as [fn|e]; [|reflexivity].
  destruct (F64.of_int d) as [fd|e] eqn:Ed; [|reflexivity].
  cbn [bind try_except].
  assert (Hz : F64.is_zero fd = false).
  { unfold F64.of_int in Ed. destruct (F64.is_inf (F64.of_Z d)); [discriminate|].
    injection Ed as <-. apply of_Z_pos_nonzero. exact Hd. }
  rewrite Hz. reflexivity.
Qed.

Lemma all_digits_forallb (l : list ascii) :
  forallb Text.is_digit l = true -> all_digits l.
Proof. intros H. apply Forall_forall. apply forallb_forall. exact H. Qed.

(** C5, as stated, fails for the float accessor: on a string of the exact
    form whose numerator is too large for a float (here 1 followed by 400
    zeros, over 1), both sides being positive, it returns the default and
    not the quotient. *)
Lemma C5_float_of_huge_numerator :
  exact_form huge_ratio /\
  exists v, video_with [("r_frame_rate", PStr huge_ratio)] = Ok v /\
            get_frame_rate_as_ratio v (PStr "r_frame_rate") PNone =
              Ok (PTuple [PInt (10 ^ 400); PInt 1]) /\
            get_frame_rate_as_float v (PStr "r_frame_rate") PNone = Ok PNone.
Proof.
  split.
  - exists false, (list_ascii_of_string (String "1" (Text.repeat_char "0" 400))),
      false, ["1"%char].
    split; [discriminate|]. split; [discriminate|].
    split; [apply all_digits_forallb; vm_compute; reflexivity|].
    split; [apply all_digits_forallb; reflexivity|].
    vm_compute. reflexivity.
  - eexists. split; [vm_compute; reflexivity|].
    split; vm_compute; reflexivity.
Qed.

(** C5 (amended): for a frame-rate field holding the string [s].  When [s]
    has the exact form integer/integer and neither side has more digits
    than [int] accepts, the ratio accessor returns the pair of the two
    integers as written, not reduced; the float accessor returns the
    default when either side is zero or negative, and otherwise
    [float(n) / float(d)], or the default when [float] overflows on a
    side.  When a side has more digits than [int] accepts, and when [s]
    has neither that form nor that form followed by one line feed, both
    accessors return the default. *)
Theorem C5_frame_rate (self : FFvideoStream) (key default : value) (s : string)
    (Hval : dict_getitem (parsed_json (video_base self)) key = Ok (PStr s)) :
  (forall sn dn sd dd,
     dn <> [] -> dd <> [] -> all_digits dn -> all_digits dd ->
     s = string_of_list_ascii (ratio_text sn dn sd dd) ->
     let n := token_value sn dn in
     let d := token_value sd dd in
     (within_limit dn = true -> within_limit dd = true ->
      get_frame_rate_as_ratio self key default = Ok (PTuple [PInt n; PInt d]) /\
      (n <= 0 \/ d <= 0 -> get_frame_rate_as_float self key default = Ok default) /\
      (0 < n -> 0 < d ->
       get_frame_rate_as_float self key default = Ok (quotient_or n d default))) /\
     (within_limit dn = false \/ within_limit dd = false ->
      get_frame_rate_as_ratio self key default = Ok default /\
      get_frame_rate_as_float self key default = Ok default)) /\
  (~ exact_form s -> ~ exact_form_newline s ->
     get_frame_rate_as_ratio self key default = Ok default /\
     get_frame_rate_as_float self key default = Ok default).
Proof.
  split.
  - intros sn dn sd dd Hn Hd Han Had -> n d.
    pose proof (ratio_of_exact_form self key default sn dn sd dd
                  Hn Hd Han Had Hval) as Hr.
    pose proof (ratio_of_exact_form self key PNone sn dn sd dd
                  Hn Hd Han Had Hval) as Hr0.
    split.
    + intros Hln Hld. rewrite Hln, Hld in Hr, Hr0. cbn [andb] in Hr, Hr0.
      split; [exact Hr|].
      pose proof (float_of_ratio self key default n d Hr0) as Hf.
      split.
      * intros Hle. rewrite Hf.
        destruct (Z.leb_spec n 0); [reflexivity|].
        destruct (Z.leb_spec d 0); [reflexivity|]. lia.
      * intros Hpn Hpd. rewrite Hf.
        destruct (Z.leb_spec n 0); [lia|].
        destruct (Z.leb_spec d 0); [lia|]. reflexivity.
    + intros Hl.
      assert (Hb : within_limit dn && within_limit dd = false)
        by (destruct Hl as [-> | ->]; [reflexivity|apply andb_false_r]).
      rewrite Hb in Hr, Hr0. split; [exact Hr|].
      unfold get_frame_rate_as_float, get_frame_rate_as_float_body.
      rewrite Hr0. reflexivity.
  - intros H1 H2. pose proof (no_match_of_other_forms s H1 H2) as Hm.
    split; [apply (ratio_of_no_match self key default s Hval Hm)|].
    unfold get_frame_rate_as_float, get_frame_rate_as_float_body.
    rewrite (ratio_of_no_match self key PNone s Hval Hm). reflexivity.
Qed.

Lemma re_match_exact_newline (sn : bool) (dn : list ascii) (sd : bool)
    (dd : list ascii) :
  dn <> [] -> dd <> [] -> all_digits dn -> all_digits dd ->
  FrameRate.re_match
    (string_of_list_ascii (ratio_text sn dn sd dd ++ [FrameRate.newline])%list) =
    Some (string_of_list_ascii (int_token sn dn),
          string_of_list_ascii (int_token sd dd)).
Proof.
  intros Hn Hd Han Had. unfold FrameRate.re_match, ratio_text.
  rewrite list_ascii_of_string_of_list_ascii, <- app_assoc.
  rewrite read_int_token_app by (assumption || reflexivity).
  cbn [app]. rewrite Ascii.eqb_refl.
  rewrite read_int_token_app by (assumption || reflexivity).
  rewrite Ascii.eqb_refl. reflexivity.
Qed.

Lemma other_forms_of_no_match (s : string) :
  FrameRate.re_match s = None -> ~ exact_form s /\ ~ exact_form_newline s.
Proof.
  intros Hm. split; intros (sn & dn & sd & dd & Hn & Hd & Han & Had & ->).
  - rewrite re_match_exact in Hm by assumption. discriminate.
  - rewrite re_match_exact_newline in Hm by assumption. discriminate.
Qed.

(** ["2997/100"] gives (2997, 100) and 29.97; ["abc"], ["30"] and, for the
    float, ["-1/0"] give the default. *)
Lemma C5_frame_rate_witness :
  exists v,
    video_with sample_video_fields = Ok v /\
    get_frame_rate_as_ratio v (PStr "r_frame_rate") PNone =
      Ok (PTuple [PInt 2997; PInt 100]) /\
    get_frame_rate_as_float v (PStr "r_frame_rate") PNone =
      Ok (PFloat (S754_finite false 8435805052018360 (-48))) /\
    Text.float_of_string "29.97" = Some (S754_finite false 8435805052018360 (-48)) /\
    get_frame_rate_as_ratio v (PStr "a") (PStr "default") = Ok (PStr "default") /\
    get_frame_rate_as_float v (PStr "a") (PStr "default") = Ok (PStr "default") /\
    get_frame_rate_as_ratio v (PStr "b") (PStr "default") = Ok (PStr "default") /\
    get_frame_rate_as_float v (PStr "b") (PStr "default") = Ok (PStr "default") /\
    get_frame_rate_as_float v (PStr "c") (PStr "default") = Ok (PStr "default").
Proof.
  eexists. split; [reflexivity|].
  match goal with |- get_frame_rate_as_ratio ?v _ _ = _ /\ _ => set (video := v) end.
  pose proof (proj1 (proj1 (C5_frame_rate video (PStr "r_frame_rate") PNone
                              "2997/100" eq_refl)
                false (list_ascii_of_string "2997") false (list_ascii_of_string "100")
                ltac:(discriminate) ltac:(discriminate)
                (all_digits_forallb (list_ascii_of_string "2997") eq_refl)
                (all_digits_forallb (list_ascii_of_string "100") eq_refl) eq_refl)
                eq_refl eq_refl)
    as (Hr & _ & Hf).
  split; [exact Hr|].
  split; [exact (Hf eq_refl eq_refl)|].
  split; [reflexivity|].
  destruct (other_forms_of_no_match "abc" eq_refl) as [Ha1 Ha2].
  destruct (proj2 (C5_frame_rate video (PStr "a") (PStr "default") "abc" eq_refl)
              Ha1 Ha2) as [Har Haf].
  destruct (other_forms_of_no_match "30" eq_refl) as [Hb1 Hb2].
  destruct (proj2 (C5_frame_rate video (PStr "b") (PStr "default") "30" eq_refl)
              Hb1 Hb2) as [Hbr Hbf].
  pose proof (proj1 (proj1 (C5_frame_rate video (PStr "c") (PStr "default")
                              "-1/0" eq_refl)
                true (list_ascii_of_string "1") false (list_ascii_of_string "0")
                ltac:(discriminate) ltac:(discriminate)
                (all_digits_forallb (list_ascii_of_string "1") eq_refl)
                (all_digits_forallb (list_ascii_of_string "0") eq_refl) eq_refl)
                eq_refl eq_refl)
    as (_ & Hc & _).
  split; [exact Har|]. split; [exact Haf|].
  split; [exact Hbr|]. split; [exact Hbf|].
  apply Hc. left. vm_compute. discriminate.
Defined.

(** One digit more than [int] accepts: the string has the exact form and
    both accessors return the default. *)
Remark frame_rate_over_digit_limit :
  exact_form long_ratio /\
  exists v, video_with [("r_frame_rate", PStr long_ratio)] = Ok v /\
            get_frame_rate_as_ratio v (PStr "r_frame_rate") (PStr "default") =
              Ok (PStr "default") /\
            get_frame_rate_as_float v (PStr "r_frame_rate") (PStr "default") =
              Ok (PStr "default").
Proof.
  split.
  - exists false, (list_ascii_of_string (Text.repeat_char "7" 4301)), false,
      ["1"%char].
    split; [discriminate|]. split; [discriminate|].
    split; [apply all_digits_forallb; vm_compute; reflexivity|].
    split; [apply all_digits_forallb; reflexivity|].
    vm_compute. reflexivity.
  - eexists. split; [vm_compute; reflexivity|].
    split; vm_compute; reflexivity.
Qed.

(** A string of the exact form ends with a digit. *)
Lemma exact_form_ends_with_digit (s : string) :
  exact_form s -> Text.is_digit (last (list_ascii_of_string s) "0"%char) = true.
Proof.
  intros (sn & dn & sd & dd & _ & Hd & _ & Had & ->).
  rewrite list_ascii_of_string_of_list_ascii. unfold ratio_text.
  destruct (exists_last Hd) as (dd' & c & ->).
  assert (Hc : Text.is_digit c = true).
  { unfold all_digits in Had. rewrite Forall_app in Had. destruct Had as [_ Had].
    inversion Had; assumption. }
  replace (int_token sn dn ++ "/"%char :: int_token sd (dd' ++ [c]))%list
    with ((int_token sn dn ++ "/"%char :: int_token sd dd') ++ [c])%list.
  - rewrite last_last. exact Hc.
  - rewrite <- app_assoc. unfold int_token. destruct sd; reflexivity.
Qed.

(** The line feed that [$] lets pass: such a string is not of the exact
    form, and the ratio accessor still returns the pair. *)
Remark frame_rate_trailing_newline :
  ~ exact_form ratio_with_newline /\
  exists v, video_with [("r_frame_rate", PStr ratio_with_newline)] = Ok v /\
            get_frame_rate_as_ratio v (PStr "r_frame_rate") PNone =
              Ok (PTuple [PInt 30; PInt 1]).
Proof.
  split.
  - intros H. apply exact_form_ends_with_digit in H. vm_compute in H. discriminate.
  - eexists. split; reflexivity.
Qed.

(** ** Data sizes (C4) *)

Lemma divisions_le (n : nat) (num d : spec_float) : (divisions n num d <= n)%nat.
Proof.
  revert num. induction n as [|n IH]; intros num; simpl; [lia|].
  destruct (F64.ltb (F64.abs num) d); [lia|]. specialize (IH (F64.div num d)). lia.
Qed.

Lemma divisions_below (n : nat) (num d : spec_float) :
  (divisions n num d < n)%nat -> below (divided num d (divisions n num d)) d = true.
Proof.
  revert num. induction n as [|n IH]; intros num; simpl; [lia|].
  destruct (F64.ltb (F64.abs num) d) eqn:E; simpl; [intros _; exact E|].
  intros H. apply IH. lia.
Qed.

Lemma divisions_least (n : nat) (num d : spec_float) (j : nat) :
  (j < divisions n num d)%nat -> below (divided num d j) d = false.
Proof.
  revert num j. induction n as [|n IH]; intros num j; simpl; [lia|].
  destruct (F64.ltb (F64.abs num) d) eqn:E; [lia|].
  destruct j as [|j]; simpl; [intros _; exact E|].
  intros H. apply IH. lia.
Qed.

Lemma string_app_assoc (a b c : string) :
  ((a ++ b) ++ c)%string = (a ++ (b ++ c))%string.
Proof. induction a as [|x a IH]; simpl; [reflexivity|]. rewrite IH. reflexivity. Qed.

Lemma datasize_loop_steps (units : list string) (done : list string)
    (num d : spec_float) (use_base_10 : bool) (suffix : string) :
  (done ++ units)%list = ParsedJson.unit_prefixes ->
  let k := divisions (List.length units) num d in
  ParsedJson.datasize_loop units num d use_base_10 suffix =
    datasize_text use_base_10 suffix (List.length done + k) (divided num d k).
Proof.
  revert done num. induction units as [|unit rest IH]; intros done num Hsplit k.
  - subst k. simpl. rewrite app_nil_r in Hsplit. subst done.
    unfold datasize_text. simpl. destruct use_base_10; reflexivity.
  - subst k. cbn [List.length divisions ParsedJson.datasize_loop].
    destruct (F64.ltb (F64.abs num) d) eqn:E.
    + cbn [divided]. rewrite Nat.add_0_r. unfold datasize_text, prefix_of.
      assert (Hlen : (List.length done < 8)%nat).
      { apply (f_equal (@List.length string)) in Hsplit.
        rewrite length_app in Hsplit. simpl in Hsplit. lia. }
      assert (Hnth : nth (List.length done) (ParsedJson.unit_prefixes ++ ["Y"])%list "Y"
                     = unit).
      { rewrite <- Hsplit, <- app_assoc. rewrite app_nth2 by lia.
        rewrite Nat.sub_diag. reflexivity. }
      rewrite Hnth. apply Nat.ltb_lt in Hlen. rewrite Hlen.
      destruct (negb (unit =? "")%string && negb use_base_10);
        rewrite ?string_app_assoc; reflexivity.
    + rewrite (IH (done ++ [unit])%list) by (rewrite <- app_assoc; exact Hsplit).
      rewrite length_app. cbn [List.length divided].
      f_equal. lia.
Qed.

(** *** Dividing a number that is not below the divisor *)

Lemma Zdigits2_unique (m k : Z) :
  2 ^ (k - 1) <= m < 2 ^ k -> 1 <= k -> Zdigits2 m = k.
Proof.
  intros [Hlo Hhi] Hk.
  assert (Hm : 0 < m).
  { apply Z.lt_le_trans with (2 ^ (k - 1)); [apply Z.pow_pos_nonneg; lia | exact Hlo]. }
  destruct m as [|p|p]; try lia. cbn [Zdigits2].
  pose proof (digits2_pos_bounds p) as [Blo Bhi].
  destruct (Z.lt_trichotomy (Z.pos (digits2_pos p)) k) as [H|[H|H]]; [|exact H|].
  - exfalso.
    assert (2 ^ Z.pos (digits2_pos p) <= 2 ^ (k - 1)) by (apply Z.pow_le_mono_r; lia).
    lia.
  - exfalso.
    assert (2 ^ k <= 2 ^ (Z.pos (digits2_pos p) - 1)) by (apply Z.pow_le_mono_r; lia).
    lia.
Qed.

Lemma Zdigits2_ge (m : Z) : 2 ^ 52 <= m -> 53 <= Zdigits2 m.
Proof.
  intros Hm. destruct m as [|p|p]; try lia. cbn [Zdigits2].
  pose proof (digits2_pos_bounds p) as [_ Bhi].
  destruct (Z.le_gt_cases 53 (Z.pos (digits2_pos p))) as [H|H]; [exact H|].
  exfalso.
  assert (2 ^ Z.pos (digits2_pos p) <= 2 ^ 52) by (apply Z.pow_le_mono_r; lia).
  lia.
Qed.

(** The shift that brings a mantissa of at least 53 bits to 53 bits. *)
Lemma shr_fexp_normal (m e : Z) (l : location) :
  2 ^ 52 <= m -> emin64 <= e ->
  snd (shr_fexp F64.prec F64.emax m e l) = e + (Zdigits2 m - 53) /\
  2 ^ 52 <= shr_m (fst (shr_fexp F64.prec F64.emax m e l)) < 2 ^ 53.
Proof.
  intros Hm He. pose proof (Zdigits2_ge m Hm) as Hd.
  assert (Hpos : 0 < m) by lia.
  destruct m as [|p|p]; try lia.
  pose proof (digits2_pos_bounds p) as [Blo Bhi].
  unfold shr_fexp, shr. cbn [Zdigits2] in *.
  set (dq := Z.pos (digits2_pos p)) in *.
  assert (Hn : fexp F64.prec F64.emax (dq + e) - e = dq - 53).
  { unfold fexp, emin64, emin, F64.prec, F64.emax in *. lia. }
  rewrite Hn.
  destruct (dq - 53) as [|n|n] eqn:E; try lia.
  - cbn [fst snd]. rewrite shr_m_of_loc. split; [lia|].
    replace dq with 53 in * by lia. change (53 - 1) with 52 in Blo. lia.
  - cbn [fst snd]. rewrite iter_pos_shr_1 by (rewrite shr_m_of_loc; lia).
    rewrite shr_m_of_loc. split; [lia|].
    assert (Hp : 0 < 2 ^ Z.pos n) by (apply Z.pow_pos_nonneg; lia).
    split.
    + apply Z.div_le_lower_bound; [exact Hp|].
      rewrite <- Z.pow_add_r by lia.
      replace (Z.pos n + 52) with (dq - 1) by lia. exact Blo.
    + apply Z.div_lt_upper_bound; [exact Hp|].
      rewrite <- Z.pow_add_r by lia.
      replace (Z.pos n + 53) with dq by lia. exact Bhi.
Qed.

Lemma round_nearest_even_le (m : Z) (l : location) : round_nearest_even m l <= m + 1.
Proof.
  destruct l as [|[| |]]; simpl; try lia. destruct (Z.even m); lia.
Qed.

(** Rounding a mantissa of at least 53 bits gives a normal number, or an
    infinity, whose exponent is not smaller than the exponent after the
    first shift. *)
Lemma binary_round_aux_normal (s : bool) (m e : Z) (l : location) :
  2 ^ 52 <= m -> emin64 <= e ->
  (exists m2 e2,
     binary_round_aux F64.prec F64.emax s m e l = S754_finite s m2 e2 /\
     2 ^ 52 <= Z.pos m2 < 2 ^ 53 /\
     e + (Zdigits2 m - 53) <= e2 /\ e2 <= F64.emax - F64.prec) \/
  binary_round_aux F64.prec F64.emax s m e l = S754_infinity s.
Proof.
  intros Hm He. unfold binary_round_aux.
  destruct (shr_fexp_normal m e l Hm He) as [He1 Hm1].
  pose proof (Zdigits2_ge m Hm) as Hd.
  destruct (shr_fexp F64.prec F64.emax m e l) as [mrs' e1]. cbn [fst snd] in *.
  set (r1 := round_nearest_even (shr_m mrs') (loc_of_shr_record mrs')).
  assert (Hr1 : 2 ^ 52 <= r1).
  { pose proof (round_nearest_even_ge (shr_m mrs') (loc_of_shr_record mrs')).
    unfold r1. lia. }
  assert (He1' : emin64 <= e1) by lia.
  destruct (shr_fexp_normal r1 e1 loc_Exact Hr1 He1') as [He2 Hm2].
  pose proof (Zdigits2_ge r1 Hr1) as Hd1.
  destruct (shr_fexp F64.prec F64.emax r1 e1 loc_Exact) as [mrs'' e2].
  cbn [fst snd] in *.
  destruct (shr_m mrs'') as [|m2|m2]; try lia.
  destruct (Z.leb_spec e2 (F64.emax - F64.prec)) as [Hle|Hgt];
    [left|right; reflexivity].
  exists m2, e2. repeat split; try lia.
Qed.

(** A normal number of exponent at least -52 has magnitude at least one. *)
Lemma normal_valid (s : bool) (m : positive) (e : Z) :
  2 ^ 52 <= Z.pos m < 2 ^ 53 -> -52 <= e <= F64.emax - F64.prec ->
  valid (S754_finite s m e) = true /\
  F64.leb F64.one (F64.abs (S754_finite s m e)) = true.
Proof.
  intros Hm He. split.
  - unfold valid, valid_binary, bounded, canonical_mantissa.
    assert (Hd : Z.pos (digits2_pos m) = 53).
    { apply (Zdigits2_unique (Z.pos m) 53); [change (53 - 1) with 52|]; lia. }
    rewrite Hd. apply andb_true_intro. split.
    + apply Z.eqb_eq. unfold fexp, emin, F64.prec, F64.emax in *. lia.
    + apply Z.leb_le. lia.
  - unfold F64.leb, SFleb, F64.abs, SFabs, F64.one.
    change (F64.of_Z 1) with (S754_finite false 4503599627370496 (-52)).
    unfold SFcompare.
    destruct (Z.compare_spec (-52) e) as [E|E|E]; try reflexivity; [|lia].
    rewrite Pos.compare_cont_spec. simpl.
    destruct (Pos.compare_spec 4503599627370496 m) as [E'|E'|E']; try reflexivity.
    apply Pos2Z.pos_lt_pos in E'.
    change (2 ^ 52) with (Z.pos 4503599627370496) in Hm. lia.
Qed.

Section Divisor.

(** A divisor: a positive normal number of moderate exponent. *)
Variables (my : positive) (ey : Z).
Hypothesis my_normal : 2 ^ 52 <= Z.pos my < 2 ^ 53.
Hypothesis ey_range : -1000 <= ey <= 900.

Let divisor : spec_float := S754_finite false my ey.

Lemma div_core_not_below (mx : positive) (ex : Z) :
  2 ^ 52 <= Z.pos mx < 2 ^ 53 -> ey <= ex ->
  SFdiv_core_binary F64.prec F64.emax (Z.pos mx) ex (Z.pos my) ey =
    (Z.pos mx * 2 ^ 53 / Z.pos my, ex - ey - 53,
     new_location (Z.pos my) (Z.pos mx * 2 ^ 53 mod Z.pos my)).
Proof.
  intros Hmx Hex. unfold SFdiv_core_binary.
  rewrite (Zdigits2_unique (Z.pos mx) 53) by (change (53 - 1) with 52; lia).
  rewrite (Zdigits2_unique (Z.pos my) 53) by (change (53 - 1) with 52; lia).
  assert (He : Z.min (fexp F64.prec F64.emax (53 + ex - (53 + ey))) (ex - ey) =
               ex - ey - 53).
  { unfold fexp, emin, F64.prec, F64.emax. lia. }
  rewrite He.
  replace (ex - ey - (ex - ey - 53)) with 53 by lia.
  rewrite Z.shiftl_mul_pow2 by lia.
  unfold Z.div, Z.modulo.
  destruct (Z.div_eucl (Z.pos mx * 2 ^ 53) (Z.pos my)). reflexivity.
Qed.

(** A finite number that is not below the divisor, divided by it: a
    normal number of exponent at least -52, or an infinity. *)
Lemma div_finite_not_below (s : bool) (mx : positive) (ex : Z) :
  bounded F64.prec F64.emax mx ex = true ->
  F64.ltb (S754_finite false mx ex) divisor = false ->
  (exists m2 e2,
     F64.div (S754_finite s mx ex) divisor = S754_finite s m2 e2 /\
     2 ^ 52 <= Z.pos m2 < 2 ^ 53 /\ -52 <= e2 <= F64.emax - F64.prec) \/
  F64.div (S754_finite s mx ex) divisor = S754_infinity s.
Proof.
  intros Hb Hlt.
  (* the order of the two numbers *)
  assert (Hord : ey < ex \/ (ex = ey /\ Z.pos my <= Z.pos mx)).
  { unfold F64.ltb, SFltb, divisor, SFcompare in Hlt.
    destruct (Z.compare_spec ex ey) as [E|E|E]; try discriminate; [|left; lia].
    right. split; [exact E|].
    rewrite Pos.compare_cont_spec in Hlt. simpl in Hlt.
    destruct (Pos.compare_spec mx my) as [E'|E'|E']; try discriminate;
      [subst; lia | apply Pos2Z.pos_lt_pos in E'; lia]. }
  (* the number is normal *)
  assert (Hmx : 2 ^ 52 <= Z.pos mx < 2 ^ 53).
  { unfold bounded, canonical_mantissa in Hb. apply andb_prop in Hb as [Hc _].
    apply Z.eqb_eq in Hc.
    assert (Hd : Z.pos (digits2_pos mx) = 53).
    { unfold fexp, emin, F64.prec, F64.emax in Hc. lia. }
    pose proof (digits2_pos_bounds mx) as B. rewrite Hd in B.
    change (53 - 1) with 52 in B. exact B. }
  unfold F64.div, SFdiv, divisor.
  rewrite div_core_not_below by (assumption || lia).
  rewrite Bool.xorb_false_r.
  set (q := Z.pos mx * 2 ^ 53 / Z.pos my).
  assert (Hq : 2 ^ 52 <= q).
  { unfold q. apply Z.div_le_lower_bound; [lia|].
    change (2 ^ 53) with (2 * 2 ^ 52). nia. }
  assert (Hq' : Z.pos my <= Z.pos mx -> 2 ^ 53 <= q).
  { intros H. unfold q. apply Z.div_le_lower_bound; [lia|]. nia. }
  assert (Hdq : Z.pos my <= Z.pos mx -> 54 <= Zdigits2 q).
  { intros H. specialize (Hq' H).
    destruct q as [|p|p]; try lia. cbn [Zdigits2].
    pose proof (digits2_pos_bounds p) as [_ Bhi].
    destruct (Z.le_gt_cases 54 (Z.pos (digits2_pos p))) as [G|G]; [exact G|].
    exfalso.
    assert (2 ^ Z.pos (digits2_pos p) <= 2 ^ 53) by (apply Z.pow_le_mono_r; lia).
    lia. }
  pose proof (Zdigits2_ge q Hq) as Hd53.
  assert (He : emin64 <= ex - ey - 53).
  { unfold emin64, emin, F64.prec, F64.emax. lia. }
  destruct (binary_round_aux_normal s q (ex - ey - 53)
              (new_location (Z.pos my) (Z.pos mx * 2 ^ 53 mod Z.pos my)) Hq He)
    as [(m2 & e2 & -> & Hm2 & He2 & He2')| ->]; [left|right; reflexivity].
  exists m2, e2. split; [reflexivity|]. split; [exact Hm2|].
  split; [|exact He2'].
  destruct Hord as [H|[H1 H2]]; [lia|]. specialize (Hdq H2). lia.
Qed.

(** Division of a number that is not below the divisor: the quotient is a
    number again and its magnitude is at least one. *)
Lemma div_not_below (x : spec_float) :
  valid x = true -> F64.is_nan x = false -> below x divisor = false ->
  valid (F64.div x divisor) = true /\
  F64.is_nan (F64.div x divisor) = false /\
  F64.leb F64.one (F64.abs (F64.div x divisor)) = true.
Proof.
  intros Hv Hn Hb. destruct x as [s|s| |s m e]; try discriminate.
  - (* infinity *)
    simpl. destruct s; repeat split.
  - unfold below, F64.abs, SFabs in Hb. unfold valid, valid_binary in Hv.
    destruct (div_finite_not_below s m e Hv Hb) as [(m2 & e2 & -> & Hm2 & He2)| ->].
    + destruct (normal_valid s m2 e2 Hm2 He2) as [H1 H2]. repeat split; assumption.
    + destruct s; repeat split.
Qed.

(** Along the divisions that the loop makes, the number stays a number,
    and from the first division on its magnitude is at least one. *)
Lemma divided_at_least_one (num : spec_float) (k j : nat) :
  valid num = true -> F64.is_nan num = false ->
  (forall i, (i < k)%nat -> below (divided num divisor i) divisor = false) ->
  (j <= k)%nat ->
  valid (divided num divisor j) = true /\
  F64.is_nan (divided num divisor j) = false /\
  ((1 <= j)%nat -> F64.leb F64.one (F64.abs (divided num divisor j)) = true).
Proof.
  revert num k. induction j as [|j IH]; intros num k Hv Hn Hall Hj.
  - simpl. repeat split; try assumption. lia.
  - destruct k as [|k]; [lia|].
    pose proof (Hall O ltac:(lia)) as H0. cbn [divided] in H0.
    destruct (div_not_below num Hv Hn H0) as (Hv' & Hn' & Hone).
    cbn [divided].
    destruct (IH (F64.div num divisor) k Hv' Hn') as (Hv2 & Hn2 & Hone2).
    + intros i Hi. apply (Hall (S i)). lia.
    + lia.
    + repeat split; try assumption. intros _.
      destruct j as [|j]; [exact Hone | apply Hone2; lia].
Qed.

End Divisor.

(** *** The float of an integer *)

Lemma Pos_iter_xO (p d : positive) :
  Z.pos (Pos.iter xO p d) = Z.pos p * 2 ^ Z.pos d.
Proof.
  induction d as [|d IH] using Pos.peano_ind.
  - simpl. lia.
  - rewrite Pos.iter_succ, Pos2Z.inj_xO, IH, Pos2Z.inj_succ, Z.pow_succ_r by lia.
    ring.
Qed.

(** The float of an integer that is not zero is a normal number of
    exponent at least -52, so of magnitude at least one, or an infinity. *)
Lemma round_integer_normal (s : bool) (p : positive) :
  (exists m e,
     binary_round F64.prec F64.emax s p 0 = S754_finite s m e /\
     2 ^ 52 <= Z.pos m < 2 ^ 53 /\ -52 <= e <= F64.emax - F64.prec) \/
  binary_round F64.prec F64.emax s p 0 = S754_infinity s.
Proof.
  unfold binary_round, shl_align.
  pose proof (digits2_pos_bounds p) as [Blo Bhi].
  set (dg := Z.pos (digits2_pos p)) in *.
  assert (Hf : fexp F64.prec F64.emax (dg + 0) - 0 = dg - 53).
  { unfold fexp, emin, F64.prec, F64.emax. lia. }
  rewrite Hf.
  assert (Hfe : fexp F64.prec F64.emax (dg + 0) = dg - 53).
  { unfold fexp, emin, F64.prec, F64.emax. lia. }
  destruct (dg - 53) as [|n|n] eqn:E.
  - assert (Hp : 2 ^ 52 <= Z.pos p).
    { replace dg with 53 in Blo by lia. exact Blo. }
    destruct (binary_round_aux_normal s (Z.pos p) 0 loc_Exact Hp)
      as [(m & e & -> & Hm & He & He')| ->]; [unfold emin64, emin; simpl; lia| |].
    + left. exists m, e. repeat split; try lia.
      pose proof (Zdigits2_ge (Z.pos p) Hp). lia.
    + right. reflexivity.
  - assert (Hp : 2 ^ 52 <= Z.pos p).
    { apply Z.le_trans with (2 ^ (dg - 1)); [|exact Blo].
      apply Z.pow_le_mono_r; lia. }
    destruct (binary_round_aux_normal s (Z.pos p) 0 loc_Exact Hp)
      as [(m & e & -> & Hm & He & He')| ->]; [unfold emin64, emin; simpl; lia| |].
    + left. exists m, e. repeat split; try lia.
      pose proof (Zdigits2_ge (Z.pos p) Hp). lia.
    + right. reflexivity.
  - rewrite Hfe.
    assert (Hmz : 2 ^ 52 <= Z.pos (Pos.iter xO p n) < 2 ^ 53).
    { rewrite Pos_iter_xO.
      replace 52 with ((dg - 1) + Z.pos n) by lia.
      replace 53 with (dg + Z.pos n) by lia.
      rewrite !Z.pow_add_r by lia.
      assert (0 < 2 ^ Z.pos n) by (apply Z.pow_pos_nonneg; lia).
      split; [apply Z.mul_le_mono_nonneg_r; lia | apply Z.mul_lt_mono_pos_r; lia]. }
    destruct (binary_round_aux_normal s (Z.pos (Pos.iter xO p n)) (Z.neg n) loc_Exact
                (proj1 Hmz))
      as [(m & e & -> & Hm & He & He')| ->]; [unfold emin64, emin; simpl; lia| |].
    + left. exists m, e. repeat split; try lia.
      rewrite (Zdigits2_unique (Z.pos (Pos.iter xO p n)) 53) in He
        by (change (53 - 1) with 52; lia).
      lia.
    + right. reflexivity.
Qed.

Lemma of_int_at_least_one (n : Z) (num : spec_float) :
  n <> 0 -> F64.of_int n = Ok num ->
  valid num = true /\ F64.is_nan num = false /\
  F64.leb F64.one (F64.abs num) = true.
Proof.
  intros Hn. unfold F64.of_int, F64.of_Z, binary_normalize.
  destruct n as [|p|p]; [contradiction| |].
  - destruct (round_integer_normal false p) as [(m & e & -> & Hm & He)| ->];
      [|discriminate].
    simpl. intros H. injection H as <-.
    destruct (normal_valid false m e Hm He). repeat split; assumption.
  - destruct (round_integer_normal true p) as [(m & e & -> & Hm & He)| ->];
      [|discriminate].
    simpl. intros H. injection H as <-.
    destruct (normal_valid true m e Hm He). repeat split; assumption.
Qed.

(** C4, as stated, fails at the bottom of the scale: the size 0 is
    printed ["0.0 B"], and the number printed is not in the interval from
    1 to 1000. *)
Lemma C4_zero_below_unit_range :
  ParsedJson.get_datasize_as_human [("size", PInt 0)] (PStr "size") PNone "B" true =
    Ok (PStr "0.0 B") /\
  float_ (PInt 0) = Ok F64.zero /\
  in_unit_range (divided F64.zero (F64.of_Z 1000)
                   (divisions 8 F64.zero (F64.of_Z 1000)))
                (F64.of_Z 1000) = false.
Proof. repeat split. Qed.

(** C4 (amended): for a value under the key that [float] converts to
    [num], the formatter divides [num] by the divisor (1000.0, or 1024.0
    in base 2) until the magnitude is below the divisor, eight times at
    most, and returns the number reached printed with one decimal, a
    space, the prefix for the number [k] of divisions (none, k, M, G, T,
    P, E, Z, Y, followed by i in base 2 when there is one) and the suffix.
    [k] is the least number of divisions that brings the magnitude below
    the divisor, so the number reached is below the divisor unless eight
    divisions did not suffice (prefix Y), and it is [num] itself, of
    whatever magnitude below the divisor, when no division is needed.
    For a number (not NaN) of magnitude at least 1 that at most seven
    divisions bring below the divisor, so for every such integer other
    than zero, the number reached has its magnitude in the interval from
    1 to the divisor, the divisor left out.  The bounds are on the number
    reached, before it is rounded to one decimal for printing: the text
    can show the divisor itself ([datasize_rounds_to_divisor]). *)
Theorem C4_datasize_as_human (self : dict) (key default : value) (suffix : string)
    (use_base_10 : bool) (v : value) (num : spec_float)
    (Hval : dict_getitem self key = Ok v)
    (Hnum : float_ v = Ok num) :
  let d := ParsedJson.datasize_divisor use_base_10 in
  let k := divisions 8 num d in
  let x := divided num d k in
  ParsedJson.get_datasize_as_human self key default suffix use_base_10 =
    Ok (PStr (datasize_text use_base_10 suffix k x)) /\
  (k <= 8)%nat /\
  ((k < 8)%nat -> below x d = true) /\
  (forall j, (j < k)%nat -> below (divided num d j) d = false) /\
  (below num d = true -> k = O /\ x = num) /\
  (valid num = true -> F64.is_nan num = false ->
   F64.leb F64.one (F64.abs num) = true -> (k < 8)%nat ->
   in_unit_range x d = true) /\
  (forall n, v = PInt n -> n <> 0 -> (k < 8)%nat -> in_unit_range x d = true).
Proof.
  intros d k x.
  assert (Hrange : valid num = true -> F64.is_nan num = false ->
            F64.leb F64.one (F64.abs num) = true -> (k < 8)%nat ->
            in_unit_range x d = true).
  { intros Hv Hn Hone Hk. unfold in_unit_range.
    assert (Hbelow : below x d = true) by (apply divisions_below; exact Hk).
    rewrite Hbelow, andb_true_r.
    assert (Hk0 : k = O \/ (1 <= k)%nat) by lia.
    destruct Hk0 as [Hk0|Hk0]; [unfold x; rewrite Hk0; exact Hone|].
    assert (Hd : exists my ey, d = S754_finite false my ey /\
                   2 ^ 52 <= Z.pos my < 2 ^ 53 /\ -1000 <= ey <= 900).
    { unfold d, ParsedJson.datasize_divisor. destruct use_base_10.
      - exists 8796093022208000%positive, (-43). split; [reflexivity|].
        split; [split; [apply Z.leb_le | apply Z.ltb_lt]; reflexivity | lia].
      - exists 4503599627370496%positive, (-42). split; [reflexivity|].
        split; [split; [apply Z.leb_le | apply Z.ltb_lt]; reflexivity | lia]. }
    destruct Hd as (my & ey & Hd & Hmy & Hey).
    unfold x. rewrite Hd.
    apply (divided_at_least_one my ey Hmy Hey num k k Hv Hn); [|lia|exact Hk0].
    intros i Hi. rewrite <- Hd. apply (divisions_least 8 num d i). exact Hi. }
  split; [|split; [|split; [|split; [|split; [|split]]]]].
  - unfold ParsedJson.get_datasize_as_human, ParsedJson.get_datasize_as_human_body.
    rewrite Hval. cbn [bind]. rewrite Hnum. cbn [bind try_except].
    rewrite (datasize_loop_steps ParsedJson.unit_prefixes [] num
               (ParsedJson.datasize_divisor use_base_10) use_base_10 suffix eq_refl).
    reflexivity.
  - apply divisions_le.
  - apply divisions_below.
  - intros j. apply divisions_least.
  - intros Hb. unfold below in Hb. subst x k. simpl. rewrite Hb. split; reflexivity.
  - exact Hrange.
  - intros n Hv Hn0 Hk. rewrite Hv in Hnum. simpl in Hnum.
    destruct (of_int_at_least_one n num Hn0 Hnum) as (Hvalid & Hnan & Hone).
    apply Hrange; assumption.
Qed.

(** The rounding to one decimal can reach the divisor: 999950 bytes are
    divided once, the number reached is below 1000, and the text is
    ["1000.0 kB"]. *)
Remark datasize_rounds_to_divisor :
  ParsedJson.get_datasize_as_human [("size", PInt 999950)] (PStr "size") PNone
    "B" true = Ok (PStr "1000.0 kB") /\
  divisions 8 (F64.of_Z 999950) (F64.of_Z 1000) = 1%nat /\
  in_unit_range (divided (F64.of_Z 999950) (F64.of_Z 1000) 1) (F64.of_Z 1000) = true.
Proof. repeat split; vm_compute; reflexivity. Qed.

(** 1185288357 bytes: ["1.2 GB"] in base 10 after three divisions,
    ["1.1 GiB"] in base 2. *)
Lemma C4_datasize_as_human_witness :
  ParsedJson.get_datasize_as_human [("size", PInt 1185288357)] (PStr "size") PNone
    "B" true = Ok (PStr "1.2 GB") /\
  ParsedJson.get_datasize_as_human [("size", PStr "1185288357")] (PStr "size") PNone
    "B" true = Ok (PStr "1.2 GB") /\
  ParsedJson.get_datasize_as_human [("size", PStr "1185288357")] (PStr "size") PNone
    "B" false = Ok (PStr "1.1 GiB") /\
  divisions 8 (F64.of_Z 1185288357) (F64.of_Z 1000) = 3%nat /\
  in_unit_range (divided (F64.of_Z 1185288357) (F64.of_Z 1000) 3) (F64.of_Z 1000) = true.
Proof.
  pose proof (C4_datasize_as_human [("size", PInt 1185288357)] (PStr "size") PNone
                "B" true (PInt 1185288357) (F64.of_Z 1185288357) eq_refl eq_refl)
    as (H1 & _).
  pose proof (C4_datasize_as_human [("size", PStr "1185288357")] (PStr "size") PNone
                "B" false (PStr "1185288357") (F64.of_Z 1185288357) eq_refl eq_refl)
    as (H2 & _).
  pose proof (C4_datasize_as_human [("size", PInt 1185288357)] (PStr "size") PNone
                "B" true (PInt 1185288357) (F64.of_Z 1185288357) eq_refl eq_refl)
    as (_ & _ & _ & _ & _ & _ & H3).
  split; [rewrite H1; vm_compute; reflexivity|].
  split; [vm_compute; reflexivity|].
  split; [rewrite H2; vm_compute; reflexivity|].
  split; [vm_compute; reflexivity|].
  apply (H3 1185288357 eq_refl); [discriminate|]. vm_compute. lia.
Defined.

(* ================================================================= *)
(** * Further properties of the sources *)

(** ** The constructors of the probe result *)

Lemma bind_ok_inv {A B} (m : result A) (k : A -> result B) (b : B) :
  bind m k = Ok b -> exists a, m = Ok a /\ k a = Ok b.
Proof. destruct m as [a|e]; [eauto|discriminate]. Qed.

Lemma bind_raise_inv {A B} (m : result A) (k : A -> result B) (e : exn) :
  bind m k = Raise e -> m = Raise e \/ exists a, m = Ok a /\ k a = Raise e.
Proof.
  destruct m as [a|e']; cbn; intros H; [right; eauto|left; congruence].
Qed.

Lemma get_as_int_cases (self : dict) (key : value) :
  ParsedJson.get_as_int self key PNone = Ok PNone \/
  exists n, ParsedJson.get_as_int self key PNone = Ok (PInt n).
Proof.
  unfold ParsedJson.get_as_int, ParsedJson.get_as_int_body.
  destruct (dict_getitem self key) as [v|e]; [|left; reflexivity].
  cbn [bind]. destruct (int_ v) as [n|e]; [right; exists n|left]; reflexivity.
Qed.

Lemma get_as_float_cases (self : dict) (key : value) :
  ParsedJson.get_as_float self key PNone = Ok PNone \/
  exists f, ParsedJson.get_as_float self key PNone = Ok (PFloat f).
Proof.
  unfold ParsedJson.get_as_float, ParsedJson.get_as_float_body.
  destruct (dict_getitem self key) as [v|e]; [|left; reflexivity].
  cbn [bind]. destruct (float_ v) as [n|e]; [right; exists n|left]; reflexivity.
Qed.

Lemma get_duration_as_human_cases (self : dict) :
  ParsedJson.get_duration_as_human self PNone = Ok PNone \/
  exists s, ParsedJson.get_duration_as_human self PNone = Ok (PStr s).
Proof.
  unfold ParsedJson.get_duration_as_human, ParsedJson.get_duration_as_human_body.
  destruct (dict_getitem self (PStr "duration")) as [v|e]; [|left; reflexivity].
  cbn [bind]. destruct (float_ v) as [n|e]; [|left; reflexivity].
  cbn [bind]. cbv zeta.
  destruct (F64.to_int _) as [h|e]; [|left; reflexivity].
  cbn [bind]. destruct (F64.to_int _) as [m|e]; [|left; reflexivity].
  right. eexists. reflexivity.
Qed.

Lemma get_datasize_as_human_cases (self : dict) (key : value) (suffix : string)
    (b : bool) :
  ParsedJson.get_datasize_as_human self key PNone suffix b = Ok PNone \/
  exists s, ParsedJson.get_datasize_as_human self key PNone suffix b = Ok (PStr s).
Proof.
  unfold ParsedJson.get_datasize_as_human, ParsedJson.get_datasize_as_human_body.
  destruct (dict_getitem self key) as [v|e]; [|left; reflexivity].
  cbn [bind]. destruct (float_ v) as [n|e]; [|left; reflexivity].
  right. eexists. reflexivity.
Qed.

Lemma bit_rate_kbps_of_none : ParsedJson.bit_rate_kbps_of PNone = Ok PNone.
Proof. reflexivity. Qed.

Lemma bit_rate_kbps_of_int (n : Z) :
  ParsedJson.bit_rate_kbps_of (PInt n) =
    if F64.is_inf (F64.of_Z n) then Raise OverflowError
    else Ok (PFloat (F64.div (F64.of_Z n) (F64.of_Z 1000))).
Proof.
  unfold ParsedJson.bit_rate_kbps_of, float_, F64.of_int.
  destruct (F64.is_inf (F64.of_Z n)); reflexivity.
Qed.

(** [bit_rate_kbps] computed from what [get_as_int] gave. *)
Lemma bit_rate_kbps_cases (d : dict) :
  exists bps,
    ParsedJson.get_as_int d (PStr "bit_rate") PNone = Ok bps /\
    none_or is_int bps = true /\
    if bit_rate_fits d
    then exists kbps, ParsedJson.bit_rate_kbps_of bps = Ok kbps /\
                      none_or is_float kbps = true /\
                      (kbps = PNone <-> bps = PNone)
    else ParsedJson.bit_rate_kbps_of bps = Raise OverflowError.
Proof.
  unfold bit_rate_fits.
  destruct (get_as_int_cases d (PStr "bit_rate")) as [-> | [n ->]].
  - exists PNone. split; [reflexivity|]. split; [reflexivity|].
    exists PNone. repeat split; reflexivity.
  - exists (PInt n). split; [reflexivity|]. split; [reflexivity|].
    rewrite bit_rate_kbps_of_int.
    destruct (F64.is_inf (F64.of_Z n)); cbn [negb]; [reflexivity|].
    eexists. split; [reflexivity|]. split; [reflexivity|].
    split; discriminate.
Qed.

Lemma get_as_int_typed (self : dict) (key : value) :
  exists r, ParsedJson.get_as_int self key PNone = Ok r /\ none_or is_int r = true.
Proof.
  destruct (get_as_int_cases self key) as [-> | [n ->]]; eexists; split; reflexivity.
Qed.

Lemma get_as_float_typed (self : dict) (key : value) :
  exists r, ParsedJson.get_as_float self key PNone = Ok r /\ none_or is_float r = true.
Proof.
  destruct (get_as_float_cases self key) as [-> | [n ->]]; eexists; split; reflexivity.
Qed.

Lemma get_duration_as_human_typed (self : dict) :
  exists r, ParsedJson.get_duration_as_human self PNone = Ok r /\
            none_or is_str r = true.
Proof.
  destruct (get_duration_as_human_cases self) as [-> | [n ->]];
    eexists; split; reflexivity.
Qed.

Lemma get_datasize_as_human_typed (self : dict) (key : value) (suffix : string)
    (b : bool) :
  exists r, ParsedJson.get_datasize_as_human self key PNone suffix b = Ok r /\
            none_or is_str r = true.
Proof.
  destruct (get_datasize_as_human_cases self key suffix b) as [-> | [n ->]];
    eexists; split; reflexivity.
Qed.

Lemma FFformat_init_cases (d : dict) :
  if bit_rate_fits d
  then exists fmt, FFformat_init (PDict d) = Ok fmt /\ format_json fmt = d /\
                   format_typed fmt
  else FFformat_init (PDict d) = Raise OverflowError.
Proof.
  unfold FFformat_init. cbn [ParsedJson.init bind].
  destruct (get_as_float_typed d (PStr "duration")) as (r1 & -> & T1).
  destruct (get_duration_as_human_typed d) as (r2 & -> & T2).
  destruct (get_as_int_typed d (PStr "nb_streams")) as (r3 & -> & T3).
  destruct (bit_rate_kbps_cases d) as (bps & -> & T4 & Hk).
  destruct (get_as_int_typed d (PStr "size")) as (r5 & E5 & T5).
  destruct (get_datasize_as_human_typed d (PStr "size") "B" true) as (r6 & E6 & T6).
  cbn [bind].
  destruct (bit_rate_fits d).
  - destruct Hk as (kbps & -> & T7 & T8). cbn [bind]. rewrite E5. cbn [bind].
    rewrite E6. cbn [bind].
    eexists. split; [reflexivity|]. split; [reflexivity|].
    repeat split; cbn; try assumption; apply T8.
  - rewrite Hk. reflexivity.
Qed.

Lemma FFstream_init_cases (d : dict) :
  exists s, FFstream_init (PDict d) = Ok s /\ parsed_json s = d /\
            codec_type s = codec_of d /\
            none_or is_float (duration_secs s) = true.
Proof.
  unfold FFstream_init. cbn [ParsedJson.init bind].
  destruct (get_as_float_typed d (PStr "duration")) as (r1 & -> & T1).
  cbn [bind]. eexists. repeat split. exact T1.
Qed.

Lemma require_codec_type_ok (cls required : string) (s : FFstream) :
  codec_type s = PStr required -> require_codec_type cls required s = Ok tt.
Proof.
  intros E. unfold require_codec_type. rewrite E. cbn [eq_str].
  rewrite String.eqb_refl. reflexivity.
Qed.

Lemma FFaudioStream_init_cases (d : dict) :
  codec_of d = PStr "audio" ->
  if bit_rate_fits d
  then exists a, FFaudioStream_init (PDict d) = Ok a /\
                 parsed_json (audio_base a) = d /\
                 codec_type (audio_base a) = codec_of d /\ audio_typed a
  else FFaudioStream_init (PDict d) = Raise OverflowError.
Proof.
  intros Hc. unfold FFaudioStream_init.
  destruct (FFstream_init_cases d) as (s & -> & Hd & Hct & T0). cbn [bind].
  rewrite (require_codec_type_ok "FFaudioStream" "audio" s) by congruence.
  cbn [bind]. cbv zeta. rewrite Hd.
  destruct (get_as_int_typed d (PStr "channels")) as (r1 & -> & T1).
  destruct (get_as_int_typed d (PStr "nb_frames")) as (r2 & -> & T2).
  destruct (get_as_int_typed d (PStr "sample_rate")) as (r3 & -> & T3).
  destruct (bit_rate_kbps_cases d) as (bps & -> & T4 & Hk).
  cbn [bind].
  destruct (bit_rate_fits d).
  - destruct Hk as (kbps & -> & T7 & T8). cbn [bind].
    eexists. split; [reflexivity|]. cbn. split; [exact Hd|]. split; [exact Hct|].
    repeat split; cbn; try assumption; apply T8.
  - rewrite Hk. reflexivity.
Qed.

Lemma FFvideoStream_init_cases (d : dict) :
  codec_of d = PStr "video" ->
  if bit_rate_fits d
  then exists v, FFvideoStream_init (PDict d) = Ok v /\
                 parsed_json (video_base v) = d /\
                 codec_type (video_base v) = codec_of d /\ video_typed v /\
                 side_data_list v = dict_get d "side_data_list" PNone
  else FFvideoStream_init (PDict d) = Raise OverflowError.
Proof.
  intros Hc. unfold FFvideoStream_init.
  destruct (FFstream_init_cases d) as (s & -> & Hd & Hct & T0). cbn [bind].
  rewrite (require_codec_type_ok "FFvideoStream" "video" s) by congruence.
  cbn [bind]. cbv zeta. rewrite Hd.
  destruct (get_as_int_typed d (PStr "width")) as (r1 & -> & T1).
  destruct (get_as_int_typed d (PStr "height")) as (r2 & -> & T2).
  destruct (get_as_int_typed d (PStr "nb_frames")) as (r3 & -> & T3).
  destruct (bit_rate_kbps_cases d) as (bps & -> & T4 & Hk).
  cbn [bind].
  destruct (bit_rate_fits d).
  - destruct Hk as (kbps & -> & T7 & T8). cbn [bind].
    eexists. split; [reflexivity|]. cbn. split; [exact Hd|]. split; [exact Hct|].
    split; [|reflexivity].
    repeat split; cbn; try assumption; apply T8.
  - rewrite Hk. reflexivity.
Qed.

Lemma FFattachmentStream_init_cases (d : dict) :
  codec_of d = PStr "attachment" ->
  exists s, FFattachmentStream_init (PDict d) = Ok s /\ parsed_json s = d /\
            codec_type s = codec_of d.
Proof.
  intros Hc. unfold FFattachmentStream_init.
  destruct (FFstream_init_cases d) as (s & -> & Hd & Hct & T0). cbn [bind].
  rewrite (require_codec_type_ok "FFattachmentStream" "attachment" s) by congruence.
  cbn [bind]. eauto.
Qed.

Lemma FFsubtitleStream_init_cases (d : dict) :
  codec_of d = PStr "subtitle" ->
  exists s, FFsubtitleStream_init (PDict d) = Ok s /\ parsed_json s = d /\
            codec_type s = codec_of d.
Proof.
  intros Hc. unfold FFsubtitleStream_init.
  destruct (FFstream_init_cases d) as (s & -> & Hd & Hct & T0). cbn [bind].
  rewrite (require_codec_type_ok "FFsubtitleStream" "subtitle" s) by congruence.
  cbn [bind]. eauto.
Qed.

Ltac generic_case d Hc :=
  cbn [hashable eq_str orb andb known_subclass bind];
  let s := fresh "s" in
  let Hd := fresh "Hd" in
  let Hct := fresh "Hct" in
  destruct (FFstream_init_cases d) as (s & -> & Hd & Hct & _);
  cbn [bind]; exists (Generic s); cbn [base class_name];
  rewrite Hd, Hct, Hc; repeat split; reflexivity.

Lemma construct_cases (j : value) :
  match j with
  | PDict d =>
      if hashable (codec_of d)
      then if stream_json_ok j
           then exists s, _construct_ffstream_subclass j = Ok s /\ wraps j s
           else _construct_ffstream_subclass j = Raise OverflowError
      else _construct_ffstream_subclass j = Raise TypeError
  | _ => _construct_ffstream_subclass j = Raise AttributeError
  end.
Proof.
  destruct j as [| | | | | | |d]; try reflexivity.
  unfold stream_json_ok, _construct_ffstream_subclass, wraps. cbn [bind].
  fold (codec_of d).
  destruct (codec_of d) as [|b|n|f|s|l|l|d'] eqn:Hc.
  - generic_case d Hc.
  - generic_case d Hc.
  - generic_case d Hc.
  - generic_case d Hc.
  - cbn [hashable andb eq_str known_subclass].
    destruct (String.eqb_spec s "attachment") as [->|N1].
    { cbn [bind orb].
      destruct (FFattachmentStream_init_cases d Hc) as (x & -> & Hd & Hct).
      cbn [bind]. exists (Attachment x). cbn [base class_name].
      rewrite Hd, Hct, Hc. repeat split; reflexivity. }
    destruct (String.eqb_spec s "audio") as [->|N2].
    { cbn [bind orb]. pose proof (FFaudioStream_init_cases d Hc) as H.
      destruct (bit_rate_fits d).
      - destruct H as (x & -> & Hd & Hct & _).
        cbn [bind]. exists (Audio x). cbn [base class_name].
        rewrite Hd, Hct, Hc. repeat split; reflexivity.
      - rewrite H. reflexivity. }
    destruct (String.eqb_spec s "subtitle") as [->|N3].
    { cbn [bind orb].
      destruct (FFsubtitleStream_init_cases d Hc) as (x & -> & Hd & Hct).
      cbn [bind]. exists (Subtitle x). cbn [base class_name].
      rewrite Hd, Hct, Hc. repeat split; reflexivity. }
    destruct (String.eqb_spec s "video") as [->|N4].
    { cbn [bind orb]. pose proof (FFvideoStream_init_cases d Hc) as H.
      destruct (bit_rate_fits d).
      - destruct H as (x & -> & Hd & Hct & _).
        cbn [bind]. exists (Video x). cbn [base class_name].
        rewrite Hd, Hct, Hc. repeat split; reflexivity.
      - rewrite H. reflexivity. }
    cbn [bind orb]. destruct (FFstream_init_cases d) as (x & -> & Hd & Hct & _).
    cbn [bind]. exists (Generic x). cbn [base class_name].
    rewrite Hd, Hct, Hc. unfold class_for. cbn [eq_str].
    rewrite (proj2 (String.eqb_neq _ _) N1), (proj2 (String.eqb_neq _ _) N2),
      (proj2 (String.eqb_neq _ _) N3), (proj2 (String.eqb_neq _ _) N4).
    repeat split; reflexivity.
  - reflexivity.
  - cbn [hashable known_subclass eq_str orb andb].
    destruct (forallb hashable l); [|reflexivity].
    cbn [bind]. destruct (FFstream_init_cases d) as (s & -> & Hd & Hct & _).
    cbn [bind]. exists (Generic s). cbn [base class_name].
    rewrite Hd, Hct, Hc. repeat split; reflexivity.
  - reflexivity.
Qed.

Lemma construct_ok_iff (j : value) :
  (exists s, _construct_ffstream_subclass j = Ok s) <-> stream_json_ok j = true.
Proof.
  pose proof (construct_cases j) as H.
  destruct j as [| | | | | | |d];
    try (split; [intros [x Hx]; rewrite H in Hx; discriminate|discriminate]).
  cbn [stream_json_ok] in *.
  destruct (hashable (codec_of d)); cbn [andb] in *.
  - destruct (if eq_str (codec_of d) "audio" || eq_str (codec_of d) "video"
              then bit_rate_fits d else true).
    + destruct H as (s & Hs & _). split; eauto.
    + split; [intros [x Hx]; rewrite H in Hx; discriminate|discriminate].
  - split; [intros [x Hx]; rewrite H in Hx; discriminate|discriminate].
Qed.

Lemma construct_wraps (j : value) (s : stream) :
  _construct_ffstream_subclass j = Ok s -> wraps j s.
Proof.
  intros Hs. pose proof (construct_cases j) as H.
  destruct j as [| | | | | | |d]; try congruence.
  destruct (hashable (codec_of d)); [|congruence].
  destruct (stream_json_ok (PDict d)); [|congruence].
  destruct H as (s' & Hs' & Hw). congruence.
Qed.

Lemma construct_errors (j : value) (e : exn) :
  _construct_ffstream_subclass j = Raise e ->
  e = AttributeError \/ e = TypeError \/ e = OverflowError.
Proof.
  intros Hs. pose proof (construct_cases j) as H.
  destruct j as [| | | | | | |d]; try (left; congruence).
  destruct (hashable (codec_of d)); [|right; left; congruence].
  destruct (stream_json_ok (PDict d)); [|right; right; congruence].
  destruct H as (s' & Hs' & Hw). congruence.
Qed.

Lemma mapM_cases {A B} (f : A -> result B) (l : list A) :
  (exists l', mapM f l = Ok l' /\ Forall2 (fun x y => f x = Ok y) l l') \/
  (exists x e, In x l /\ f x = Raise e /\ mapM f l = Raise e).
Proof.
  induction l as [|x r IH].
  - left. exists []. split; [reflexivity|constructor].
  - cbn [mapM]. destruct (f x) as [y|e] eqn:Hx.
    + cbn [bind]. destruct IH as [(l' & -> & Hl)|(x' & e & Hin & Hx' & ->)].
      * left. exists (y :: l'). split; [reflexivity|]. constructor; assumption.
      * right. exists x', e. cbn. auto.
    + right. exists x, e. cbn. auto.
Qed.

Lemma FFchapter_init_cases (j : value) :
  match j with
  | PDict d =>
      exists c, FFchapter_init j = Ok c /\ chapter_json c = d /\
                chapter_id c = dict_get d "id" PNone /\
                chapter_title c =
                  match assoc "tags" d with
                  | Some (PDict t) => dict_get t "title" PNone
                  | _ => PNone
                  end
  | _ => FFchapter_init j =
           Raise (FFprobeInvalidArgumentError "parsed_json"
                    "Supplied parsed JSON is not a dictionary" j)
  end.
Proof.
  destruct j as [| | | | | | |d]; try reflexivity.
  unfold FFchapter_init. cbn [ParsedJson.init bind].
  rewrite dict_getitem_str.
  destruct (assoc "tags" d) as [tags|]; cbn [bind try_except].
  - destruct tags as [| | | | | | |t]; cbn [subscript_str try_except bind];
      try (eexists; repeat split; reflexivity).
    rewrite dict_getitem_str. unfold dict_get.
    destruct (assoc "title" t); cbn; eexists; repeat split; reflexivity.
  - eexists; repeat split; reflexivity.
Qed.

Lemma FFformat_init_any (j : value) :
  if format_json_ok j
  then exists fmt, FFformat_init j = Ok fmt /\ j = PDict (format_json fmt) /\
                   format_typed fmt
  else FFformat_init j = Raise OverflowError \/
       FFformat_init j =
         Raise (FFprobeInvalidArgumentError "parsed_json"
                  "Supplied parsed JSON is not a dictionary" j).
Proof.
  destruct j as [| | | | | | |d]; try (right; reflexivity).
  cbn [format_json_ok]. pose proof (FFformat_init_cases d) as H.
  destruct (bit_rate_fits d).
  - destruct H as (fmt & Hf & Hd & Ht). exists fmt. rewrite Hd. auto.
  - left. exact H.
Qed.

Lemma iterate_error (v : value) (e : exn) : iterate v = Raise e -> e = TypeError.
Proof. destruct v; cbn; congruence. Qed.

Lemma FFprobe_init_unfold (cmd : list string) (d : dict) :
  (2 <= List.length cmd)%nat ->
  FFprobe_init cmd (PDict d) =
    (format <- FFformat_init (dict_get d "format" (PDict [])) ;;
     stream_jsons <- iterate (dict_get d "streams" (PList [])) ;;
     streams <- mapM _construct_ffstream_subclass stream_jsons ;;
     chapter_jsons <- iterate (dict_get d "chapters" (PList [])) ;;
     chapters <- mapM FFchapter_init chapter_jsons ;;
     Ok {| split_cmdline := cmd;
           executed_cmd := hd "" cmd;
           media_filename := last cmd "";
           probe_json := d;
           format := format;
           streams := streams;
           chapters := chapters;
           attachment := filter (fun s => is_attachment (base s)) streams;
           audio := filter (fun s => is_audio (base s)) streams;
           subtitle := filter (fun s => is_subtitle (base s)) streams;
           video := filter (fun s => is_video (base s)) streams |}).
Proof.
  intros H. unfold FFprobe_init.
  destruct (Nat.ltb_spec (List.length cmd) 2) as [Hlt|_]; [lia|reflexivity].
Qed.

Lemma FFprobe_init_short (cmd : list string) (pj : value) :
  (List.length cmd < 2)%nat ->
  FFprobe_init cmd pj =
    Raise (FFprobeInvalidArgumentError "split_cmdline"
             "Supplied split command-line has too few elements"
             (PList (map PStr cmd))).
Proof.
  intros H. unfold FFprobe_init.
  destruct (Nat.ltb_spec (List.length cmd) 2) as [_|Hge]; [reflexivity|lia].
Qed.

Lemma FFprobe_init_not_dict (cmd : list string) (pj : value) :
  (2 <= List.length cmd)%nat -> is_dict pj = false ->
  FFprobe_init cmd pj =
    Raise (FFprobeInvalidArgumentError "parsed_json"
             "Supplied parsed JSON is not a dictionary" pj).
Proof.
  intros H Hd. unfold FFprobe_init.
  destruct (Nat.ltb_spec (List.length cmd) 2) as [Hlt|_]; [lia|].
  destruct pj; try reflexivity. discriminate.
Qed.

Lemma forallb_construct (l : list value) :
  forallb stream_json_ok l = true <->
  exists l', mapM _construct_ffstream_subclass l = Ok l'.
Proof.
  induction l as [|x r IH]; cbn [forallb mapM].
  - split; eauto.
  - rewrite andb_true_iff, IH, <- construct_ok_iff. split.
    + intros ((s & ->) & (l' & ->)). cbn. eauto.
    + intros (l' & H). apply bind_ok_inv in H as (s & Hs & H).
      apply bind_ok_inv in H as (r' & Hr & _). eauto.
Qed.

Lemma forallb_chapters (l : list value) :
  forallb is_dict l = true <-> exists l', mapM FFchapter_init l = Ok l'.
Proof.
  induction l as [|x r IH]; cbn [forallb mapM].
  - split; eauto.
  - rewrite andb_true_iff, IH. pose proof (FFchapter_init_cases x) as Hx. split.
    + intros (Hd & (l' & ->)). destruct x; try discriminate.
      destruct Hx as (c & -> & _). cbn. eauto.
    + intros (l' & H). apply bind_ok_inv in H as (s & Hs & H).
      apply bind_ok_inv in H as (r' & Hr & _).
      split; [|eauto]. destruct x; try congruence. reflexivity.
Qed.

Lemma FFprobe_init_ok_iff (cmd : list string) (pj : value) :
  (exists md, FFprobe_init cmd pj = Ok md) <->
  (2 <= List.length cmd)%nat /\ probe_json_ok pj = true.
Proof.
  destruct (Nat.ltb_spec (List.length cmd) 2) as [Hlt|Hge].
  - rewrite (FFprobe_init_short cmd pj Hlt). split.
    + intros [md H]. discriminate.
    + intros [H _]. lia.
  - destruct (is_dict pj) eqn:Hd.
    + destruct pj as [| | | | | | |d]; try discriminate.
      rewrite (FFprobe_init_unfold cmd d Hge). cbn [probe_json_ok].
      unfold all_of.
      pose proof (FFformat_init_any (dict_get d "format" (PDict []))) as Hf.
      split.
      * intros [md H].
        apply bind_ok_inv in H as (fmt & Efmt & H).
        apply bind_ok_inv in H as (sj & Esj & H).
        apply bind_ok_inv in H as (ss & Ess & H).
        apply bind_ok_inv in H as (cj & Ecj & H).
        apply bind_ok_inv in H as (cs & Ecs & H).
        split; [exact Hge|].
        rewrite Esj, Ecj.
        destruct (format_json_ok _); [|destruct Hf; congruence].
        rewrite (proj2 (forallb_construct sj)) by eauto.
        rewrite (proj2 (forallb_chapters cj)) by eauto. reflexivity.
      * intros [_ H]. apply andb_true_iff in H as [H H3].
        apply andb_true_iff in H as [H1 H2].
        rewrite H1 in Hf. destruct Hf as (fmt & -> & _). cbn [bind].
        destruct (iterate (dict_get d "streams" (PList []))) as [sj|]; [|discriminate].
        destruct (iterate (dict_get d "chapters" (PList []))) as [cj|]; [|discriminate].
        apply forallb_construct in H2 as (ss & Hss).
        apply forallb_chapters in H3 as (cs & Hcs).
        cbn [bind]. rewrite Hss. cbn [bind]. rewrite Hcs. cbn [bind]. eauto.
    + rewrite (FFprobe_init_not_dict cmd pj Hge Hd). split.
      * intros [md H]. discriminate.
      * intros [_ H]. destruct pj; discriminate.
Qed.

Lemma mapM_error {A B} (f : A -> result B) (l : list A) (e : exn) :
  mapM f l = Raise e -> exists x, In x l /\ f x = Raise e.
Proof.
  intros H. destruct (mapM_cases f l) as [(l' & E & _)|(x & e' & Hin & Hx & E)];
    [congruence|].
  exists x. split; [exact Hin|congruence].
Qed.

Lemma FFprobe_init_error_cases (cmd : list string) (pj : value) (e : exn) :
  FFprobe_init cmd pj = Raise e ->
  is_invalid_argument e = true \/
  e = TypeError \/ e = AttributeError \/ e = OverflowError.
Proof.
  destruct (Nat.ltb_spec (List.length cmd) 2) as [Hlt|Hge].
  { rewrite (FFprobe_init_short cmd pj Hlt). intros H. injection H as <-. auto. }
  destruct (is_dict pj) eqn:Hd.
  2:{ rewrite (FFprobe_init_not_dict cmd pj Hge Hd). intros H. injection H as <-. auto. }
  destruct pj as [| | | | | | |d]; try discriminate.
  rewrite (FFprobe_init_unfold cmd d Hge). intros H.
  apply bind_raise_inv in H as [H|(fmt & _ & H)].
  { pose proof (FFformat_init_any (dict_get d "format" (PDict []))) as Hf.
    destruct (format_json_ok _).
    - destruct Hf as (fmt & Hf & _). congruence.
    - destruct Hf as [Hf|Hf]; rewrite Hf in H; injection H as <-; auto. }
  apply bind_raise_inv in H as [H|(sj & _ & H)].
  { apply iterate_error in H. auto. }
  apply bind_raise_inv in H as [H|(ss & _ & H)].
  { apply mapM_error in H as (x & _ & Hx). apply construct_errors in Hx.
    tauto. }
  apply bind_raise_inv in H as [H|(cj & _ & H)].
  { apply iterate_error in H. auto. }
  apply bind_raise_inv in H as [H|(cs & _ & H)]; [|discriminate].
  apply mapM_error in H as (x & _ & Hx).
  pose proof (FFchapter_init_cases x) as Hc.
  destruct x; try (rewrite Hc in Hx; injection Hx as <-; auto).
  destruct Hc as (c & Hc & _). congruence.
Qed.

(** X6.  The constructor [FFprobe] returns an object exactly when the
    command line has at least two elements and the parsed output is a
    dictionary such that: its format (an empty dictionary when absent) is
    a dictionary whose bit rate has a float; its streams can be iterated
    and each is a dictionary whose codec type has a hash and, for an
    audio or a video stream, whose bit rate has a float; its chapters can
    be iterated and each is a dictionary.  Otherwise it raises
    [FFprobeInvalidArgumentError], [TypeError], [AttributeError] or
    [OverflowError], the first one whenever the command line is too short
    or the parsed output is not a dictionary. *)
Theorem FFprobe_init_accepts (cmd : list string) (pj : value) :
  ((exists md, FFprobe_init cmd pj = Ok md) <->
   (2 <= List.length cmd)%nat /\ probe_json_ok pj = true) /\
  (forall e, FFprobe_init cmd pj = Raise e ->
     is_invalid_argument e = true \/
     e = TypeError \/ e = AttributeError \/ e = OverflowError) /\
  ((List.length cmd < 2)%nat \/ is_dict pj = false ->
   exists e, FFprobe_init cmd pj = Raise e /\ is_invalid_argument e = true).
Proof.
  split; [exact (FFprobe_init_ok_iff cmd pj)|].
  split; [exact (FFprobe_init_error_cases cmd pj)|].
  intros H.
  destruct (Nat.ltb_spec (List.length cmd) 2) as [Hlt|Hge].
  - rewrite (FFprobe_init_short cmd pj Hlt). eexists. split; reflexivity.
  - destruct H as [H|H]; [lia|].
    rewrite (FFprobe_init_not_dict cmd pj Hge H). eexists. split; reflexivity.
Qed.

(** A probe result with two streams is accepted; a stream that is a
    string, or a format that is a list, is not. *)
Lemma FFprobe_init_accepts_witness :
  (exists md, FFprobe_init ["ffprobe"; "a.mp3"] sample_probe_json = Ok md) /\
  ~ (exists md, FFprobe_init ["ffprobe"; "a.mp3"]
                  (PDict [("streams", PList [PStr "audio"])]) = Ok md) /\
  ~ (exists md, FFprobe_init ["ffprobe"; "a.mp3"]
                  (PDict [("format", PList [])]) = Ok md).
Proof.
  split; [|split].
  - apply (proj1 (FFprobe_init_accepts ["ffprobe"; "a.mp3"] sample_probe_json)).
    split; [cbn; lia|reflexivity].
  - intros H.
    apply (proj1 (FFprobe_init_accepts ["ffprobe"; "a.mp3"]
                    (PDict [("streams", PList [PStr "audio"])]))) in H.
    destruct H as [_ H]. discriminate H.
  - intros H.
    apply (proj1 (FFprobe_init_accepts ["ffprobe"; "a.mp3"]
                    (PDict [("format", PList [])]))) in H.
    destruct H as [_ H]. discriminate H.
Defined.

(** ** The run of the prober *)

Lemma uri_scheme_tail_intro (cs rest : list ascii) :
  Forall (fun x => scheme_char x = true) cs ->
  uri_scheme_tail (cs ++ scheme_mark ++ rest)%list = true.
Proof.
  induction 1 as [|c cs Hc _ IH]; [reflexivity|].
  cbn [app uri_scheme_tail]. unfold scheme_char in Hc. rewrite Hc. exact IH.
Qed.

Lemma uri_scheme_tail_elim (l : list ascii) :
  uri_scheme_tail l = true ->
  exists cs rest, Forall (fun x => scheme_char x = true) cs /\
                  l = (cs ++ scheme_mark ++ rest)%list.
Proof.
  induction l as [|c r IH]; [discriminate|].
  cbn [uri_scheme_tail]. fold (scheme_char c).
  destruct (scheme_char c) eqn:Hc.
  - intros H. destruct (IH H) as (cs & rest & Hcs & ->).
    exists (c :: cs), rest. split; [constructor; assumption|reflexivity].
  - intros H. exists [].
    destruct (Ascii.eqb_spec c ":"); [|destruct c as [[] [] [] [] [] [] [] []]; try discriminate H; congruence].
    subst c. destruct r as [|c1 r]; [discriminate|].
    destruct (Ascii.eqb_spec c1 "/"); [|destruct c1 as [[] [] [] [] [] [] [] []]; try discriminate H; congruence].
    subst c1. destruct r as [|c2 r]; [discriminate|].
    destruct (Ascii.eqb_spec c2 "/"); [|destruct c2 as [[] [] [] [] [] [] [] []]; try discriminate H; congruence].
    subst c2. exists r. split; [constructor|reflexivity].
Qed.

(** X1.  The test by which [probe] tells a remote stream from a local file
    accepts a name exactly when the name starts with a URI scheme followed
    by [://]: a lower-case letter, then any number of lower-case letters,
    digits and hyphens.  What comes after is free. *)
Theorem looks_like_uri_scheme (s : string) :
  looks_like_uri s = true <->
  exists scheme rest,
    uri_scheme scheme /\
    list_ascii_of_string s = (scheme ++ scheme_mark ++ rest)%list.
Proof.
  unfold looks_like_uri. split.
  - destruct (list_ascii_of_string s) as [|c r]; [discriminate|].
    intros H. apply andb_true_iff in H as [Hc Hr].
    destruct (uri_scheme_tail_elim r Hr) as (cs & rest & Hcs & ->).
    exists (c :: cs), rest. split; [split; assumption|reflexivity].
  - intros (scheme & rest & Hs & ->).
    destruct scheme as [|c cs]; [destruct Hs|]. destruct Hs as [Hc Hcs].
    cbn [app]. rewrite Hc. exact (uri_scheme_tail_intro cs rest Hcs).
Qed.

(** [http://] starts a remote name; an upper-case scheme and a path with
    a colon do not. *)
Lemma looks_like_uri_scheme_witness :
  looks_like_uri "http://host/a.mp3" = true /\
  looks_like_uri "HTTP://host/a.mp3" = false /\
  looks_like_uri "C:/music/a.mp3" = false.
Proof.
  split; [|split; reflexivity].
  apply (looks_like_uri_scheme "http://host/a.mp3").
  exists ["h"; "t"; "t"; "p"]%char, (list_ascii_of_string "host/a.mp3").
  split; [|reflexivity]. split; [reflexivity|]. repeat constructor.
Defined.

Lemma check_communicate_timeout_error (t : value) (e : exn) :
  check_communicate_timeout t = Raise e ->
  exists problem, e = FFprobeInvalidArgumentError "communicate_timeout" problem t.
Proof.
  unfold check_communicate_timeout.
  destruct t; try discriminate; cbn; intros H;
    repeat match type of H with
           | (if ?c then _ else _) = _ => destruct c
           end;
    try discriminate; injection H as <-; eexists; reflexivity.
Qed.

Lemma probe_prepare_cases (w : os_world) (f : string) (t : value)
    (ov : option string) (verify : bool) :
  match probe_prepare w f t ov verify with
  | Ok (cmd, name) =>
      override_ok w ov /\ check_communicate_timeout t = Ok tt /\
      media_ok w f verify = true /\
      cmd = command_line ov f /\ name = command_name ov
  | Raise e =>
      (exists c, ov = Some c /\ isfile w c = false /\ e = FFprobeOverrideFileError c) \/
      (override_ok w ov /\ check_communicate_timeout t = Raise e) \/
      (override_ok w ov /\ check_communicate_timeout t = Ok tt /\
       media_ok w f verify = false /\ e = FFprobeMediaFileError f)
  end.
Proof.
  unfold probe_prepare, media_ok, override_ok.
  destruct ov as [c|]; cbn [bind].
  - destruct (isfile w c) eqn:Hc; cbn [negb bind].
    + destruct (check_communicate_timeout t) as [[]|e] eqn:Ht; cbn [bind].
      * destruct verify; cbn [negb orb bind].
        -- destruct (looks_like_uri f); cbn [negb orb bind].
           ++ repeat split.
           ++ destruct (isfile w f); cbn [negb bind].
              ** repeat split.
              ** right; right. repeat split.
        -- repeat split.
      * right; left. split; reflexivity.
    + left. exists c. repeat split. exact Hc.
  - destruct (check_communicate_timeout t) as [[]|e] eqn:Ht; cbn [bind].
    + destruct verify; cbn [negb orb bind].
      * destruct (looks_like_uri f); cbn [negb orb bind].
        -- repeat split.
        -- destruct (isfile w f); cbn [negb bind].
           ++ repeat split.
           ++ right; right. repeat split.
      * repeat split.
    + right; left. split; [exact I|reflexivity].
Qed.

Lemma communicate_timed_out (p : process) (t : value) :
  communicate p t =
    (if timed_out p t then [EvKill] else [],
     returned (failure_of p t) (completion_of p t)).
Proof.
  unfold communicate, completion_of, failure_of, timed_out.
  destruct t; try reflexivity; destruct (expires p _); reflexivity.
Qed.

Lemma probe_cases (w : os_world) (f : string) (t : value)
    (ov : option string) (verify : bool) :
  (exists p,
     may_start w f t ov verify /\
     popen w (command_line ov f) = Spawned p /\
     probe w f t ov verify =
       (EvSpawn (command_line ov f) :: (if timed_out p t then [EvKill] else []),
        c <- returned (failure_of p t) (completion_of p t) ;;
        probe_finish (command_line ov f) c)) \/
  (exists e,
     probe w f t ov verify = ([], Raise e) /\ is_FFprobeError e = true /\
     ~ (may_start w f t ov verify /\
        exists p, popen w (command_line ov f) = Spawned p)).
Proof.
  unfold probe, may_start.
  pose proof (probe_prepare_cases w f t ov verify) as Hp.
  destruct (probe_prepare w f t ov verify) as [[cmd name]|e].
  - destruct Hp as (Hov & Ht & Hm & -> & ->).
    destruct (popen w (command_line ov f)) as [p| | | |] eqn:Hpo.
    + left. exists p. rewrite communicate_timed_out. auto.
    + right. eexists. split; [reflexivity|]. split; [reflexivity|].
      intros (_ & p & Hpp). discriminate.
    + right. eexists. split; [reflexivity|]. split; [reflexivity|].
      intros (_ & p & Hpp). discriminate.
    + right. eexists. split; [reflexivity|]. split; [reflexivity|].
      intros (_ & p & Hpp). discriminate.
    + right. eexists. split; [reflexivity|]. split; [reflexivity|].
      intros (_ & p & Hpp). discriminate.
  - right. exists e. split; [reflexivity|]. split.
    + destruct Hp as [(c & _ & _ & ->)|[(_ & Ht)|(_ & _ & _ & ->)]]; try reflexivity.
      destruct (check_communicate_timeout_error t e Ht) as (pr & ->). reflexivity.
    + intros ((Hov & Ht & Hm) & _).
      destruct Hp as [(c & -> & Hc & _)|[(_ & Ht')|(_ & _ & Hm' & _)]];
        cbn in *; congruence.
Qed.

(** X2.  [probe] starts at most one process, and nothing else happens to
    a process than its start and one kill.  The command line is the
    command name, the seven fixed arguments and the media file name last.
    The process is started exactly when the override, the timeout and the
    media file pass their checks and [Popen] succeeds; without a start
    the call raises an error of the package.  The process is killed
    exactly when [communicate] runs out of time, so never when the
    timeout is [None]. *)
Theorem probe_process_events (w : os_world) (f : string) (t : value)
    (ov : option string) (verify : bool) :
  let evs := fst (probe w f t ov verify) in
  let cmd := command_line ov f in
  (evs = [] \/ evs = [EvSpawn cmd] \/ evs = [EvSpawn cmd; EvKill]) /\
  (evs = [] -> exists e, snd (probe w f t ov verify) = Raise e /\
                         is_FFprobeError e = true) /\
  (evs <> [] <->
     may_start w f t ov verify /\ exists p, popen w cmd = Spawned p) /\
  (In EvKill evs <->
     evs <> [] /\ exists p, popen w cmd = Spawned p /\ timed_out p t = true).
Proof.
  cbv zeta.
  destruct (probe_cases w f t ov verify)
    as [(p & Hs & Hp & ->)|(e & -> & He & Hn)]; cbn [fst snd].
  - split; [destruct (timed_out p t); auto|].
    split; [discriminate|].
    split; [split; [intros _; eauto|discriminate]|].
    split.
    + intros H. split; [discriminate|]. exists p. split; [exact Hp|].
      destruct (timed_out p t); [reflexivity|].
      destruct H as [H|[]]; discriminate.
    + intros (_ & q & Hq & Hqt). rewrite Hp in Hq. injection Hq as <-.
      rewrite Hqt. right; left; reflexivity.
  - split; [auto|].
    split; [intros _; eauto|].
    split; [split; [congruence|intros H; elim (Hn H)]|].
    split; [intros []|intros (H & _); congruence].
Qed.

(** A process that does not end in time is started with the override as
    command and then killed; without timeout it is only started. *)
Lemma probe_process_events_witness :
  let c := {| loads_fails := None; outs_json := Some (PDict []); errs := ""; returncode := 0 |} in
  let slow := {| isfile := fun _ => true;
                 popen := fun _ => Spawned {| expires := fun _ => true;
                                              fails := fun _ => None;
                                              in_time := c;
                                              fails_after_kill := None;
                                              after_kill := c |} |} in
  fst (probe slow "http://host/a.mp3" default_timeout (Some "/opt/ffprobe") true) =
    [EvSpawn ["/opt/ffprobe"; "-v"; "error"; "-print_format"; "json";
              "-show_chapters"; "-show_format"; "-show_streams";
              "http://host/a.mp3"]; EvKill] /\
  fst (probe slow "a.mp3" PNone None true) =
    [EvSpawn ["ffprobe"; "-v"; "error"; "-print_format"; "json";
              "-show_chapters"; "-show_format"; "-show_streams"; "a.mp3"]].
Proof.
  cbv zeta. split.
  - destruct (probe_process_events
                {| isfile := fun _ => true;
                   popen := fun _ => Spawned
                     {| expires := fun _ => true;
                        fails := fun _ => None;
                        in_time := {| loads_fails := None;
                                      outs_json := Some (PDict []); errs := "";
                                      returncode := 0 |};
                        fails_after_kill := None;
                        after_kill := {| loads_fails := None;
                                         outs_json := Some (PDict []); errs := "";
                                         returncode := 0 |} |} |}
                "http://host/a.mp3" default_timeout (Some "/opt/ffprobe") true)
      as (H & _).
    destruct H as [H|[H|H]]; [discriminate H|discriminate H|exact H].
  - reflexivity.
Defined.

Lemma probe_finish_cases (cmd : list string) (c : completion) :
  match loads_fails c with
  | Some l => probe_finish cmd c = Raise (raised l)
  | None =>
      match outs_json c with
      | None => probe_finish cmd c =
                  Raise (FFprobeJsonParseError "json.decoder.JSONDecodeError")
      | Some j =>
          if returncode c =? 0
          then probe_finish cmd c = FFprobe_init cmd j
          else probe_finish cmd c =
                 Raise (FFprobeSubprocessError cmd (returncode c) (errs c))
      end
  end.
Proof.
  unfold probe_finish. destruct (loads_fails c); [reflexivity|].
  destruct (outs_json c); [|reflexivity].
  cbn [bind]. destruct (returncode c =? 0); reflexivity.
Qed.

(** The result of [probe] once the process is started. *)
Lemma probe_after_start (cmd : list string) (p : process) (t : value) :
  match failure_of p t with
  | Some l =>
      (c <- returned (failure_of p t) (completion_of p t) ;; probe_finish cmd c) =
        Raise (raised l)
  | None =>
      (c <- returned (failure_of p t) (completion_of p t) ;; probe_finish cmd c) =
        probe_finish cmd (completion_of p t)
  end.
Proof. destruct (failure_of p t); reflexivity. Qed.

Lemma command_line_length (ov : option string) (f : string) :
  (2 <= List.length (command_line ov f))%nat.
Proof. cbn. lia. Qed.

Lemma FFprobe_init_attributes (cmd : list string) (pj : value) (md : FFprobe) :
  FFprobe_init cmd pj = Ok md ->
  pj = PDict (probe_json md) /\ split_cmdline md = cmd /\
  executed_cmd md = hd "" cmd /\ media_filename md = last cmd "".
Proof.
  intros H.
  assert (Hacc : exists md, FFprobe_init cmd pj = Ok md) by eauto.
  apply FFprobe_init_ok_iff in Hacc as [Hge Hok].
  destruct pj as [| | | | | | |d]; try discriminate.
  rewrite (FFprobe_init_unfold cmd d Hge) in H.
  apply bind_ok_inv in H as (fmt & Efmt & H).
  apply bind_ok_inv in H as (sj & Esj & H).
  apply bind_ok_inv in H as (ss & Ess & H).
  apply bind_ok_inv in H as (cj & Ecj & H).
  apply bind_ok_inv in H as (cs & Ecs & H).
  injection H as <-. repeat split.
Qed.

(** X3.  When [probe] returns an object, the three checks had passed and
    a process was started with the expected command line, ended with exit
    status 0 and printed an output that parsed to the dictionary the
    object wraps, a dictionary the constructor accepts.  The object
    records the command line, the command name (the override when there
    is one, [ffprobe] otherwise) and the media file name it was called
    with.  Neither [communicate] nor [json.loads] raised an exception of
    its own. *)
Theorem probe_returns (w : os_world) (f : string) (t : value)
    (ov : option string) (verify : bool) (md : FFprobe)
    (Hok : snd (probe w f t ov verify) = Ok md) :
  split_cmdline md = command_line ov f /\
  executed_cmd md = command_name ov /\
  media_filename md = f /\
  may_start w f t ov verify /\
  exists p,
    popen w (command_line ov f) = Spawned p /\
    returncode (completion_of p t) = 0 /\
    outs_json (completion_of p t) = Some (PDict (probe_json md)) /\
    probe_json_ok (PDict (probe_json md)) = true /\
    failure_of p t = None /\
    loads_fails (completion_of p t) = None.
Proof.
  destruct (probe_cases w f t ov verify)
    as [(p & Hs & Hp & E)|(e & E & _)]; rewrite E in Hok; cbn [snd] in Hok;
    [|discriminate].
  pose proof (probe_after_start (command_line ov f) p t) as Ha.
  destruct (failure_of p t) as [l|] eqn:Hfail; [congruence|].
  rewrite Ha in Hok.
  pose proof (probe_finish_cases (command_line ov f) (completion_of p t)) as Hf.
  destruct (loads_fails (completion_of p t)) as [l|] eqn:Hl; [congruence|].
  destruct (outs_json (completion_of p t)) as [j|] eqn:Hj; [|congruence].
  destruct (Z.eqb_spec (returncode (completion_of p t)) 0) as [Hz|Hnz];
    [|congruence].
  rewrite Hf in Hok.
  destruct (FFprobe_init_attributes _ _ _ Hok) as (-> & Hc & He & Hm).
  split; [exact Hc|]. split; [rewrite He; reflexivity|].
  split; [rewrite Hm; reflexivity|]. split; [exact Hs|].
  exists p. split; [exact Hp|]. split; [exact Hz|]. split; [exact Hj|].
  split; [|split; assumption].
  apply (FFprobe_init_ok_iff (command_line ov f)). eauto.
Qed.

(** The attributes of the result for a file probed with the default
    arguments. *)
Lemma probe_returns_witness :
  exists md,
    snd (probe sample_world "a.mp3" default_timeout None true) = Ok md /\
    split_cmdline md =
      ["ffprobe"; "-v"; "error"; "-print_format"; "json"; "-show_chapters";
       "-show_format"; "-show_streams"; "a.mp3"] /\
    executed_cmd md = "ffprobe" /\ media_filename md = "a.mp3".
Proof.
  destruct (snd (probe sample_world "a.mp3" default_timeout None true))
    as [md|e] eqn:E; [|discriminate E].
  exists md. split; [reflexivity|].
  destruct (probe_returns sample_world "a.mp3" default_timeout None true md E)
    as (H1 & H2 & H3 & _).
  auto.
Defined.

(** X4.  An exception of [probe] is of one of three kinds.  It is an
    error of the package.  Or it is a [TypeError], an [AttributeError] or
    an [OverflowError] that arises while the result is built, that is
    after a process that ended with exit status 0 and an output that
    parsed but that the constructor does not accept.  Or it is a
    built-in exception that [Popen.communicate] or [json.loads] raised
    on its own account once the process was started (a [ValueError] for
    a timeout that is not a number, for instance), which [probe] does
    not catch. *)
Theorem probe_raises (w : os_world) (f : string) (t : value)
    (ov : option string) (verify : bool) (e : exn)
    (Hraise : snd (probe w f t ov verify) = Raise e) :
  is_FFprobeError e = true \/
  ((e = TypeError \/ e = AttributeError \/ e = OverflowError) /\
   exists p j,
     popen w (command_line ov f) = Spawned p /\
     failure_of p t = None /\
     parses_to (completion_of p t) j /\
     returncode (completion_of p t) = 0 /\
     probe_json_ok j = false) \/
  (exists p l,
     popen w (command_line ov f) = Spawned p /\
     e = raised l /\
     (failure_of p t = Some l \/
      failure_of p t = None /\ loads_fails (completion_of p t) = Some l)).
Proof.
  destruct (probe_cases w f t ov verify)
    as [(p & Hs & Hp & E)|(e' & E & He & _)]; rewrite E in Hraise;
    cbn [snd] in Hraise; [|left; congruence].
  pose proof (probe_after_start (command_line ov f) p t) as Ha.
  destruct (failure_of p t) as [l|] eqn:Hfail.
  { right; right. exists p, l. rewrite Ha in Hraise. injection Hraise as <-.
    split; [exact Hp|]. split; [reflexivity|]. left. exact Hfail. }
  rewrite Ha in Hraise.
  pose proof (probe_finish_cases (command_line ov f) (completion_of p t)) as Hf.
  destruct (loads_fails (completion_of p t)) as [l|] eqn:Hl.
  { right; right. exists p, l. rewrite Hf in Hraise. injection Hraise as <-.
    split; [exact Hp|]. split; [reflexivity|]. right. split; assumption. }
  destruct (outs_json (completion_of p t)) as [j|] eqn:Hj;
    [|left; rewrite Hf in Hraise; injection Hraise as <-; reflexivity].
  destruct (Z.eqb_spec (returncode (completion_of p t)) 0) as [Hz|Hnz];
    [|left; rewrite Hf in Hraise; injection Hraise as <-; reflexivity].
  rewrite Hf in Hraise.
  destruct (FFprobe_init_error_cases _ _ _ Hraise) as [Hi|Hi].
  - left. destruct e; try discriminate; reflexivity.
  - right; left. split; [exact Hi|]. exists p, j.
    split; [exact Hp|]. split; [exact Hfail|]. split; [split; assumption|].
    split; [exact Hz|].
    destruct (probe_json_ok j) eqn:Hok; [|reflexivity].
    assert (Hacc : exists md, FFprobe_init (command_line ov f) j = Ok md).
    { apply FFprobe_init_ok_iff. split; [apply command_line_length|exact Hok]. }
    destruct Hacc as [md Hmd]. congruence.
Qed.

(** The three exceptions of the constructors are reached: a stream that
    is a number, streams that are a number, a bit rate of 1 followed by
    400 zeros.  And where [communicate] refuses a timeout that is not a
    number, its [ValueError] leaves [probe] after the process was
    started. *)
Lemma probe_raises_witness :
  snd (probe (world_with (PDict [("streams", PList [PInt 5])])) "a.mp3"
         default_timeout None true) = Raise AttributeError /\
  snd (probe (world_with (PDict [("streams", PInt 5)])) "a.mp3"
         default_timeout None true) = Raise TypeError /\
  snd (probe (world_with (PDict [("format", PDict [("bit_rate", PInt (10 ^ 400))])]))
         "a.mp3" default_timeout None true) = Raise OverflowError /\
  probe nan_world "a.mp3" (PFloat S754_nan) None true =
    ([EvSpawn (command_line None "a.mp3")], Raise ValueError) /\
  (is_FFprobeError ValueError = true \/
   ((ValueError = TypeError \/ ValueError = AttributeError \/
     ValueError = OverflowError) /\
    exists p j,
      popen nan_world (command_line None "a.mp3") = Spawned p /\
      failure_of p (PFloat S754_nan) = None /\
      parses_to (completion_of p (PFloat S754_nan)) j /\
      returncode (completion_of p (PFloat S754_nan)) = 0 /\
      probe_json_ok j = false) \/
   (exists p l,
      popen nan_world (command_line None "a.mp3") = Spawned p /\
      ValueError = raised l /\
      (failure_of p (PFloat S754_nan) = Some l \/
       failure_of p (PFloat S754_nan) = None /\
       loads_fails (completion_of p (PFloat S754_nan)) = Some l))).
Proof.
  split; [reflexivity|]. split; [reflexivity|]. split; [vm_compute; reflexivity|].
  split; [reflexivity|].
  apply (probe_raises nan_world "a.mp3" (PFloat S754_nan) None true ValueError).
  reflexivity.
Defined.

(** X5.  [probe] raises [FFprobeMediaFileError] in one situation only, and
    always in it: the override (if any) exists, the timeout is accepted,
    the check of the media file is asked for, the name does not look like
    a URI and no such file exists.  The error carries the name. *)
Theorem probe_media_file_check (w : os_world) (f : string) (t : value)
    (ov : option string) (verify : bool) (path : string) :
  snd (probe w f t ov verify) = Raise (FFprobeMediaFileError path) <->
  path = f /\ override_ok w ov /\ check_communicate_timeout t = Ok tt /\
  verify = true /\ looks_like_uri f = false /\ isfile w f = false.
Proof.
  unfold probe.
  pose proof (probe_prepare_cases w f t ov verify) as Hp.
  destruct (probe_prepare w f t ov verify) as [[cmd name]|e].
  - destruct Hp as (Hov & Ht & Hm & -> & ->). split.
    + intros H. exfalso.
      destruct (popen w (command_line ov f)) as [p| | | |]; try discriminate H.
      rewrite communicate_timed_out in H. cbn [snd] in H.
      pose proof (probe_after_start (command_line ov f) p t) as Ha.
      destruct (failure_of p t) as [l|];
        [rewrite Ha in H; destruct l; discriminate H|].
      rewrite Ha in H.
      pose proof (probe_finish_cases (command_line ov f) (completion_of p t)) as Hf.
      destruct (loads_fails (completion_of p t)) as [l|];
        [rewrite Hf in H; destruct l; discriminate H|].
      destruct (outs_json (completion_of p t)) as [j|]; [|congruence].
      destruct (returncode (completion_of p t) =? 0); [|congruence].
      rewrite Hf in H. apply FFprobe_init_error_cases in H.
      destruct H as [H|[H|[H|H]]]; discriminate H.
    + intros (_ & _ & _ & -> & Hu & Hi). unfold media_ok in Hm.
      rewrite Hu, Hi in Hm. discriminate.
  - cbn [snd]. split.
    + intros H. injection H as ->.
      destruct Hp as [(c & _ & _ & Hc)|[(_ & Ht)|(Hov & Ht & Hm & He)]].
      * discriminate.
      * apply check_communicate_timeout_error in Ht as (pr & Ht). discriminate.
      * injection He as ->. unfold media_ok in Hm.
        destruct verify; cbn [negb orb] in Hm; [|discriminate].
        apply orb_false_iff in Hm as [Hu Hi]. repeat split; assumption.
    + intros (-> & Hov & Ht & -> & Hu & Hi).
      destruct Hp as [(c & -> & Hc & _)|[(_ & Ht')|(_ & _ & _ & ->)]].
      * cbn in Hov. congruence.
      * congruence.
      * reflexivity.
Qed.

(** A missing local file is reported; the same name behind [http://] goes
    to the prober. *)
Lemma probe_media_file_check_witness :
  snd (probe bare_world "a.mp3" default_timeout None true) =
    Raise (FFprobeMediaFileError "a.mp3") /\
  exists md,
    snd (probe bare_world "http://host/a.mp3" default_timeout None true) = Ok md.
Proof.
  split.
  - apply (probe_media_file_check bare_world "a.mp3" default_timeout None true
             "a.mp3").
    repeat split.
  - eexists. reflexivity.
Defined.

Lemma Forall2_impl {A B} (P Q : A -> B -> Prop) (l : list A) (l' : list B) :
  (forall x y, P x y -> Q x y) -> Forall2 P l l' -> Forall2 Q l l'.
Proof. intros H. induction 1; constructor; auto. Qed.

(** ** The content of a probe result *)

Lemma FFchapter_init_wraps (j : value) (c : FFchapter) :
  FFchapter_init j = Ok c -> chapter_wraps j c.
Proof.
  intros H. pose proof (FFchapter_init_cases j) as Hc.
  destruct j as [| | | | | | |d]; try congruence.
  destruct Hc as (c' & Hc' & Hd & Hi & Ht).
  assert (c' = c) by congruence. subst c'.
  unfold chapter_wraps. rewrite Hd. auto.
Qed.

Lemma FFprobe_init_inv (cmd : list string) (pj : value) (md : FFprobe) :
  FFprobe_init cmd pj = Ok md ->
  exists sj cj,
    FFformat_init (dict_get (probe_json md) "format" (PDict [])) = Ok (format md) /\
    iterate (dict_get (probe_json md) "streams" (PList [])) = Ok sj /\
    mapM _construct_ffstream_subclass sj = Ok (streams md) /\
    iterate (dict_get (probe_json md) "chapters" (PList [])) = Ok cj /\
    mapM FFchapter_init cj = Ok (chapters md) /\
    attachment md = filter (fun s => is_attachment (base s)) (streams md) /\
    audio md = filter (fun s => is_audio (base s)) (streams md) /\
    subtitle md = filter (fun s => is_subtitle (base s)) (streams md) /\
    video md = filter (fun s => is_video (base s)) (streams md).
Proof.
  intros H.
  assert (Hacc : exists md, FFprobe_init cmd pj = Ok md) by eauto.
  apply FFprobe_init_ok_iff in Hacc as [Hge Hok].
  destruct pj as [| | | | | | |d]; try discriminate.
  rewrite (FFprobe_init_unfold cmd d Hge) in H.
  apply bind_ok_inv in H as (fmt & Efmt & H).
  apply bind_ok_inv in H as (sj & Esj & H).
  apply bind_ok_inv in H as (ss & Ess & H).
  apply bind_ok_inv in H as (cj & Ecj & H).
  apply bind_ok_inv in H as (cs & Ecs & H).
  injection H as <-. exists sj, cj. cbn. repeat split; assumption.
Qed.

(** X7.  An [FFprobe] object wraps the dictionary it was built from; its
    format wraps the entry ["format"]; its streams wrap the elements of
    ["streams"], one for one and in their order, each with the class of
    its codec type; its chapters wrap the elements of ["chapters"] in the
    same way, the title of a chapter being the ["title"] of its ["tags"]
    dictionary and [None] without one. *)
Theorem FFprobe_init_wraps (cmd : list string) (pj : value) (md : FFprobe)
    (Hok : FFprobe_init cmd pj = Ok md) :
  pj = PDict (probe_json md) /\
  dict_get (probe_json md) "format" (PDict []) = PDict (format_json (format md)) /\
  exists sj cj,
    iterate (dict_get (probe_json md) "streams" (PList [])) = Ok sj /\
    Forall2 wraps sj (streams md) /\
    iterate (dict_get (probe_json md) "chapters" (PList [])) = Ok cj /\
    Forall2 chapter_wraps cj (chapters md).
Proof.
  destruct (FFprobe_init_attributes _ _ _ Hok) as (Hpj & _).
  destruct (FFprobe_init_inv _ _ _ Hok)
    as (sj & cj & Hf & Hsj & Hss & Hcj & Hcs & _).
  split; [exact Hpj|]. split.
  - pose proof (FFformat_init_any (dict_get (probe_json md) "format" (PDict []))) as H.
    destruct (format_json_ok _).
    + destruct H as (fmt & Hfmt & Hd & _). congruence.
    + destruct H; congruence.
  - exists sj, cj. split; [exact Hsj|]. split.
    + apply mapM_Forall2 in Hss.
      exact (Forall2_impl _ _ _ _ construct_wraps Hss).
    + split; [exact Hcj|]. apply mapM_Forall2 in Hcs.
      exact (Forall2_impl _ _ _ _ FFchapter_init_wraps Hcs).
Qed.

(** A video stream and a data stream give an [FFvideoStream] and a plain
    [FFstream]; the chapter has its title. *)
Lemma FFprobe_init_wraps_witness :
  exists md,
    FFprobe_init ["ffprobe"; "a.mkv"] two_streams_json = Ok md /\
    map class_name (streams md) = ["FFvideoStream"; "FFstream"] /\
    map chapter_title (chapters md) = [PStr "Intro"] /\
    exists sj cj,
      iterate (dict_get (probe_json md) "streams" (PList [])) = Ok sj /\
      Forall2 wraps sj (streams md) /\
      iterate (dict_get (probe_json md) "chapters" (PList [])) = Ok cj /\
      Forall2 chapter_wraps cj (chapters md).
Proof.
  destruct (FFprobe_init ["ffprobe"; "a.mkv"] two_streams_json) as [md|e] eqn:E;
    [|discriminate E].
  exists md. split; [reflexivity|].
  destruct (FFprobe_init_wraps ["ffprobe"; "a.mkv"] two_streams_json md E)
    as (_ & _ & H).
  injection E as <-. split; [reflexivity|]. split; [reflexivity|]. exact H.
Defined.

Lemma class_for_attachment (c : value) :
  (class_for c =? "FFattachmentStream")%string = eq_str c "attachment".
Proof.
  unfold class_for.
  destruct (eq_str c "attachment") eqn:E1; [reflexivity|].
  destruct (eq_str c "audio"); [reflexivity|].
  destruct (eq_str c "subtitle"); [reflexivity|].
  destruct (eq_str c "video"); reflexivity.
Qed.

Lemma eq_str_exclusive (c : value) (a b : string) :
  a <> b -> eq_str c a = true -> eq_str c b = false.
Proof.
  intros N. destruct c; cbn; try discriminate.
  intros H. apply String.eqb_eq in H. subst. apply String.eqb_neq. exact N.
Qed.

Lemma class_for_audio (c : value) :
  (class_for c =? "FFaudioStream")%string = eq_str c "audio".
Proof.
  unfold class_for.
  destruct (eq_str c "attachment") eqn:E1.
  { rewrite (eq_str_exclusive c "attachment" "audio") by (assumption || discriminate).
    reflexivity. }
  destruct (eq_str c "audio"); [reflexivity|].
  destruct (eq_str c "subtitle"); [reflexivity|].
  destruct (eq_str c "video"); reflexivity.
Qed.

Lemma class_for_subtitle (c : value) :
  (class_for c =? "FFsubtitleStream")%string = eq_str c "subtitle".
Proof.
  unfold class_for.
  destruct (eq_str c "attachment") eqn:E1.
  { rewrite (eq_str_exclusive c "attachment" "subtitle") by (assumption || discriminate).
    reflexivity. }
  destruct (eq_str c "audio") eqn:E2.
  { rewrite (eq_str_exclusive c "audio" "subtitle") by (assumption || discriminate).
    reflexivity. }
  destruct (eq_str c "subtitle"); [reflexivity|].
  destruct (eq_str c "video"); reflexivity.
Qed.

Lemma class_for_video (c : value) :
  (class_for c =? "FFvideoStream")%string = eq_str c "video".
Proof.
  unfold class_for.
  destruct (eq_str c "attachment") eqn:E1.
  { rewrite (eq_str_exclusive c "attachment" "video") by (assumption || discriminate).
    reflexivity. }
  destruct (eq_str c "audio") eqn:E2.
  { rewrite (eq_str_exclusive c "audio" "video") by (assumption || discriminate).
    reflexivity. }
  destruct (eq_str c "subtitle") eqn:E3.
  { rewrite (eq_str_exclusive c "subtitle" "video") by (assumption || discriminate).
    reflexivity. }
  destruct (eq_str c "video"); reflexivity.
Qed.

Lemma filter_ext_Forall {A} (f g : A -> bool) (l : list A) :
  Forall (fun x => f x = g x) l -> filter f l = filter g l.
Proof.
  induction 1 as [|x r Hx _ IH]; [reflexivity|].
  cbn. rewrite Hx, IH. reflexivity.
Qed.

Lemma class_partition (l : list stream) :
  List.length l =
    (List.length (filter (in_class "FFattachmentStream") l) +
     List.length (filter (in_class "FFaudioStream") l) +
     List.length (filter (in_class "FFsubtitleStream") l) +
     List.length (filter (in_class "FFvideoStream") l) +
     List.length (filter (in_class "FFstream") l))%nat.
Proof.
  induction l as [|s r IH]; [reflexivity|].
  cbn [filter List.length]. rewrite IH.
  destruct s; cbn; lia.
Qed.

(** X8.  In an [FFprobe] object the lists [attachment], [audio],
    [subtitle] and [video] hold exactly the stream objects of the classes
    [FFattachmentStream], [FFaudioStream], [FFsubtitleStream] and
    [FFvideoStream], in the order of [streams]; every stream is in
    exactly one of these lists or is a plain [FFstream]. *)
Theorem FFprobe_init_kinds (cmd : list string) (pj : value) (md : FFprobe)
    (Hok : FFprobe_init cmd pj = Ok md) :
  attachment md = filter (in_class "FFattachmentStream") (streams md) /\
  audio md = filter (in_class "FFaudioStream") (streams md) /\
  subtitle md = filter (in_class "FFsubtitleStream") (streams md) /\
  video md = filter (in_class "FFvideoStream") (streams md) /\
  List.length (streams md) =
    (List.length (attachment md) + List.length (audio md) +
     List.length (subtitle md) + List.length (video md) +
     List.length (filter (in_class "FFstream") (streams md)))%nat.
Proof.
  destruct (FFprobe_init_inv _ _ _ Hok)
    as (sj & cj & _ & _ & Hss & _ & _ & Hat & Hau & Hsu & Hvi).
  assert (Hc : Forall (fun s => class_name s = class_for (codec_type (base s)))
                 (streams md)).
  { apply (mapM_Forall _ _ _ _ (fun x y H => proj1 (proj2 (construct_wraps x y H))) Hss). }
  assert (H1 : attachment md = filter (in_class "FFattachmentStream") (streams md)).
  { rewrite Hat. apply filter_ext_Forall.
    apply (Forall_impl _ (P := fun s => class_name s = class_for (codec_type (base s))));
      [|exact Hc].
    intros s Hs. unfold in_class, is_attachment. rewrite Hs.
    symmetry. apply class_for_attachment. }
  assert (H2 : audio md = filter (in_class "FFaudioStream") (streams md)).
  { rewrite Hau. apply filter_ext_Forall.
    apply (Forall_impl _ (P := fun s => class_name s = class_for (codec_type (base s))));
      [|exact Hc].
    intros s Hs. unfold in_class, is_audio. rewrite Hs.
    symmetry. apply class_for_audio. }
  assert (H3 : subtitle md = filter (in_class "FFsubtitleStream") (streams md)).
  { rewrite Hsu. apply filter_ext_Forall.
    apply (Forall_impl _ (P := fun s => class_name s = class_for (codec_type (base s))));
      [|exact Hc].
    intros s Hs. unfold in_class, is_subtitle. rewrite Hs.
    symmetry. apply class_for_subtitle. }
  assert (H4 : video md = filter (in_class "FFvideoStream") (streams md)).
  { rewrite Hvi. apply filter_ext_Forall.
    apply (Forall_impl _ (P := fun s => class_name s = class_for (codec_type (base s))));
      [|exact Hc].
    intros s Hs. unfold in_class, is_video. rewrite Hs.
    symmetry. apply class_for_video. }
  repeat split; try assumption.
  rewrite H1, H2, H3, H4. apply class_partition.
Qed.

(** Of a video stream and a data stream, only the first is in a list. *)
Lemma FFprobe_init_kinds_witness :
  exists md,
    FFprobe_init ["ffprobe"; "a.mkv"] two_streams_json = Ok md /\
    map class_name (video md) = ["FFvideoStream"] /\
    audio md = [] /\
    video md = filter (in_class "FFvideoStream") (streams md).
Proof.
  destruct (FFprobe_init ["ffprobe"; "a.mkv"] two_streams_json) as [md|e] eqn:E;
    [|discriminate E].
  exists md. split; [reflexivity|].
  destruct (FFprobe_init_kinds ["ffprobe"; "a.mkv"] two_streams_json md E)
    as (_ & _ & _ & H & _).
  injection E as <-. split; [reflexivity|]. split; [reflexivity|]. exact H.
Defined.

(** X9.  The attributes that the constructors derive have the types their
    documentation gives: in an [FFformat] the duration in seconds and the
    bit rate in kb/s are a [float] or [None], the number of streams, the
    bit rate and the size are an [int] or [None], the two texts a [str]
    or [None]; likewise for the attributes of [FFstream], [FFaudioStream]
    and [FFvideoStream].  The bit rate in kb/s is [None] exactly when the
    bit rate is. *)
Theorem derived_attribute_types (pj : value) :
  (forall fmt, FFformat_init pj = Ok fmt -> format_typed fmt) /\
  (forall s, FFstream_init pj = Ok s -> none_or is_float (duration_secs s) = true) /\
  (forall a, FFaudioStream_init pj = Ok a -> audio_typed a) /\
  (forall v, FFvideoStream_init pj = Ok v -> video_typed v).
Proof.
  split; [|split; [|split]].
  - intros fmt H. pose proof (FFformat_init_any pj) as Hf.
    destruct (format_json_ok pj).
    + destruct Hf as (fmt' & H' & _ & Ht). congruence.
    + destruct Hf; congruence.
  - intros s H. destruct (FFstream_init_inv pj s H) as (d & -> & _).
    destruct (FFstream_init_cases d) as (s' & H' & _ & _ & Ht). congruence.
  - intros a H.
    assert (Hc := FFaudioStream_init_inv pj a H).
    unfold FFaudioStream_init in H.
    apply bind_ok_inv in H as (s & Hs & H).
    destruct (FFstream_init_inv pj s Hs) as (d & -> & Hd & Hct).
    fold (FFaudioStream_init (PDict d)) in *.
    assert (Hcd : codec_of d = PStr "audio").
    { apply bind_ok_inv in H as (u & Hu & H).
      apply require_codec_type_inv in Hu. congruence. }
    pose proof (FFaudioStream_init_cases d Hcd) as Ha.
    assert (E : FFaudioStream_init (PDict d) = Ok a).
    { unfold FFaudioStream_init. rewrite Hs. exact H. }
    destruct (bit_rate_fits d); [|congruence].
    destruct Ha as (a' & Ha' & _ & _ & Ht). congruence.
  - intros v H.
    unfold FFvideoStream_init in H.
    apply bind_ok_inv in H as (s & Hs & H).
    destruct (FFstream_init_inv pj s Hs) as (d & -> & Hd & Hct).
    assert (Hcd : codec_of d = PStr "video").
    { apply bind_ok_inv in H as (u & Hu & H).
      apply require_codec_type_inv in Hu. congruence. }
    pose proof (FFvideoStream_init_cases d Hcd) as Ha.
    assert (E : FFvideoStream_init (PDict d) = Ok v).
    { unfold FFvideoStream_init. rewrite Hs. exact H. }
    destruct (bit_rate_fits d); [|congruence].
    destruct Ha as (a' & Ha' & _ & _ & Ht & _). congruence.
Qed.

(** A format with a duration of 3854.8 s, a bit rate of 128000 and a size
    that is not a number. *)
Lemma derived_attribute_types_witness :
  exists fmt,
    FFformat_init sample_format_json = Ok fmt /\
    format_bit_rate_bps fmt = PInt 128000 /\
    format_bit_rate_kbps fmt = PFloat (F64.of_Z 128) /\
    duration_human fmt = PStr "01:04:14.80" /\
    size_B fmt = PNone /\ size_human fmt = PNone /\
    format_typed fmt.
Proof.
  destruct (FFformat_init sample_format_json) as [fmt|e] eqn:E;
    [|vm_compute in E; discriminate E].
  exists fmt.
  pose proof (proj1 (derived_attribute_types sample_format_json) fmt E) as H.
  vm_compute in E. injection E as <-.
  do 6 (split; [reflexivity|]). exact H.
Defined.

(** ** The bit rate and the constructors *)

(** Rounding a mantissa of at least 53 bits gives a finite number when
    the exponent after the shift leaves room for one carry. *)
Lemma binary_round_aux_finite (s : bool) (m e : Z) (l : location) :
  2 ^ 52 <= m -> emin64 <= e ->
  e + (Zdigits2 m - 53) + 1 <= F64.emax - F64.prec ->
  exists m2 e2, binary_round_aux F64.prec F64.emax s m e l = S754_finite s m2 e2.
Proof.
  intros Hm He Hroom. unfold binary_round_aux.
  destruct (shr_fexp_normal m e l Hm He) as [He1 Hm1].
  pose proof (Zdigits2_ge m Hm) as Hd.
  destruct (shr_fexp F64.prec F64.emax m e l) as [mrs' e1]. cbn [fst snd] in *.
  set (r1 := round_nearest_even (shr_m mrs') (loc_of_shr_record mrs')).
  assert (Hr1 : 2 ^ 52 <= r1 <= 2 ^ 53).
  { pose proof (round_nearest_even_ge (shr_m mrs') (loc_of_shr_record mrs')).
    pose proof (round_nearest_even_le (shr_m mrs') (loc_of_shr_record mrs')).
    unfold r1. lia. }
  assert (He1' : emin64 <= e1) by lia.
  destruct (shr_fexp_normal r1 e1 loc_Exact (proj1 Hr1) He1') as [He2 Hm2].
  assert (Hd1 : Zdigits2 r1 <= 54).
  { destruct (Z.eq_dec r1 (2 ^ 53)) as [E|N].
    - rewrite (Zdigits2_unique r1 54); [lia| |lia].
      rewrite E. change (54 - 1) with 53. split; [lia|].
      apply Z.pow_lt_mono_r; lia.
    - rewrite (Zdigits2_unique r1 53); [lia| |lia].
      change (53 - 1) with 52. lia. }
  destruct (shr_fexp F64.prec F64.emax r1 e1 loc_Exact) as [mrs'' e2].
  cbn [fst snd] in *.
  destruct (shr_m mrs'') as [|m2|m2]; try lia.
  destruct (Z.leb_spec e2 (F64.emax - F64.prec)) as [Hle|Hgt]; [|lia].
  exists m2, e2. reflexivity.
Qed.

(** The float of an integer below [2^1023] in magnitude is finite; from
    [2^1024] on it is an infinity. *)
Lemma round_integer_range (s : bool) (p : positive) :
  (Z.pos p < 2 ^ 1023 ->
   exists m e, binary_round F64.prec F64.emax s p 0 = S754_finite s m e) /\
  (2 ^ 1024 <= Z.pos p ->
   binary_round F64.prec F64.emax s p 0 = S754_infinity s).
Proof.
  unfold binary_round, shl_align.
  pose proof (digits2_pos_bounds p) as [Blo Bhi].
  set (dg := Z.pos (digits2_pos p)) in *.
  assert (Hdg : Zdigits2 (Z.pos p) = dg) by reflexivity.
  assert (Hf : fexp F64.prec F64.emax (dg + 0) - 0 = dg - 53).
  { unfold fexp, emin, F64.prec, F64.emax. lia. }
  rewrite Hf.
  assert (Hfe : fexp F64.prec F64.emax (dg + 0) = dg - 53).
  { unfold fexp, emin, F64.prec, F64.emax. lia. }
  assert (Hsmall : Z.pos p < 2 ^ 1023 -> dg <= 1023).
  { intros H. destruct (Z.le_gt_cases dg 1023) as [|Hgt]; [assumption|].
    assert (2 ^ 1023 <= 2 ^ (dg - 1)) by (apply Z.pow_le_mono_r; lia). lia. }
  assert (Hbig : 2 ^ 1024 <= Z.pos p -> 1025 <= dg).
  { intros H. destruct (Z.le_gt_cases 1025 dg) as [|Hlt]; [assumption|].
    assert (2 ^ dg <= 2 ^ 1024) by (apply Z.pow_le_mono_r; lia). lia. }
  destruct (dg - 53) as [|n|n] eqn:E.
  - assert (Hp : 2 ^ 52 <= Z.pos p).
    { replace dg with 53 in Blo by lia. exact Blo. }
    split.
    + intros H. apply binary_round_aux_finite;
        [exact Hp|unfold emin64, emin; simpl; lia|].
      rewrite Hdg. unfold F64.emax, F64.prec. lia.
    + intros H. apply Hbig in H. lia.
  - assert (Hp : 2 ^ 52 <= Z.pos p).
    { apply Z.le_trans with (2 ^ (dg - 1)); [|exact Blo].
      apply Z.pow_le_mono_r; lia. }
    split.
    + intros H. apply Hsmall in H. apply binary_round_aux_finite;
        [exact Hp|unfold emin64, emin; simpl; lia|].
      rewrite Hdg. unfold F64.emax, F64.prec. lia.
    + intros H. apply Hbig in H.
      destruct (binary_round_aux_normal s (Z.pos p) 0 loc_Exact Hp)
        as [(m & e & _ & _ & He & He')|Hinf];
        [unfold emin64, emin; simpl; lia| |exact Hinf].
      rewrite Hdg in He. unfold F64.emax, F64.prec in He'. lia.
  - rewrite Hfe.
    assert (Hmz : 2 ^ 52 <= Z.pos (Pos.iter xO p n) < 2 ^ 53).
    { rewrite Pos_iter_xO.
      replace 52 with ((dg - 1) + Z.pos n) by lia.
      replace 53 with (dg + Z.pos n) by lia.
      rewrite !Z.pow_add_r by lia.
      assert (0 < 2 ^ Z.pos n) by (apply Z.pow_pos_nonneg; lia).
      split; [apply Z.mul_le_mono_nonneg_r; lia | apply Z.mul_lt_mono_pos_r; lia]. }
    split.
    + intros _. apply binary_round_aux_finite;
        [exact (proj1 Hmz)|unfold emin64, emin; simpl; lia|].
      rewrite (Zdigits2_unique (Z.pos (Pos.iter xO p n)) 53)
        by (change (53 - 1) with 52; lia).
      unfold F64.emax, F64.prec. lia.
    + intros H. apply Hbig in H. lia.
Qed.

Lemma of_Z_range (n : Z) :
  (Z.abs n < 2 ^ 1023 -> F64.is_inf (F64.of_Z n) = false) /\
  (2 ^ 1024 <= Z.abs n -> F64.is_inf (F64.of_Z n) = true).
Proof.
  unfold F64.of_Z, binary_normalize.
  destruct n as [|p|p].
  - split; [reflexivity|]. cbn. intros H. exfalso.
    assert (0 < 2 ^ 1024) by (apply Z.pow_pos_nonneg; lia). lia.
  - destruct (round_integer_range false p) as [Hs Hb]. split.
    + intros H. destruct (Hs H) as (m & e & ->). reflexivity.
    + intros H. rewrite (Hb H). reflexivity.
  - destruct (round_integer_range true p) as [Hs Hb]. split.
    + intros H. destruct (Hs H) as (m & e & ->). reflexivity.
    + intros H. rewrite (Hb H). reflexivity.
Qed.

(** X10.  The constructors convert the bit rate to a [float] under a
    handler for [TypeError] and [ValueError] only.  So [FFformat] on a
    dictionary returns an object when the bit rate has a float, and
    raises [OverflowError] when it has none; an audio or a video stream
    with such a bit rate makes the stream constructor raise
    [OverflowError] too.  A bit rate that is absent or unreadable has a
    float (the attribute is then [None]); one that reads as an integer
    has a float when its magnitude is below 2^1023 and has none from
    2^1024 on. *)
Theorem bit_rate_overflow (d : dict) :
  (bit_rate_fits d = true -> exists fmt, FFformat_init (PDict d) = Ok fmt) /\
  (bit_rate_fits d = false ->
     FFformat_init (PDict d) = Raise OverflowError /\
     (codec_of d = PStr "audio" ->
      _construct_ffstream_subclass (PDict d) = Raise OverflowError) /\
     (codec_of d = PStr "video" ->
      _construct_ffstream_subclass (PDict d) = Raise OverflowError)) /\
  (ParsedJson.get_as_int d (PStr "bit_rate") PNone = Ok PNone ->
     bit_rate_fits d = true) /\
  (forall n,
     ParsedJson.get_as_int d (PStr "bit_rate") PNone = Ok (PInt n) ->
     (Z.abs n < 2 ^ 1023 -> bit_rate_fits d = true) /\
     (2 ^ 1024 <= Z.abs n -> bit_rate_fits d = false)).
Proof.
  pose proof (FFformat_init_cases d) as Hf.
  split; [|split; [|split]].
  - intros E. rewrite E in Hf. destruct Hf as (fmt & Hfmt & _). eauto.
  - intros E. rewrite E in Hf. split; [exact Hf|]. split.
    + intros Hc. pose proof (construct_cases (PDict d)) as H.
      cbn [stream_json_ok] in H. rewrite Hc, E in H. exact H.
    + intros Hc. pose proof (construct_cases (PDict d)) as H.
      cbn [stream_json_ok] in H. rewrite Hc, E in H. exact H.
  - intros E. unfold bit_rate_fits. rewrite E. reflexivity.
  - intros n E. unfold bit_rate_fits. rewrite E.
    destruct (of_Z_range n) as [Hs Hb]. split; intros H.
    + rewrite (Hs H). reflexivity.
    + rewrite (Hb H). reflexivity.
Qed.

(** A bit rate of 1 followed by 400 zeros, as text, and of 2^1024; an
    ordinary bit rate. *)
Lemma bit_rate_overflow_witness :
  FFformat_init (PDict [("bit_rate", PStr (Text.string_of_Z (10 ^ 400)))]) =
    Raise OverflowError /\
  _construct_ffstream_subclass
    (PDict [("codec_type", PStr "audio"); ("bit_rate", PInt (2 ^ 1024))]) =
    Raise OverflowError /\
  exists fmt, FFformat_init (PDict [("bit_rate", PStr "128000")]) = Ok fmt.
Proof.
  split; [|split].
  - apply (bit_rate_overflow [("bit_rate", PStr (Text.string_of_Z (10 ^ 400)))]).
    vm_compute. reflexivity.
  - destruct (bit_rate_overflow
                [("codec_type", PStr "audio"); ("bit_rate", PInt (2 ^ 1024))])
      as (_ & H & _).
    assert (E : bit_rate_fits
                  [("codec_type", PStr "audio"); ("bit_rate", PInt (2 ^ 1024))] =
                false) by (vm_compute; reflexivity).
    destruct (H E) as (_ & Ha & _). apply Ha. reflexivity.
  - apply (bit_rate_overflow [("bit_rate", PStr "128000")]).
    vm_compute. reflexivity.
Defined.

(** ** Rotation, shape and side data of a video stream *)

Lemma subscript_rotation (e : value) :
  match rotation_of e with
  | Some r => subscript_str e "rotation" = Ok r
  | None => raises (subscript_str e "rotation")
  end.
Proof.
  destruct e as [| | | | | | |d]; cbn; try (eexists; reflexivity).
  destruct (assoc "rotation" d); [reflexivity|eexists; reflexivity].
Qed.

Lemma mapM_rotations (ds : list value) :
  if forallb has_rotation ds
  then exists rs, mapM (fun d => subscript_str d "rotation") ds = Ok rs /\
                  List.length rs = List.length ds /\
                  forall e rest, ds = e :: rest -> rotation_of e = Some (hd PNone rs)
  else raises (mapM (fun d => subscript_str d "rotation") ds).
Proof.
  induction ds as [|e r IH].
  - cbn. exists []. repeat split. discriminate.
  - cbn [forallb mapM]. unfold has_rotation at 1.
    pose proof (subscript_rotation e) as He.
    destruct (rotation_of e) as [x|] eqn:Ex; cbn [andb].
    + rewrite He. cbn [bind]. destruct (forallb has_rotation r).
      * destruct IH as (rs & -> & Hl & _). cbn [bind].
        exists (x :: rs). split; [reflexivity|]. split; [cbn; congruence|].
        intros e' rest E. injection E as <- <-. exact Ex.
      * apply bind_raises. exact IH.
    + apply bind_raises. exact He.
Qed.

Lemma frame_rotation_default (self : FFvideoStream) (default : value) :
  side_data_list self = PNone \/
  (exists ds, side_data_list self = PList ds /\ forallb has_rotation ds = false) ->
  get_frame_rotation self default = Ok default.
Proof.
  unfold get_frame_rotation, get_frame_rotation_body.
  intros [-> | (ds & -> & Hf)]; [reflexivity|].
  cbn [iterate bind]. pose proof (mapM_rotations ds) as H. rewrite Hf in H.
  apply try_except_raises. apply bind_raises. exact H.
Qed.

(** X11.  [get_frame_rotation] returns the rotation of the first entry of
    the side data when the side data is a list and every entry of it is a
    dictionary with a rotation.  It returns the default when there is no
    side data, when the list is empty, and as soon as one entry, even a
    later one, is without a rotation. *)
Theorem get_frame_rotation_first (self : FFvideoStream) (default : value) :
  (side_data_list self = PNone -> get_frame_rotation self default = Ok default) /\
  (forall ds,
     side_data_list self = PList ds ->
     (ds = [] -> get_frame_rotation self default = Ok default) /\
     (forallb has_rotation ds = false ->
      get_frame_rotation self default = Ok default) /\
     (forall e rest r,
        ds = e :: rest -> forallb has_rotation ds = true ->
        rotation_of e = Some r ->
        get_frame_rotation self default = Ok r)).
Proof.
  unfold get_frame_rotation, get_frame_rotation_body. split.
  - intros ->. reflexivity.
  - intros ds ->. cbn [iterate bind].
    pose proof (mapM_rotations ds) as H. split; [|split].
    + intros ->. reflexivity.
    + intros E. rewrite E in H. apply try_except_raises. apply bind_raises. exact H.
    + intros e rest r -> E Hr. rewrite E in H.
      destruct H as (rs & -> & Hl & Hhd). cbn [bind].
      specialize (Hhd e rest eq_refl). rewrite Hr in Hhd. injection Hhd as Hhd.
      destruct rs as [|x rs]; [discriminate Hl|]. cbn in Hhd. subst x. reflexivity.
Qed.

(** One entry with a rotation; the same followed by an entry of another
    kind. *)
Lemma get_frame_rotation_first_witness :
  get_frame_rotation
    (rotated_video (PList [PDict [("side_data_type", PStr "Display Matrix");
                                  ("rotation", PInt (-90))]])) PNone =
    Ok (PInt (-90)) /\
  get_frame_rotation
    (rotated_video (PList [PDict [("rotation", PInt (-90))];
                           PDict [("side_data_type", PStr "Stereo 3D")]])) PNone =
    Ok PNone.
Proof.
  split.
  - destruct (get_frame_rotation_first
                (rotated_video (PList [PDict [("side_data_type", PStr "Display Matrix");
                                              ("rotation", PInt (-90))]])) PNone)
      as (_ & H).
    destruct (H _ eq_refl) as (_ & _ & H3).
    apply (H3 _ _ _ eq_refl); reflexivity.
  - destruct (get_frame_rotation_first
                (rotated_video (PList [PDict [("rotation", PInt (-90))];
                                       PDict [("side_data_type", PStr "Stereo 3D")]]))
                PNone)
      as (_ & H).
    destruct (H _ eq_refl) as (_ & H2 & _).
    apply H2. reflexivity.
Defined.

Section Shape.

Variable str_format : string -> value -> result value.

(** X12.  For a video stream whose width and height are integers,
    [get_frame_shape] returns (height, width) when the rotation that
    [get_frame_rotation] finds (0 by default) is, modulo 360, 90 or 270,
    and (width, height) for every other integer rotation.  The modulo is
    that of Python, so a rotation of 90 or 270 plus any multiple of 360,
    negative ones included, turns the shape, and multiples of 180 do not.
    Without side data, or with an entry without rotation, the shape is
    (width, height). *)
Theorem get_frame_shape_turned (self : FFvideoStream) (default : value) (w h : Z)
    (Hw : width self = PInt w) (Hh : height self = PInt h) :
  (forall r, get_frame_rotation self (PInt 0) = Ok (PInt r) ->
     get_frame_shape str_format self default =
       Ok (PTuple (if quarter_turn r then [PInt h; PInt w] else [PInt w; PInt h]))) /\
  (forall k, quarter_turn (360 * k + 90) = true /\
             quarter_turn (360 * k + 270) = true /\
             quarter_turn (360 * k) = false /\ quarter_turn (360 * k + 180) = false) /\
  (side_data_list self = PNone ->
     get_frame_shape str_format self default = Ok (PTuple [PInt w; PInt h])) /\
  (forall ds, side_data_list self = PList ds -> forallb has_rotation ds = false ->
     get_frame_shape str_format self default = Ok (PTuple [PInt w; PInt h])).
Proof.
  assert (Hgen : forall r, get_frame_rotation self (PInt 0) = Ok (PInt r) ->
            get_frame_shape str_format self default =
              Ok (PTuple (if quarter_turn r then [PInt h; PInt w]
                          else [PInt w; PInt h]))).
  { intros r Hr. unfold get_frame_shape, get_frame_shape_body.
    rewrite Hw, Hh. cbn [int_ bind]. rewrite Hr. cbn [bind mod_360 eq_int].
    unfold quarter_turn. destruct ((r mod 360 =? 90) || (r mod 360 =? 270));
      reflexivity. }
  split; [exact Hgen|]. split; [|split].
  - intros k. unfold quarter_turn.
    replace (360 * k + 90) with (90 + k * 360) by ring.
    replace (360 * k + 270) with (270 + k * 360) by ring.
    replace (360 * k + 180) with (180 + k * 360) by ring.
    replace (360 * k) with (0 + k * 360) by ring.
    rewrite !Z.mod_add by lia. repeat split; reflexivity.
  - intros Hs.
    rewrite (Hgen 0); [reflexivity|].
    apply frame_rotation_default. left. exact Hs.
  - intros ds Hs Hf.
    rewrite (Hgen 0); [reflexivity|].
    apply frame_rotation_default. right. exists ds. split; assumption.
Qed.

End Shape.

(** A rotation of -90 turns a frame of 1920 by 1080; no side data leaves
    it. *)
Lemma get_frame_shape_turned_witness :
  get_frame_shape no_str_format
    (rotated_video (PList [PDict [("rotation", PInt (-90))]])) PNone =
    Ok (PTuple [PInt 1080; PInt 1920]) /\
  get_frame_shape no_str_format (rotated_video PNone) PNone =
    Ok (PTuple [PInt 1920; PInt 1080]).
Proof.
  split.
  - destruct (get_frame_shape_turned no_str_format
                (rotated_video (PList [PDict [("rotation", PInt (-90))]])) PNone
                1920 1080 eq_refl eq_refl) as (H & _).
    exact (H (-90) eq_refl).
  - destruct (get_frame_shape_turned no_str_format (rotated_video PNone) PNone
                1920 1080 eq_refl eq_refl) as (_ & _ & H & _).
    exact (H eq_refl).
Defined.

Lemma get_side_data_internal_none (self : FFvideoStream) :
  side_data_list self = PNone ->
  get_side_data self true = (set_side_data_list self (PList []), Ok (PList [])).
Proof. intros E. unfold get_side_data. rewrite E. reflexivity. Qed.

Lemma get_side_data_internal_some (self : FFvideoStream) :
  side_data_list self <> PNone ->
  get_side_data self true = (self, Ok (side_data_list self)).
Proof.
  intros N. unfold get_side_data.
  destruct (side_data_list self) eqn:E; cbv zeta; rewrite ?E; try reflexivity.
  congruence.
Qed.

Lemma get_side_data_external (self : FFvideoStream) :
  get_side_data self false =
    (self, match side_data_list self with
           | PNone => Ok (PList [])
           | l => slice_all l
           end).
Proof. reflexivity. Qed.

(** X13.  [get_side_data], for a stream whose side data is absent, returns
    an empty list, and stores it in the object in the internal case only;
    for side data that is a list it returns that list and leaves the
    object as it is.  No other attribute changes, the external case
    changes nothing at all, after an internal call the side data is never
    [None] and a second internal call changes nothing more; the rotation
    that [get_frame_rotation] reports is the same before and after. *)
Theorem get_side_data_list (self : FFvideoStream) (internal : bool) :
  let after := fst (get_side_data self internal) in
  (side_data_list self = PNone ->
     snd (get_side_data self internal) = Ok (PList []) /\
     side_data_list after = (if internal then PList [] else PNone)) /\
  (forall l, side_data_list self = PList l ->
     get_side_data self internal = (self, Ok (PList l))) /\
  (video_base after = video_base self /\ width after = width self /\
   height after = height self /\ avg_frame_rate after = avg_frame_rate self /\
   r_frame_rate after = r_frame_rate self /\
   video_num_frames after = video_num_frames self /\
   video_bit_rate_bps after = video_bit_rate_bps self /\
   video_bit_rate_kbps after = video_bit_rate_kbps self) /\
  (internal = false -> after = self) /\
  (internal = true -> side_data_list after <> PNone /\
                      get_side_data after true = (after, Ok (side_data_list after))) /\
  (forall default,
     get_frame_rotation after default = get_frame_rotation self default).
Proof.
  cbv zeta. destruct internal.
  - assert (Hn : side_data_list self = PNone \/ side_data_list self <> PNone).
    { destruct (side_data_list self); auto; right; discriminate. }
    destruct Hn as [E|N].
    + rewrite (get_side_data_internal_none self E). cbn [fst snd].
      split; [intros _; split; reflexivity|].
      split; [intros l H; congruence|].
      split; [repeat split|].
      split; [discriminate|].
      split.
      * intros _. split; [discriminate|].
        apply get_side_data_internal_some. discriminate.
      * intros default. unfold get_frame_rotation, get_frame_rotation_body.
        cbn [set_side_data_list side_data_list]. rewrite E. reflexivity.
    + rewrite (get_side_data_internal_some self N). cbn [fst snd].
      split; [intros H; congruence|].
      split; [intros l H; rewrite H; reflexivity|].
      split; [repeat split|].
      split; [discriminate|].
      split; [|reflexivity].
      intros _. split; [exact N|].
      apply get_side_data_internal_some. exact N.
  - rewrite get_side_data_external. cbn [fst snd].
    split; [intros E; rewrite E; split; reflexivity|].
    split; [intros l H; rewrite H; reflexivity|].
    split; [repeat split|].
    split; [reflexivity|].
    split; [discriminate|reflexivity].
Qed.

(** Absent side data, outside and inside; a list of one entry. *)
Lemma get_side_data_list_witness :
  snd (get_side_data (rotated_video PNone) false) = Ok (PList []) /\
  side_data_list (fst (get_side_data (rotated_video PNone) true)) = PList [] /\
  get_side_data (rotated_video (PList [PDict [("rotation", PInt 90)]])) false =
    (rotated_video (PList [PDict [("rotation", PInt 90)]]),
     Ok (PList [PDict [("rotation", PInt 90)]])).
Proof.
  split; [|split].
  - destruct (get_side_data_list (rotated_video PNone) false) as (H & _).
    exact (proj1 (H eq_refl)).
  - destruct (get_side_data_list (rotated_video PNone) true) as (H & _).
    exact (proj2 (H eq_refl)).
  - destruct (get_side_data_list
                (rotated_video (PList [PDict [("rotation", PInt 90)]])) false)
      as (_ & H & _).
    exact (H _ eq_refl).
Defined.

(** ** The files of a library *)

Lemma prefix_app (sub b : string) : String.prefix sub (sub ++ b) = true.
Proof.
  induction sub as [|c sub IH]; cbn.
  - destruct b; reflexivity.
  - destruct (Ascii.ascii_dec c c) as [_|N]; [exact IH|contradiction].
Qed.

Lemma prefix_inv (sub s : string) :
  String.prefix sub s = true -> exists b, s = (sub ++ b)%string.
Proof.
  revert s. induction sub as [|c sub IH]; intros s H.
  - exists s. reflexivity.
  - destruct s as [|c' s]; cbn in H; [discriminate|].
    destruct (Ascii.ascii_dec c c') as [->|N]; [|discriminate].
    destruct (IH s H) as (b & ->). exists b. reflexivity.
Qed.

Lemma str_contains_iff (sub s : string) :
  str_contains sub s = true <-> exists a b, s = (a ++ sub ++ b)%string.
Proof.
  split.
  - induction s as [|c s IH]; cbn [str_contains]; intros H.
    + rewrite orb_false_r in H. apply prefix_inv in H as (b & ->).
      exists "", b. reflexivity.
    + apply orb_true_iff in H as [H|H].
      * apply prefix_inv in H as (b & ->). exists "", b. reflexivity.
      * destruct (IH H) as (a & b & ->). exists (String c a), b. reflexivity.
  - intros (a & b & ->). induction a as [|c a IH].
    + cbn [String.append]. destruct (sub ++ b)%string eqn:E.
      * cbn [str_contains]. rewrite <- E, prefix_app. reflexivity.
      * cbn [str_contains]. rewrite <- E, prefix_app. reflexivity.
    + cbn [String.append str_contains]. rewrite IH. apply orb_true_r.
Qed.

Lemma is_music_file_iff (file : string) :
  is_music_file file = true <->
  exists a ext b, In ext music_extensions /\ file = (a ++ ext ++ b)%string.
Proof.
  unfold is_music_file. rewrite !orb_true_iff, !str_contains_iff. split.
  - intros [[(a & b & ->)|(a & b & ->)]|(a & b & ->)].
    + exists a, ".flac", b. cbn. auto.
    + exists a, ".opus", b. cbn. auto.
    + exists a, ".mp3", b. cbn. auto.
  - intros (a & ext & b & Hin & ->).
    destruct Hin as [<-|[<-|[<-|[]]]]; eauto.
Qed.

Lemma inner_loop (r : string) (f : list string) (files : list string) :
  fold_left
    (fun files file =>
       if is_music_file file then (files ++ [path_join r file])%list else files)
    f files =
  (files ++ map (path_join r) (filter is_music_file f))%list.
Proof.
  revert files. induction f as [|file f IH]; intros files; cbn [fold_left filter map].
  - rewrite app_nil_r. reflexivity.
  - rewrite IH. destruct (is_music_file file); [|reflexivity].
    cbn [map]. rewrite <- app_assoc. reflexivity.
Qed.

Lemma outer_loop (l : list (string * list string * list string))
    (files : list string) :
  fold_left
    (fun files rdf =>
       let '(r, d, f) := rdf in
       fold_left
         (fun files file =>
            if is_music_file file then (files ++ [path_join r file])%list
            else files)
         f files)
    l files =
  (files ++ flat_map music_files_of l)%list.
Proof.
  revert files. induction l as [|[[r d] f] l IH]; intros files;
    cbn [fold_left flat_map].
  - rewrite app_nil_r. reflexivity.
  - rewrite inner_loop, IH. cbn [music_files_of]. rewrite app_assoc. reflexivity.
Qed.

(** X14.  [GetAllMusicFiles] returns, in the order of the walk, the joined
    paths of the files whose name contains [.flac], [.opus] or [.mp3]:
    a path is in the result exactly when it is the directory of a triple
    of the walk joined with a file name of that triple in which one of
    the three texts occurs, at any place.  The join puts one [/] between
    a directory that does not end with [/] and the name. *)
Theorem GetAllMusicFiles_selects
    (walk : string -> list (string * list string * list string))
    (root_dir : string) :
  GetAllMusicFiles walk root_dir = flat_map music_files_of (walk root_dir) /\
  (forall p,
     In p (GetAllMusicFiles walk root_dir) <->
     exists r d f a ext b,
       In (r, d, f) (walk root_dir) /\ In (a ++ ext ++ b)%string f /\
       In ext music_extensions /\ p = path_join r (a ++ ext ++ b)%string) /\
  (forall r name,
     r <> "" -> ends_with_sep r = false -> String.prefix "/" name = false ->
     path_join r name = (r ++ "/" ++ name)%string).
Proof.
  assert (E : GetAllMusicFiles walk root_dir =
              flat_map music_files_of (walk root_dir)).
  { unfold GetAllMusicFiles. rewrite outer_loop. reflexivity. }
  split; [exact E|]. split.
  - intros p. rewrite E, in_flat_map. split.
    + intros ([[r d] f] & Hin & Hp). cbn [music_files_of] in Hp.
      apply in_map_iff in Hp as (file & <- & Hf).
      apply filter_In in Hf as [Hf Hm].
      apply is_music_file_iff in Hm as (a & ext & b & Hext & ->).
      exists r, d, f, a, ext, b. auto.
    + intros (r & d & f & a & ext & b & Hin & Hf & Hext & ->).
      exists (r, d, f). split; [exact Hin|]. cbn [music_files_of].
      apply in_map. apply filter_In. split; [exact Hf|].
      apply is_music_file_iff. eauto.
  - intros r name Hr Hs Hp. unfold path_join. rewrite Hp, Hs.
    destruct (String.eqb_spec r ""); [contradiction|reflexivity].
Qed.

(** A backup whose name contains [.mp3] is selected; an upper-case [.MP3]
    is not. *)
Lemma GetAllMusicFiles_selects_witness :
  GetAllMusicFiles sample_walk "music" =
    ["music/a.flac"; "music/b.mp3.bak"; "music/live/c.opus"] /\
  In "music/b.mp3.bak" (GetAllMusicFiles sample_walk "music").
Proof.
  split; [reflexivity|].
  apply (GetAllMusicFiles_selects sample_walk "music").
  exists "music", ["live"], ["a.flac"; "cover.jpg"; "b.mp3.bak"; "C.MP3"],
    "b", ".mp3", ".bak".
  cbn. repeat split; auto.
Defined.

(** ** The answers of the catalog *)

Lemma known_keys_iff (fd : dict) :
  forallb (fun kv => existsb (String.eqb (fst kv)) ISRCMetadata_fields) fd = true <->
  (forall k, In k (map fst fd) -> In k ISRCMetadata_fields).
Proof.
  rewrite forallb_forall. split.
  - intros H k Hk. apply in_map_iff in Hk as (kv & <- & Hkv).
    specialize (H kv Hkv). apply existsb_exists in H as (x & Hx & E).
    apply String.eqb_eq in E. congruence.
  - intros H kv Hkv. apply existsb_exists. exists (fst kv).
    split; [apply H, in_map, Hkv|apply String.eqb_refl].
Qed.

Lemma ISRCMetadata_of_cases (first : value) :
  match first with
  | PDict fd =>
      (exactly_the_fields fd /\ ISRCMetadata_of first = Ok (record_of fd)) \/
      (~ exactly_the_fields fd /\ ISRCMetadata_of first = Raise TypeError)
  | _ => ISRCMetadata_of first = Raise TypeError
  end.
Proof.
  destruct first as [| | | | | | |fd]; try reflexivity.
  unfold ISRCMetadata_of, exactly_the_fields.
  destruct (forallb _ fd) eqn:Ek.
  - pose proof (proj1 (known_keys_iff fd) Ek) as Hkeys. clear Ek.
    destruct (assoc "duration" fd) as [v1|] eqn:E1.
    2:{ right. split; [|reflexivity]. intros [_ H].
        apply (H "duration"); [cbn; auto|exact E1]. }
    destruct (assoc "recordingVersion" fd) as [v2|] eqn:E2.
    2:{ right. split; [|reflexivity]. intros [_ H].
        apply (H "recordingVersion"); [cbn; auto 11|exact E2]. }
    destruct (assoc "isValidIsrc" fd) as [v3|] eqn:E3.
    2:{ right. split; [|reflexivity]. intros [_ H].
        apply (H "isValidIsrc"); [cbn; auto 11|exact E3]. }
    destruct (assoc "recordingYear" fd) as [v4|] eqn:E4.
    2:{ right. split; [|reflexivity]. intros [_ H].
        apply (H "recordingYear"); [cbn; auto 11|exact E4]. }
    destruct (assoc "recordingArtistName" fd) as [v5|] eqn:E5.
    2:{ right. split; [|reflexivity]. intros [_ H].
        apply (H "recordingArtistName"); [cbn; auto 11|exact E5]. }
    destruct (assoc "isExplicit" fd) as [v6|] eqn:E6.
    2:{ right. split; [|reflexivity]. intros [_ H].
        apply (H "isExplicit"); [cbn; auto 11|exact E6]. }
    destruct (assoc "isrc" fd) as [v7|] eqn:E7.
    2:{ right. split; [|reflexivity]. intros [_ H].
        apply (H "isrc"); [cbn; auto 11|exact E7]. }
    destruct (assoc "isrcFailureCode" fd) as [v8|] eqn:E8.
    2:{ right. split; [|reflexivity]. intros [_ H].
        apply (H "isrcFailureCode"); [cbn; auto 11|exact E8]. }
    destruct (assoc "recordingTitle" fd) as [v9|] eqn:E9.
    2:{ right. split; [|reflexivity]. intros [_ H].
        apply (H "recordingTitle"); [cbn; auto 11|exact E9]. }
    destruct (assoc "id" fd) as [v10|] eqn:E10.
    2:{ right. split; [|reflexivity]. intros [_ H].
        apply (H "id"); [cbn; auto 11|exact E10]. }
    left. split.
    + split; [exact Hkeys|]. intros k Hk.
      cbn in Hk. destruct Hk as [<-|[<-|[<-|[<-|[<-|[<-|[<-|[<-|[<-|[<-|[]]]]]]]]]]];
        congruence.
    + unfold record_of, dict_get.
      rewrite E1, E2, E3, E4, E5, E6, E7, E8, E9, E10. reflexivity.
  - right. split; [|reflexivity]. intros [H _].
    pose proof (proj2 (known_keys_iff fd) H). congruence.
Qed.

Lemma GetISRCMetadata_first (d : dict) (first : value) (rest : list value)
    (song : SongMetadata) :
  assoc "recordings" d = Some (PList (first :: rest)) ->
  GetISRCMetadata (Response (Some (PDict d))) song =
    (m <- ISRCMetadata_of first ;; Ok (Some m)).
Proof.
  intros H. unfold GetISRCMetadata. cbn [subscript_str].
  rewrite dict_getitem_str, H. cbn [bind len List.length].
  destruct (Z.eqb_spec (Z.of_nat (S (List.length rest))) 0) as [E|_]; [lia|].
  reflexivity.
Qed.

(** X15.  When the answer of the lookup has a list of matches that is not
    empty, [GetISRCMetadata] depends on the first match alone.  It
    returns the record of its ten entries when the first match is a
    dictionary with the ten fields as its keys, no more and no fewer.
    It raises [TypeError] otherwise: a key that is not a field, a field
    without entry, a match that is not a dictionary. *)
Theorem GetISRCMetadata_first_record (d : dict) (first : value) (rest : list value)
    (song : SongMetadata)
    (Hrec : assoc "recordings" d = Some (PList (first :: rest))) :
  let answer := GetISRCMetadata (Response (Some (PDict d))) song in
  (forall fd, first = PDict fd -> exactly_the_fields fd ->
     answer = Ok (Some (record_of fd))) /\
  (forall fd, first = PDict fd -> ~ exactly_the_fields fd ->
     answer = Raise TypeError) /\
  (forall fd k, first = PDict fd -> In k (map fst fd) ->
     ~ In k ISRCMetadata_fields -> answer = Raise TypeError) /\
  (forall fd k, first = PDict fd -> In k ISRCMetadata_fields ->
     assoc k fd = None -> answer = Raise TypeError) /\
  ((forall fd, first <> PDict fd) -> answer = Raise TypeError).
Proof.
  cbv zeta. rewrite (GetISRCMetadata_first d first rest song Hrec).
  pose proof (ISRCMetadata_of_cases first) as H.
  assert (Hbad : forall fd, first = PDict fd -> ~ exactly_the_fields fd ->
            (m <- ISRCMetadata_of first ;; Ok (Some m)) = Raise TypeError).
  { intros fd -> Hn. destruct H as [[Hy _]|[_ ->]]; [contradiction|reflexivity]. }
  split; [|split; [|split; [|split]]].
  - intros fd -> Hy. destruct H as [[_ ->]|[Hn _]]; [reflexivity|contradiction].
  - exact Hbad.
  - intros fd k E Hk Hn. apply (Hbad fd E). intros [Hy _]. exact (Hn (Hy k Hk)).
  - intros fd k E Hk Hn. apply (Hbad fd E). intros [_ Hy]. exact (Hy k Hk Hn).
  - intros Hn. destruct first; try (rewrite H; reflexivity).
    elim (Hn d0). reflexivity.
Qed.

(** A complete first match, whatever follows it; a match with a key
    ["label"]. *)
Lemma GetISRCMetadata_first_record_witness :
  GetISRCMetadata
    (Response (Some (PDict [("recordings", PList [catalog_record; PInt 7])])))
    tagged_data = Ok (Some (record_of
      [("duration", PStr "180"); ("recordingVersion", PStr "");
       ("isValidIsrc", PStr "True"); ("recordingYear", PStr "2020");
       ("recordingArtistName", PStr "A"); ("isExplicit", PStr "True");
       ("isrc", PStr "X1"); ("isrcFailureCode", PStr "");
       ("recordingTitle", PStr "T"); ("id", PStr "1")])) /\
  GetISRCMetadata
    (Response (Some (PDict [("recordings",
                             PList [PDict [("isrc", PStr "X1");
                                           ("label", PStr "L")]])])))
    tagged_data = Raise TypeError.
Proof.
  split.
  - destruct (GetISRCMetadata_first_record
                [("recordings", PList [catalog_record; PInt 7])]
                catalog_record [PInt 7] tagged_data eq_refl) as (H & _).
    apply (H _ eq_refl). split.
    + intros k Hk. exact Hk.
    + intros k Hk. cbn in Hk.
      destruct Hk as [<-|[<-|[<-|[<-|[<-|[<-|[<-|[<-|[<-|[<-|[]]]]]]]]]]];
        discriminate.
  - destruct (GetISRCMetadata_first_record
                [("recordings", PList [PDict [("isrc", PStr "X1");
                                              ("label", PStr "L")]])]
                (PDict [("isrc", PStr "X1"); ("label", PStr "L")]) []
                tagged_data eq_refl) as (_ & _ & H & _).
    apply (H _ "label" eq_refl); [cbn; auto|].
    cbn. intros Hk.
    destruct Hk as [Hk|[Hk|[Hk|[Hk|[Hk|[Hk|[Hk|[Hk|[Hk|[Hk|[]]]]]]]]]]];
      discriminate Hk.
Defined.

Lemma flag_of_record (r : value) :
  match explicit_flag r with
  | Some v => (v <- subscript_str r "isExplicit" ;; Ok (eq_str v "True")) =
              Ok (flagged_explicit r)
  | None => raises (v <- subscript_str r "isExplicit" ;; Ok (eq_str v "True"))
  end.
Proof.
  unfold flagged_explicit.
  destruct r as [| | | | | | |rd]; cbn; try (eexists; reflexivity).
  destruct (assoc "isExplicit" rd) as [v|]; cbn; [|eexists; reflexivity].
  destruct v; reflexivity.
Qed.

Lemma mapM_flags (recs : list value) :
  if forallb has_flag recs
  then mapM (fun rec => v <- subscript_str rec "isExplicit" ;;
                        Ok (eq_str v "True")) recs =
       Ok (map flagged_explicit recs)
  else raises (mapM (fun rec => v <- subscript_str rec "isExplicit" ;;
                               Ok (eq_str v "True")) recs).
Proof.
  induction recs as [|r recs IH]; [reflexivity|].
  cbn [forallb mapM map]. unfold has_flag at 1.
  pose proof (flag_of_record r) as Hr.
  destruct (explicit_flag r); cbn [andb].
  - rewrite Hr. cbn [bind]. destruct (forallb has_flag recs).
    + rewrite IH. reflexivity.
    + apply bind_raises. exact IH.
  - apply bind_raises. exact Hr.
Qed.

Lemma existsb_map_id {A} (f : A -> bool) (l : list A) :
  existsb (fun b => b) (map f l) = existsb f l.
Proof. induction l as [|x l IH]; cbn; congruence. Qed.

Lemma any_explicit_cases (d : dict) (recs : list value) :
  assoc "recordings" d = Some (PList recs) ->
  if forallb has_flag recs
  then any_explicit (PDict d) = Ok (existsb flagged_explicit recs)
  else raises (any_explicit (PDict d)).
Proof.
  intros Hrec.
  assert (E : any_explicit (PDict d) =
              (flags <- mapM (fun rec => v <- subscript_str rec "isExplicit" ;;
                                         Ok (eq_str v "True")) recs ;;
               Ok (existsb (fun b => b) flags))).
  { unfold any_explicit. cbn [subscript_str]. rewrite dict_getitem_str, Hrec.
    reflexivity. }
  pose proof (mapM_flags recs) as H. rewrite E.
  destruct (forallb has_flag recs).
  - rewrite H. cbn [bind]. rewrite existsb_map_id. reflexivity.
  - apply bind_raises. exact H.
Qed.

(** X16.  [DoesExplicitVersionExist], when the catalog answers the search
    with an object that has a list of matches, looks at every match.
    When each match is a dictionary with the key ["isExplicit"], the
    result is whether some match has the text ["True"] there (a JSON
    boolean does not count).  When one match is without the key, the call
    raises, also when an earlier match is explicit.  No match gives
    [False]. *)
Theorem DoesExplicitVersionExist_scan (artist title year : value)
    (catalog : value -> http_reply) (song : ISRCMetadata) (d : dict)
    (recs : list value)
    (Hans : catalog (payload_for song) = Response (Some (PDict d)))
    (Hrec : assoc "recordings" d = Some (PList recs)) :
  let answer :=
    snd (DoesExplicitVersionExist (search_template artist title year) catalog song) in
  (forallb has_flag recs = true -> answer = Ok (existsb flagged_explicit recs)) /\
  (forallb has_flag recs = false -> raises answer) /\
  (forall before r after,
     recs = (before ++ r :: after)%list -> explicit_flag r = None ->
     raises answer) /\
  (recs = [] -> answer = Ok false).
Proof.
  cbv zeta. unfold DoesExplicitVersionExist.
  rewrite fill_search_template, Hans. cbn [snd].
  pose proof (any_explicit_cases d recs Hrec) as H.
  split; [|split; [|split]].
  - intros Hf. rewrite Hf in H. exact H.
  - intros Hf. rewrite Hf in H. exact H.
  - intros before r after E Hr.
    assert (Hf : forallb has_flag recs = false).
    { rewrite E, forallb_app. cbn [forallb]. unfold has_flag at 2. rewrite Hr.
      cbn [andb]. apply andb_false_r. }
    rewrite Hf in H. exact H.
  - intros E. rewrite E in H. exact H.
Qed.

(** An explicit second match; a flag that is a boolean; a match without
    flag after an explicit one. *)
Lemma DoesExplicitVersionExist_scan_witness :
  snd (DoesExplicitVersionExist search_payload_initial
         (fun _ => Response (Some (PDict [("recordings",
                     PList [PDict [("isExplicit", PStr "False")];
                            PDict [("isExplicit", PStr "True")]])])))
         (record_of [])) = Ok true /\
  snd (DoesExplicitVersionExist search_payload_initial
         (fun _ => Response (Some (PDict [("recordings",
                     PList [PDict [("isExplicit", PBool true)]])])))
         (record_of [])) = Ok false /\
  raises
    (snd (DoesExplicitVersionExist search_payload_initial
            (fun _ => Response (Some (PDict [("recordings",
                        PList [PDict [("isExplicit", PStr "True")];
                               PDict [("isrc", PStr "X1")]])])))
            (record_of []))).
Proof.
  split; [|split].
  - destruct (DoesExplicitVersionExist_scan (PStr "") (PStr "") (PStr "")
                (fun _ => Response (Some (PDict [("recordings",
                            PList [PDict [("isExplicit", PStr "False")];
                                   PDict [("isExplicit", PStr "True")]])])))
                (record_of []) _ _ eq_refl eq_refl) as (H & _).
    apply H. reflexivity.
  - destruct (DoesExplicitVersionExist_scan (PStr "") (PStr "") (PStr "")
                (fun _ => Response (Some (PDict [("recordings",
                            PList [PDict [("isExplicit", PBool true)]])])))
                (record_of []) _ _ eq_refl eq_refl) as (H & _).
    apply H. reflexivity.
  - destruct (DoesExplicitVersionExist_scan (PStr "") (PStr "") (PStr "")
                (fun _ => Response (Some (PDict [("recordings",
                            PList [PDict [("isExplicit", PStr "True")];
                                   PDict [("isrc", PStr "X1")]])])))
                (record_of []) _ _ eq_refl eq_refl) as (_ & H & _).
    apply H. reflexivity.
Defined.

(** ** The loop over the files *)

Lemma subseq_nil_l {A} (l : list A) : subseq [] l.
Proof. induction l; constructor; assumption. Qed.

Lemma scan_streams_path (l : list stream) (path : string) (data : SongMetadata) :
  scan_streams l path = Some data -> FilePath data = path.
Proof.
  induction l as [|s l IH]; cbn [scan_streams]; [discriminate|].
  destruct (as_FFaudioStream s) as [a|]; [|exact IH].
  destruct (dict_getitem _ _); [|discriminate].
  intros H. injection H as <-. reflexivity.
Qed.

Lemma GetTrackMetaData_path (w : os_world) (song : string) (data : SongMetadata) :
  GetTrackMetaData w song = Some data -> FilePath data = song.
Proof.
  unfold GetTrackMetaData. destruct (snd (probe_default w song)); [|discriminate].
  apply scan_streams_path.
Qed.

Lemma insert_params_row (data : SongMetadata) (md : ISRCMetadata) (b : bool)
    (r : row) :
  mapM bind_param (insert_params data md b) = Ok r ->
  row_of_file (FilePath data) r /\
  nth 9 r SqlNull = SqlText (if b then "True" else "False").
Proof.
  intros H. apply mapM_Forall2 in H. unfold insert_params in H.
  repeat match goal with
         | H : Forall2 _ (_ :: _) _ |- _ => inversion H; subst; clear H
         | H : Forall2 _ [] _ |- _ => inversion H; subst; clear H
         end.
  repeat match goal with
         | H : bind_param (PStr _) = Ok _ |- _ => cbn in H; injection H as <-
         | H : bind_param (str_of_bool _) = Ok _ |- _ => cbn in H; injection H as <-
         end.
  unfold row_of_file. cbn. destruct b; auto.
Qed.

Lemma loop_body_step (sleep_ms : Z) (st : state) (song : string) (io : file_io) :
  db (fst (loop_body sleep_ms st song io)) = db st \/
  exists r,
    db (fst (loop_body sleep_ms st song io)) = (db st ++ [r])%list /\
    row_of_file song r /\
    (sleep_ms < 0 -> snd (loop_body sleep_ms st song io) = Raise ValueError).
Proof.
  unfold loop_body.
  destruct (GetTrackMetaData (os io) song) as [data|] eqn:Ed; [|left; reflexivity].
  destruct (bind_param (ISRC data)) as [k|e] eqn:Ek; [|left; reflexivity].
  destruct (select_isrc (db st) k) as [|x xs] eqn:Es;
    cbn [List.length Nat.eqb negb]; [|left; reflexivity].
  destruct (GetISRCMetadata (isrc_catalog io (ISRC data)) data) as [[md|]|e];
    try (left; reflexivity).
  destruct (resolve_explicit (search_payload st) (search_catalog io) md)
    as [payload [b|e]]; [|left; reflexivity].
  destruct (mapM bind_param (insert_params data md b)) as [r|e] eqn:Er;
    [|left; reflexivity].
  right. exists r. apply insert_params_row in Er as [Hrow _].
  rewrite (GetTrackMetaData_path _ _ _ Ed) in Hrow.
  destruct (Z.ltb_spec sleep_ms 0); cbn [fst snd db]; unfold insert_row;
    repeat split; try apply Hrow; try reflexivity; lia.
Qed.

(** X17.  A run of the loop only appends to the table: the rows that were
    there stay, in place; the rows added are rows written for files of
    the run, at most one for a file and in the order of the files; each
    has eleven cells, the path of its file in the last and the text
    [True] or [False] in the one before.  This holds also for a run that
    an exception ends. *)
Theorem main_loop_appends (sleep_ms : Z) (songs : list (string * file_io))
    (st : state) :
  exists kept added,
    subseq kept (map fst songs) /\
    Forall2 row_of_file kept added /\
    db (fst (main_loop sleep_ms st songs)) = (db st ++ added)%list.
Proof.
  revert st. induction songs as [|[song io] rest IH]; intros st.
  - exists [], []. cbn. rewrite app_nil_r. repeat constructor.
  - cbn [main_loop map fst].
    pose proof (loop_body_step sleep_ms st song io) as Hstep.
    destruct (loop_body sleep_ms st song io) as [st' [u|e]]; cbn [fst snd] in Hstep.
    + destruct (IH st') as (kept & added & Hsub & Hrows & Hdb).
      destruct Hstep as [E|(r & E & Hr & _)].
      * exists kept, added. split; [apply subseq_skip; exact Hsub|].
        split; [exact Hrows|]. rewrite Hdb, E. reflexivity.
      * exists (song :: kept), (r :: added).
        split; [apply subseq_take; exact Hsub|].
        split; [constructor; assumption|].
        rewrite Hdb, E, <- app_assoc. reflexivity.
    + cbn [fst]. destruct Hstep as [E|(r & E & Hr & _)].
      * exists [], []. split; [apply subseq_nil_l|]. split; [constructor|].
        rewrite E, app_nil_r. reflexivity.
      * exists [song], [r]. split; [apply subseq_take; apply subseq_nil_l|].
        split; [constructor; [exact Hr|constructor]|exact E].
Qed.

(** A run over two files on a table of one row. *)
Lemma main_loop_appends_witness :
  exists kept added,
    subseq kept ["a.mp3"; "b.mp3"] /\
    Forall2 row_of_file kept added /\
    db (fst (main_loop 1000 x1_state [("a.mp3", found_io); ("b.mp3", found_io)])) =
      (x1_row :: added)%list.
Proof.
  exact (main_loop_appends 1000 [("a.mp3", found_io); ("b.mp3", found_io)] x1_state).
Defined.



(** X19.  For a track that the catalog flags explicit itself (the text
    ["True"]), the loop makes no search: the template of the search
    request keeps its content, the answers of the search play no part in
    the result, and the row that is added holds [True] as the decision. *)
Theorem explicit_track_no_search (sleep_ms : Z) (st : state) (song : string)
    (io : file_io) (data : SongMetadata) (md : ISRCMetadata)
    (Hdata : GetTrackMetaData (os io) song = Some data)
    (Hmeta : GetISRCMetadata (isrc_catalog io (ISRC data)) data = Ok (Some md))
    (Hflag : isExplicit md = PStr "True") :
  search_payload (fst (loop_body sleep_ms st song io)) = search_payload st /\
  (forall catalog,
     loop_body sleep_ms st song (with_search io catalog) =
     loop_body sleep_ms st song io) /\
  (forall r,
     db (fst (loop_body sleep_ms st song io)) = (db st ++ [r])%list ->
     nth 9 r SqlNull = SqlText "True").
Proof.
  assert (Hres : forall catalog,
            resolve_explicit (search_payload st) catalog md =
              (search_payload st, Ok true)).
  { intros catalog. unfold resolve_explicit. rewrite Hflag. reflexivity. }
  assert (Hsame : forall catalog,
            loop_body sleep_ms st song (with_search io catalog) =
            loop_body sleep_ms st song io).
  { intros catalog. unfold loop_body, with_search. cbn [os isrc_catalog search_catalog].
    rewrite Hdata, Hmeta, !Hres. reflexivity. }
  split; [|split; [exact Hsame|]].
  - unfold loop_body. rewrite Hdata, Hmeta, Hres.
    destruct (bind_param (ISRC data)); [|reflexivity].
    destruct (negb _); [reflexivity|].
    destruct (mapM bind_param _); [|reflexivity].
    destruct (sleep_ms <? 0); reflexivity.
  - intros r. unfold loop_body. rewrite Hdata, Hmeta, Hres.
    destruct (bind_param (ISRC data));
      [|cbn [fst db]; intros H; apply (f_equal (@List.length row)) in H;
        rewrite length_app in H; cbn in H; lia].
    destruct (negb _);
      [cbn [fst db]; intros H; apply (f_equal (@List.length row)) in H;
       rewrite length_app in H; cbn in H; lia|].
    destruct (mapM bind_param _) as [r'|e] eqn:Er;
      [|cbn [fst db]; intros H; apply (f_equal (@List.length row)) in H;
        rewrite length_app in H; cbn in H; lia].
    apply insert_params_row in Er as [_ Hr'].
    assert (Hdb : forall res : result unit,
              db (fst ({| db := insert_row (db st) r';
                          search_payload := search_payload st |}, res)) =
              (db st ++ [r'])%list) by reflexivity.
    intros H.
    assert (E : (db st ++ [r'])%list = (db st ++ [r])%list).
    { rewrite <- H. destruct (sleep_ms <? 0); reflexivity. }
    apply app_inv_head in E. injection E as <-. exact Hr'.
Qed.

(** The sample track is flagged explicit: a search catalog that is down
    changes nothing. *)
Lemma explicit_track_no_search_witness :
  search_payload (fst (loop_body 1000 empty_state "a.mp3" found_io)) =
    search_payload_initial /\
  loop_body 1000 empty_state "a.mp3" (with_search found_io (fun _ => NoResponse)) =
    loop_body 1000 empty_state "a.mp3" found_io.
Proof.
  assert (Hd : GetTrackMetaData (os found_io) "a.mp3" = Some tagged_data)
    by reflexivity.
  assert (Hm : GetISRCMetadata (isrc_catalog found_io (ISRC tagged_data)) tagged_data =
               Ok (Some (record_of
                 [("duration", PStr "180"); ("recordingVersion", PStr "");
                  ("isValidIsrc", PStr "True"); ("recordingYear", PStr "2020");
                  ("recordingArtistName", PStr "A"); ("isExplicit", PStr "True");
                  ("isrc", PStr "X1"); ("isrcFailureCode", PStr "");
                  ("recordingTitle", PStr "T"); ("id", PStr "1")])))
    by reflexivity.
  destruct (explicit_track_no_search 1000 empty_state "a.mp3" found_io
              tagged_data _ Hd Hm eq_refl) as (H1 & H2 & _).
  split; [exact H1|exact (H2 _)].
Defined.

Lemma GetTrackMetaData_tags (w : os_world) (song : string) (md : FFprobe)
    (s : stream) (tags : value) :
  snd (probe_default w song) = Ok md ->
  find (fun s => is_audio (base s)) (streams md) = Some s ->
  assoc "tags" (parsed_json (base s)) = Some tags ->
  GetTrackMetaData w song = Some (metadata_of_tags tags song).
Proof.
  intros Hprobe Hfind Htags. unfold GetTrackMetaData. rewrite Hprobe.
  apply probe_ok_inv in Hprobe as (cmd & pj & Hinit).
  rewrite (scan_streams_find (streams md) song (FFprobe_init_streams _ _ _ Hinit)).
  rewrite Hfind, Htags. reflexivity.
Qed.

(** X20.  A file whose first audio stream has tags without an ISRC gets the
    ISRC ["error"], and the loop uses it as a key like any other: when
    the table has a row with the key ["error"] the file is skipped and
    nothing changes; when it has none, a row that is added for the file
    has the key ["error"]. *)
Theorem missing_isrc_shares_key (sleep_ms : Z) (st : state) (song : string)
    (io : file_io) (md : FFprobe) (s : stream) (tags : dict)
    (Hprobe : snd (probe_default (os io) song) = Ok md)
    (Hfind : find (fun s => is_audio (base s)) (streams md) = Some s)
    (Htags : assoc "tags" (parsed_json (base s)) = Some (PDict tags))
    (Hisrc : assoc "ISRC" tags = None) :
  (exists data, GetTrackMetaData (os io) song = Some data /\
                ISRC data = PStr "error") /\
  (select_isrc (db st) (SqlText "error") <> [] ->
     loop_body sleep_ms st song io = (st, Ok tt)) /\
  (select_isrc (db st) (SqlText "error") = [] ->
     forall r, db (fst (loop_body sleep_ms st song io)) = (db st ++ [r])%list ->
               row_isrc r = SqlText "error").
Proof.
  pose proof (GetTrackMetaData_tags _ _ _ _ _ Hprobe Hfind Htags) as Hd.
  assert (Hi : ISRC (metadata_of_tags (PDict tags) song) = PStr "error").
  { cbn. unfold dict_get. rewrite Hisrc. reflexivity. }
  split; [eauto|]. split.
  - intros Hrows. unfold loop_body. rewrite Hd, Hi. cbn [bind_param].
    destruct (select_isrc (db st) (SqlText "error")); [contradiction|reflexivity].
  - intros Hrows r. unfold loop_body. rewrite Hd, Hi. cbn [bind_param].
    rewrite Hrows. cbn [List.length Nat.eqb negb].
    assert (Hno : forall (p : value) (res : result unit),
              db (fst ({| db := db st; search_payload := p |}, res)) =
                (db st ++ [r])%list -> row_isrc r = SqlText "error").
    { intros p res H. cbn in H. apply (f_equal (@List.length row)) in H.
      rewrite length_app in H. cbn in H. lia. }
    assert (Hst : forall res : result unit,
              db (fst (st, res)) = (db st ++ [r])%list ->
              row_isrc r = SqlText "error").
    { intros res H. cbn in H. apply (f_equal (@List.length row)) in H.
      rewrite length_app in H. cbn in H. lia. }
    destruct (GetISRCMetadata _ _) as [[m|]|e]; try apply Hst.
    destruct (resolve_explicit _ _ m) as [payload [b|e]]; [|apply Hno].
    destruct (mapM bind_param (insert_params _ m b)) as [r'|e] eqn:Er; [|apply Hno].
    pose proof (mapM_bind_params_head _ _ _ Er) as Hhd.
    rewrite Hi in Hhd. cbn in Hhd. injection Hhd as Hhd.
    intros H.
    assert (E : (db st ++ [r'])%list = (db st ++ [r])%list).
    { rewrite <- H. destruct (sleep_ms <? 0); reflexivity. }
    apply app_inv_head in E. injection E as <-. congruence.
Qed.

(** A file without ISRC tag is skipped once a row of another such file is
    stored. *)
Lemma missing_isrc_shares_key_witness :
  let st := {| db := [error_row]; search_payload := search_payload_initial |} in
  loop_body 1000 st "a.mp3" untagged_io = (st, Ok tt).
Proof.
  cbv zeta.
  destruct (snd (probe_default (os untagged_io) "a.mp3")) as [md|e] eqn:E;
    [|discriminate E].
  assert (Hs : exists s,
            find (fun s => is_audio (base s)) (streams md) = Some s /\
            assoc "tags" (parsed_json (base s)) =
              Some (PDict [("TITLE", PStr "T"); ("DATE", PStr "2020")])).
  { injection E as <-. eexists. split; reflexivity. }
  destruct Hs as (s & Hf & Ht).
  destruct (missing_isrc_shares_key 1000
              {| db := [error_row]; search_payload := search_payload_initial |}
              "a.mp3" untagged_io md s _ E Hf Ht eq_refl) as (_ & H & _).
  apply H. discriminate.
Defined.

Lemma loop_body_lookup_raises (sleep_ms : Z) (st : state) (song : string)
    (io : file_io) (data : SongMetadata) (k : sql_value) (e : exn) :
  GetTrackMetaData (os io) song = Some data ->
  bind_param (ISRC data) = Ok k ->
  select_isrc (db st) k = [] ->
  GetISRCMetadata (isrc_catalog io (ISRC data)) data = Raise e ->
  loop_body sleep_ms st song io = (st, Raise e).
Proof.
  intros Hdata Hkey Hrows Hans. unfold loop_body.
  rewrite Hdata, Hkey, Hrows. cbn [List.length Nat.eqb negb]. rewrite Hans.
  reflexivity.
Qed.

(** X21.  When a file reaches the lookup and the first match of the answer
    cannot be made a record (it has a key that is not a field, lacks a
    field, or is not a dictionary), the [TypeError] of the constructor
    ends the loop at this file: the state is as before the file and the
    files after it are not processed. *)
Theorem unknown_field_aborts (sleep_ms : Z) (st : state) (song : string)
    (io : file_io) (rest : list (string * file_io)) (data : SongMetadata)
    (k : sql_value) (d : dict) (first : value) (others : list value)
    (Hdata : GetTrackMetaData (os io) song = Some data)
    (Hkey : bind_param (ISRC data) = Ok k)
    (Hrows : select_isrc (db st) k = [])
    (Hans : isrc_catalog io (ISRC data) = Response (Some (PDict d)))
    (Hrec : assoc "recordings" d = Some (PList (first :: others))) :
  (forall fd, first = PDict fd -> ~ exactly_the_fields fd ->
     main_loop sleep_ms st ((song, io) :: rest) = (st, Raise TypeError)) /\
  (forall fd key, first = PDict fd -> In key (map fst fd) ->
     ~ In key ISRCMetadata_fields ->
     main_loop sleep_ms st ((song, io) :: rest) = (st, Raise TypeError)) /\
  ((forall fd, first <> PDict fd) ->
     main_loop sleep_ms st ((song, io) :: rest) = (st, Raise TypeError)).
Proof.
  assert (Hgen : ISRCMetadata_of first = Raise TypeError ->
            main_loop sleep_ms st ((song, io) :: rest) = (st, Raise TypeError)).
  { intros H. apply main_loop_abort.
    apply (loop_body_lookup_raises _ _ _ _ data k); try assumption.
    rewrite Hans, (GetISRCMetadata_first d first others data Hrec), H.
    reflexivity. }
  pose proof (ISRCMetadata_of_cases first) as H.
  assert (Hbad : forall fd, first = PDict fd -> ~ exactly_the_fields fd ->
            main_loop sleep_ms st ((song, io) :: rest) = (st, Raise TypeError)).
  { intros fd E Hn. apply Hgen. rewrite E in H.
    destruct H as [[Hy _]|[_ H]]; [contradiction|]. rewrite E. exact H. }
  split; [exact Hbad|]. split.
  - intros fd key E Hin Hn. apply (Hbad fd E). intros [Hy _]. exact (Hn (Hy key Hin)).
  - intros Hn. apply Hgen. destruct first; try exact H. elim (Hn d0). reflexivity.
Qed.

(** A record with a key ["label"] stops the run before the second file. *)
Lemma unknown_field_aborts_witness :
  main_loop 1000 empty_state [("a.mp3", extended_io); ("b.mp3", found_io)] =
    (empty_state, Raise TypeError).
Proof.
  destruct (unknown_field_aborts 1000 empty_state "a.mp3" extended_io
              [("b.mp3", found_io)] tagged_data (SqlText "X1")
              [("recordings", PList [PDict [("isrc", PStr "X1"); ("label", PStr "L")]])]
              (PDict [("isrc", PStr "X1"); ("label", PStr "L")]) []
              eq_refl eq_refl eq_refl eq_refl eq_refl) as (_ & H & _).
  apply (H _ "label" eq_refl); [cbn; auto|].
  cbn. intros Hk.
  destruct Hk as [Hk|[Hk|[Hk|[Hk|[Hk|[Hk|[Hk|[Hk|[Hk|[Hk|[]]]]]]]]]]];
    discriminate Hk.
Defined.

Lemma GetTrackMetaData_none (w : os_world) (song : string) :
  without_metadata w song -> GetTrackMetaData w song = None.
Proof.
  unfold GetTrackMetaData.
  intros [(e & ->)|(md & Hmd & H)]; [reflexivity|].
  rewrite Hmd.
  apply probe_ok_inv in Hmd as (cmd & pj & Hinit).
  rewrite (scan_streams_find (streams md) song (FFprobe_init_streams _ _ _ Hinit)).
  destruct H as [-> | (s & -> & ->)]; reflexivity.
Qed.

(** X22.  A file whose probe fails with any exception, or that has no
    audio stream, or whose first audio stream has no tags, is skipped:
    the state does not change, the loop goes on with the next file, and
    no answer of the catalog plays a part. *)
Theorem file_without_metadata_skipped (sleep_ms : Z) (st : state) (song : string)
    (io : file_io) (rest : list (string * file_io))
    (Hnone : without_metadata (os io) song) :
  loop_body sleep_ms st song io = (st, Ok tt) /\
  main_loop sleep_ms st ((song, io) :: rest) = main_loop sleep_ms st rest /\
  (forall lookup search,
     loop_body sleep_ms st song
       {| os := os io; isrc_catalog := lookup; search_catalog := search |} =
     (st, Ok tt)).
Proof.
  pose proof (GetTrackMetaData_none _ _ Hnone) as H.
  assert (E : forall lookup search,
            loop_body sleep_ms st song
              {| os := os io; isrc_catalog := lookup; search_catalog := search |} =
            (st, Ok tt)).
  { intros lookup search. unfold loop_body. cbn [os]. rewrite H. reflexivity. }
  assert (E0 : loop_body sleep_ms st song io = (st, Ok tt)).
  { unfold loop_body. rewrite H. reflexivity. }
  split; [exact E0|]. split; [|exact E].
  apply (main_loop_continue _ _ _ _ _ _ tt). exact E0.
Qed.

(** A file that does not exist is passed over. *)
Lemma file_without_metadata_skipped_witness :
  main_loop 1000 empty_state
    [("gone.mp3", {| os := bare_world; isrc_catalog := fun _ => NoResponse;
                     search_catalog := fun _ => NoResponse |});
     ("a.mp3", found_io)] =
  main_loop 1000 empty_state [("a.mp3", found_io)].
Proof.
  apply (file_without_metadata_skipped 1000 empty_state "gone.mp3"
           {| os := bare_world; isrc_catalog := fun _ => NoResponse;
              search_catalog := fun _ => NoResponse |}
           [("a.mp3", found_io)]).
  left. eexists. reflexivity.
Defined.

(** ** The duration as a human reads it *)

Lemma shr_1_even (k : Z) :
  0 <= k ->
  shr_1 {| shr_m := 2 * k; shr_r := false; shr_s := false |} =
    {| shr_m := k; shr_r := false; shr_s := false |}.
Proof. intros Hk. destruct k as [|p|p]; [reflexivity|reflexivity|lia]. Qed.

Lemma iter_pos_shr_1_exact (n : positive) :
  forall k, 0 <= k ->
    iter_pos shr_1 n {| shr_m := 2 ^ Z.pos n * k; shr_r := false; shr_s := false |} =
      {| shr_m := k; shr_r := false; shr_s := false |}.
Proof.
  induction n as [n IH|n IH|]; intros k Hk; cbn [iter_pos].
  - assert (Hp : 0 < 2 ^ Z.pos n) by (apply Z.pow_pos_nonneg; lia).
    replace (2 ^ Z.pos n~1 * k) with (2 * (2 ^ Z.pos n * (2 ^ Z.pos n * k))).
    2:{ rewrite (Pos2Z.inj_xI n).
        replace (2 * Z.pos n + 1) with (1 + Z.pos n + Z.pos n) by lia.
        rewrite !Z.pow_add_r by lia. change (2 ^ 1) with 2. ring. }
    rewrite shr_1_even by nia. rewrite IH by nia. apply IH. exact Hk.
  - assert (Hp : 0 < 2 ^ Z.pos n) by (apply Z.pow_pos_nonneg; lia).
    replace (2 ^ Z.pos n~0 * k) with (2 ^ Z.pos n * (2 ^ Z.pos n * k)).
    2:{ rewrite (Pos2Z.inj_xO n).
        replace (2 * Z.pos n) with (Z.pos n + Z.pos n) by lia.
        rewrite !Z.pow_add_r by lia. ring. }
    rewrite IH by nia. apply IH. exact Hk.
  - change (2 ^ 1) with 2. apply shr_1_even. exact Hk.
Qed.

Lemma fexp_normal (e : Z) :
  emin64 <= e -> fexp F64.prec F64.emax (53 + e) = e.
Proof. unfold fexp, emin64, emin, F64.prec, F64.emax. lia. Qed.

(** Rounding is exact on a mantissa of 53 bits followed by zeros. *)
Lemma round_aux_exact (s : bool) (m : positive) (k e : Z) :
  2 ^ 52 <= Z.pos m < 2 ^ 53 -> 0 <= k ->
  emin64 <= e <= F64.emax - F64.prec ->
  binary_round_aux F64.prec F64.emax s (2 ^ k * Z.pos m) (e - k) loc_Exact =
    S754_finite s m e.
Proof.
  intros Hm Hk He. unfold binary_round_aux.
  assert (Hpk : 0 < 2 ^ k) by (apply Z.pow_pos_nonneg; lia).
  assert (Hd : Zdigits2 (2 ^ k * Z.pos m) = 53 + k).
  { apply Zdigits2_unique; [|lia].
    replace (53 + k - 1) with (k + 52) by lia.
    replace (53 + k) with (k + 53) by lia.
    rewrite !Z.pow_add_r by lia. split; nia. }
  assert (Hs : shr_fexp F64.prec F64.emax (2 ^ k * Z.pos m) (e - k) loc_Exact =
               ({| shr_m := Z.pos m; shr_r := false; shr_s := false |}, e)).
  { unfold shr_fexp. rewrite Hd.
    replace (53 + k + (e - k)) with (53 + e) by lia.
    rewrite fexp_normal by lia. unfold shr. cbn [shr_record_of_loc].
    destruct (e - (e - k)) as [|p|p] eqn:E.
    - assert (k = 0) by lia. subst k. cbn. f_equal. lia.
    - assert (k = Z.pos p) by lia. subst k.
      rewrite iter_pos_shr_1_exact by lia. f_equal. lia.
    - lia. }
  rewrite Hs. cbn [shr_m loc_of_shr_record round_nearest_even].
  assert (Hs2 : shr_fexp F64.prec F64.emax (Z.pos m) e loc_Exact =
                ({| shr_m := Z.pos m; shr_r := false; shr_s := false |}, e)).
  { unfold shr_fexp.
    rewrite (Zdigits2_unique (Z.pos m) 53) by (change (53 - 1) with 52; lia).
    rewrite fexp_normal by lia. rewrite Z.sub_diag. reflexivity. }
  rewrite Hs2. cbn [shr_m].
  destruct (Z.leb_spec e (F64.emax - F64.prec)); [reflexivity|lia].
Qed.

Lemma Zdigits2_bounds (N : Z) :
  0 < N -> 2 ^ (Zdigits2 N - 1) <= N < 2 ^ Zdigits2 N /\ 1 <= Zdigits2 N.
Proof.
  intros H. destruct N as [|p|p]; try lia.
  pose proof (digits2_pos_bounds p). cbn [Zdigits2]. split; [assumption|lia].
Qed.

Lemma Zdigits2_small (N : Z) : 0 < N < 2 ^ 53 -> 1 <= Zdigits2 N <= 53.
Proof.
  intros H. destruct (Zdigits2_bounds N (proj1 H)) as [[Hlo Hhi] H1].
  split; [exact H1|].
  destruct (Z.le_gt_cases (Zdigits2 N) 53) as [|Hgt]; [assumption|].
  assert (2 ^ 53 <= 2 ^ (Zdigits2 N - 1)) by (apply Z.pow_le_mono_r; lia). lia.
Qed.

(** The mantissa of [canon N E]. *)
Lemma canon_mantissa (N : Z) :
  0 < N < 2 ^ 53 ->
  let j := 53 - Zdigits2 N in
  0 <= j /\ 2 ^ 52 <= N * 2 ^ j < 2 ^ 53.
Proof.
  intros H j. pose proof (Zdigits2_small N H) as Hd.
  destruct (Zdigits2_bounds N (proj1 H)) as [[Hlo Hhi] _].
  assert (Hj : 0 <= j) by (unfold j; lia).
  split; [exact Hj|].
  assert (Hp : 0 < 2 ^ j) by (apply Z.pow_pos_nonneg; lia).
  assert (E52 : 2 ^ 52 = 2 ^ (Zdigits2 N - 1) * 2 ^ j).
  { rewrite <- Z.pow_add_r by lia. f_equal. unfold j. lia. }
  assert (E53 : 2 ^ 53 = 2 ^ Zdigits2 N * 2 ^ j).
  { rewrite <- Z.pow_add_r by lia. f_equal. unfold j. lia. }
  rewrite E52, E53. split; nia.
Qed.

Lemma canon_pos (N E : Z) :
  0 < N < 2 ^ 53 ->
  exists m, canon N E = S754_finite false m (E - (53 - Zdigits2 N)) /\
            Z.pos m = N * 2 ^ (53 - Zdigits2 N) /\
            2 ^ 52 <= Z.pos m < 2 ^ 53.
Proof.
  intros H. destruct (canon_mantissa N H) as [Hj Hm].
  destruct N as [|p|p]; try lia. cbn [canon].
  exists (Z.to_pos (Z.pos p * 2 ^ (53 - Zdigits2 (Z.pos p)))).
  rewrite Z2Pos.id by lia. auto.
Qed.

(** Rounding [2^k * N] at the exponent [E - k] gives the float of
    [N * 2^E], when there are at least 53 bits. *)
Lemma round_aux_canon (N k E : Z) :
  0 < N < 2 ^ 53 -> 53 - Zdigits2 N <= k -> -1000 <= E <= 900 ->
  binary_round_aux F64.prec F64.emax false (2 ^ k * N) (E - k) loc_Exact =
    canon N E.
Proof.
  intros HN Hk HE.
  destruct (canon_pos N E HN) as (m & -> & Hm & Hr).
  pose proof (Zdigits2_small N HN) as Hd.
  set (j := 53 - Zdigits2 N) in *.
  replace (2 ^ k * N) with (2 ^ (k - j) * Z.pos m).
  2:{ rewrite Hm. replace k with ((k - j) + j) at 2 by lia.
      rewrite Z.pow_add_r by lia. ring. }
  replace (E - k) with ((E - j) - (k - j)) by lia.
  apply round_aux_exact; [exact Hr|lia|].
  unfold emin64, emin, F64.emax, F64.prec. lia.
Qed.

Lemma Zdigits2_shift (N k : Z) :
  0 < N -> 0 <= k -> Zdigits2 (2 ^ k * N) = Zdigits2 N + k.
Proof.
  intros HN Hk. destruct (Zdigits2_bounds N HN) as [[Hlo Hhi] H1].
  assert (Hp : 0 < 2 ^ k) by (apply Z.pow_pos_nonneg; lia).
  apply Zdigits2_unique; [|lia].
  replace (Zdigits2 N + k - 1) with (k + (Zdigits2 N - 1)) by lia.
  replace (Zdigits2 N + k) with (k + Zdigits2 N) by lia.
  rewrite !Z.pow_add_r by lia. split; nia.
Qed.

(** The float of [2^k * N] at [E - k] is the float of [N] at [E]. *)
Lemma canon_scale (N k E : Z) :
  0 < N -> 0 <= k -> 2 ^ k * N < 2 ^ 53 ->
  canon (2 ^ k * N) (E - k) = canon N E.
Proof.
  intros HN Hk Hlt.
  assert (Hp : 0 < 2 ^ k) by (apply Z.pow_pos_nonneg; lia).
  assert (HN' : 0 < N < 2 ^ 53) by nia.
  assert (HkN : 0 < 2 ^ k * N) by nia.
  pose proof (Zdigits2_shift N k HN Hk) as Hd.
  pose proof (Zdigits2_small (2 ^ k * N) (conj HkN Hlt)) as Hd'.
  destruct (canon_pos (2 ^ k * N) (E - k) (conj HkN Hlt)) as (m1 & -> & Hm1 & _).
  destruct (canon_pos N E HN') as (m2 & -> & Hm2 & _).
  rewrite Hd in *. f_equal; [|lia].
  apply Pos2Z.inj. rewrite Hm1, Hm2.
  replace (53 - Zdigits2 N) with ((53 - (Zdigits2 N + k)) + k) by lia.
  rewrite (Z.pow_add_r _ _ k) by lia. ring.
Qed.

(** Normalisation gives the float of the number, whatever the scale. *)
Lemma normalize_canon (N k E : Z) :
  0 < N < 2 ^ 53 -> 0 <= k -> -1000 <= E <= 900 ->
  binary_normalize F64.prec F64.emax (2 ^ k * N) (E - k) false = canon N E.
Proof.
  intros HN Hk HE.
  assert (Hp : 0 < 2 ^ k) by (apply Z.pow_pos_nonneg; lia).
  pose proof (Zdigits2_small N HN) as Hd.
  pose proof (Zdigits2_shift N k (proj1 HN) Hk) as Hsh.
  destruct (2 ^ k * N) as [|q|q] eqn:E2; try nia.
  cbn [binary_normalize]. unfold binary_round, shl_align.
  change (Z.pos (digits2_pos q)) with (Zdigits2 (Z.pos q)). rewrite Hsh.
  set (d := Zdigits2 N) in *.
  assert (Hf : fexp F64.prec F64.emax (d + k + (E - k)) = d + E - 53).
  { unfold fexp, emin, F64.prec, F64.emax. lia. }
  rewrite Hf.
  destruct (d + E - 53 - (E - k)) as [|n|n] eqn:En.
  - rewrite <- E2. apply round_aux_canon; [exact HN|fold d; lia|exact HE].
  - rewrite <- E2. apply round_aux_canon; [exact HN|fold d; lia|exact HE].
  - rewrite Pos_iter_xO, <- E2.
    replace (2 ^ k * N * 2 ^ Z.pos n) with (2 ^ (k + Z.pos n) * N)
      by (rewrite Z.pow_add_r by lia; ring).
    replace (d + E - 53) with (E - (k + Z.pos n)) by lia.
    apply round_aux_canon; [exact HN|fold d; lia|exact HE].
Qed.

Lemma normalize_canon0 (N E : Z) :
  0 <= N < 2 ^ 53 -> -1000 <= E <= 900 ->
  binary_normalize F64.prec F64.emax N E false = canon N E.
Proof.
  intros HN HE. destruct (Z.eq_dec N 0) as [->|Hn]; [reflexivity|].
  rewrite <- (normalize_canon N 0 E) by lia.
  change (2 ^ 0) with 1. rewrite Z.mul_1_l, Z.sub_0_r. reflexivity.
Qed.

Lemma of_Z_canon (n : Z) : 0 <= n < 2 ^ 53 -> F64.of_Z n = canon n 0.
Proof. intros H. apply normalize_canon0; lia. Qed.

Lemma sixty_canon : ParsedJson.sixty = canon 60 0.
Proof. reflexivity. Qed.

Lemma Zdigits2_mono (a b : Z) : 0 < b <= a -> Zdigits2 b <= Zdigits2 a.
Proof.
  intros H.
  destruct (Zdigits2_bounds a) as [[_ Ha] _]; [lia|].
  destruct (Zdigits2_bounds b) as [[Hb _] Hb1]; [lia|].
  destruct (Z.le_gt_cases (Zdigits2 b) (Zdigits2 a)) as [|Hgt]; [assumption|].
  assert (2 ^ Zdigits2 a <= 2 ^ (Zdigits2 b - 1)) by (apply Z.pow_le_mono_r; lia).
  lia.
Qed.

Lemma shl_align_fst (mx : positive) (ex ez : Z) :
  ez <= ex -> Z.pos (fst (shl_align mx ex ez)) = Z.pos mx * 2 ^ (ex - ez).
Proof.
  intros H. unfold shl_align.
  destruct (ez - ex) as [|d|d] eqn:E; cbn [fst].
  - replace (ex - ez) with 0 by lia. lia.
  - lia.
  - rewrite Pos_iter_xO. f_equal. f_equal. lia.
Qed.

(** Subtraction of two floats of the same scale is exact. *)
Lemma sub_canon (A B E : Z) :
  0 < B <= A -> A < 2 ^ 53 -> -1000 <= E <= 900 ->
  F64.sub (canon A E) (canon B E) = canon (A - B) E.
Proof.
  intros HB HA HE.
  destruct (canon_pos A E) as (mA & -> & HmA & _); [lia|].
  destruct (canon_pos B E) as (mB & -> & HmB & _); [lia|].
  pose proof (Zdigits2_mono A B HB) as Hmono.
  pose proof (Zdigits2_small A ltac:(lia)) as HdA.
  pose proof (Zdigits2_small B ltac:(lia)) as HdB.
  set (jA := 53 - Zdigits2 A) in *. set (jB := 53 - Zdigits2 B) in *.
  unfold F64.sub, SFsub. cbn [cond_Zopp].
  replace (Z.min (E - jA) (E - jB)) with (E - jB) by lia.
  rewrite !shl_align_fst by lia. rewrite HmA, HmB.
  replace (E - jA - (E - jB)) with (jB - jA) by lia.
  rewrite Z.sub_diag. change (2 ^ 0) with 1.
  replace (A * 2 ^ jA * 2 ^ (jB - jA) - B * 2 ^ jB * 1) with (2 ^ jB * (A - B)).
  2:{ assert (EjB : 2 ^ jB = 2 ^ jA * 2 ^ (jB - jA))
        by (rewrite <- Z.pow_add_r by lia; f_equal; lia).
      rewrite EjB. ring. }
  destruct (Z.eq_dec A B) as [->|Hne].
  - rewrite Z.sub_diag, Z.mul_0_r. reflexivity.
  - apply normalize_canon; lia.
Qed.

Lemma sub_canon_zero (A E : Z) :
  0 < A < 2 ^ 53 -> F64.sub (canon A E) (canon 0 E) = canon A E.
Proof.
  intros HA. destruct (canon_pos A E HA) as (m & -> & _). reflexivity.
Qed.

(** Multiplication is exact when the product has at most 53 bits. *)
Lemma mul_canon (A B E : Z) :
  0 < A -> 0 < B -> A * B < 2 ^ 53 -> -1000 <= E <= 900 ->
  F64.mul (canon A E) (canon B 0) = canon (A * B) E.
Proof.
  intros HA HB HAB HE.
  destruct (canon_pos A E) as (mA & -> & HmA & HrA); [nia|].
  destruct (canon_pos B 0) as (mB & -> & HmB & HrB); [nia|].
  pose proof (Zdigits2_small A ltac:(nia)) as HdA.
  pose proof (Zdigits2_small B ltac:(nia)) as HdB.
  set (jA := 53 - Zdigits2 A) in *. set (jB := 53 - Zdigits2 B) in *.
  unfold F64.mul, SFmul. cbn [xorb].
  rewrite Pos2Z.inj_mul, HmA, HmB.
  assert (HpA : 0 < 2 ^ jA) by (apply Z.pow_pos_nonneg; lia).
  assert (HpB : 0 < 2 ^ jB) by (apply Z.pow_pos_nonneg; lia).
  assert (Eq : A * 2 ^ jA * (B * 2 ^ jB) = 2 ^ (jA + jB) * (A * B))
    by (rewrite Z.pow_add_r by lia; ring).
  rewrite Eq. replace (E - jA + (0 - jB)) with (E - (jA + jB)) by lia.
  apply round_aux_canon; [nia| |exact HE].
  assert (53 <= Zdigits2 (2 ^ (jA + jB) * (A * B))).
  { apply Zdigits2_ge. rewrite <- Eq. nia. }
  rewrite Zdigits2_shift in H by nia. lia.
Qed.

Lemma mul_zero_canon (B : Z) :
  0 < B < 2 ^ 53 -> F64.mul (canon 0 0) (canon B 0) = canon 0 0.
Proof.
  intros HB. destruct (canon_pos B 0 HB) as (m & -> & _). reflexivity.
Qed.

(** Division by sixty of a multiple of sixty is exact. *)
Lemma div_canon (q : Z) :
  0 < q -> 60 * q < 2 ^ 53 ->
  F64.div (canon (60 * q) 0) ParsedJson.sixty = canon q 0.
Proof.
  intros Hq Hlt.
  destruct (canon_pos (60 * q) 0) as (m & -> & Hm & Hr); [lia|].
  pose proof (Zdigits2_small (60 * q) ltac:(lia)) as Hd.
  set (j := 53 - Zdigits2 (60 * q)) in *.
  assert (Hp : 0 < 2 ^ j) by (apply Z.pow_pos_nonneg; lia).
  change ParsedJson.sixty with (S754_finite false 8444249301319680 (-47)).
  unfold F64.div, SFdiv, SFdiv_core_binary. cbn [xorb].
  rewrite (Zdigits2_unique (Z.pos m) 53) by (change (53 - 1) with 52; lia).
  change (Zdigits2 8444249301319680) with 53.
  assert (Hf : fexp F64.prec F64.emax (53 + (0 - j) - (53 + -47)) = - j - 6).
  { unfold fexp, emin, F64.prec, F64.emax. lia. }
  rewrite Hf.
  replace (Z.min (- j - 6) (0 - j - -47)) with (- j - 6) by lia.
  replace (0 - j - -47 - (- j - 6)) with 53 by lia.
  rewrite Z.shiftl_mul_pow2 by lia.
  assert (Eq : Z.pos m * 2 ^ 53 = (2 ^ (j + 6) * q) * 8444249301319680).
  { rewrite Hm, Z.pow_add_r by lia.
    change 8444249301319680 with (60 * 2 ^ 47).
    change (2 ^ 53) with (2 ^ 6 * 2 ^ 47). ring. }
  pose proof (Z_div_mod_full (Z.pos m * 2 ^ 53) 8444249301319680 ltac:(lia)) as Hdm.
  unfold Z.div, Z.modulo.
  destruct (Z.div_eucl (Z.pos m * 2 ^ 53) 8444249301319680) as [q' r'] eqn:Ed.
  assert (Hq' : q' = 2 ^ (j + 6) * q /\ r' = 0).
  { pose proof (Z.div_mul (2 ^ (j + 6) * q) 8444249301319680 ltac:(lia)) as H1.
    pose proof (Z.mod_mul (2 ^ (j + 6) * q) 8444249301319680 ltac:(lia)) as H2.
    rewrite <- Eq in H1, H2. unfold Z.div, Z.modulo in H1, H2.
    rewrite Ed in H1, H2. cbn [fst snd] in H1, H2. auto. }
  destruct Hq' as [-> ->].
  change (new_location 8444249301319680 0) with loc_Exact.
  replace (- j - 6) with (0 - (j + 6)) by lia.
  apply round_aux_canon; [lia| |lia].
  assert (Zdigits2 (60 * q) <= Zdigits2 (2 ^ 6 * q)).
  { apply Zdigits2_mono. change (2 ^ 6) with 64. lia. }
  rewrite Zdigits2_shift in H by lia. unfold j. lia.
Qed.

(** The remainder modulo sixty is exact. *)
Lemma fmod_canon (M E : Z) :
  0 < M < 2 ^ 53 -> -1000 <= E <= 0 ->
  F64.fmod (canon M E) ParsedJson.sixty = canon (M mod (60 * 2 ^ (- E))) E.
Proof.
  intros HM HE.
  destruct (canon_pos M E HM) as (m & -> & Hm & Hr).
  pose proof (Zdigits2_small M HM) as Hd.
  set (j := 53 - Zdigits2 M) in *.
  change ParsedJson.sixty with (S754_finite false 8444249301319680 (-47)).
  cbn [F64.fmod].
  set (e := Z.min (E - j) (-47)).
  assert (He : e <= E - j /\ e <= -47) by (unfold e; lia).
  assert (Hk : 0 < 2 ^ (E - e)) by (apply Z.pow_pos_nonneg; lia).
  assert (HE2 : 0 < 2 ^ (- E)) by (apply Z.pow_pos_nonneg; lia).
  assert (Ea : Z.pos m * 2 ^ (E - j - e) = 2 ^ (E - e) * M).
  { rewrite Hm. replace (E - e) with (j + (E - j - e)) by lia.
    rewrite Z.pow_add_r by lia. ring. }
  assert (Eb : 8444249301319680 * 2 ^ (-47 - e) = 2 ^ (E - e) * (60 * 2 ^ (- E))).
  { change 8444249301319680 with (60 * 2 ^ 47).
    assert (E1 : 2 ^ 47 * 2 ^ (-47 - e) = 2 ^ (- e))
      by (rewrite <- Z.pow_add_r by lia; f_equal; lia).
    assert (E2 : 2 ^ (E - e) * 2 ^ (- E) = 2 ^ (- e))
      by (rewrite <- Z.pow_add_r by lia; f_equal; lia).
    transitivity (60 * 2 ^ (- e)); [rewrite <- E1|rewrite <- E2]; ring. }
  rewrite Ea, Eb, Z.mul_mod_distr_l by lia.
  set (r := M mod (60 * 2 ^ (- E))).
  assert (Hr0 : 0 <= r < 60 * 2 ^ (- E)) by (apply Z.mod_pos_bound; lia).
  assert (Hr1 : r <= M) by (apply Z.mod_le; lia).
  destruct (Z.eq_dec r 0) as [->|Hne].
  - rewrite Z.mul_0_r. reflexivity.
  - replace e with (E - (E - e)) at 2 by lia.
    apply normalize_canon; lia.
Qed.

(** A float that holds a natural number is its own floor. *)
Lemma floor_canon (q : Z) :
  0 < q < 2 ^ 53 -> F64.floor (canon q 0) = canon q 0.
Proof.
  intros Hq. pose proof (canon_pos q 0 Hq) as (m & Hc & Hm & Hr).
  pose proof (Zdigits2_small q Hq) as Hd.
  rewrite Hc. set (j := 53 - Zdigits2 q) in *. cbn [F64.floor].
  destruct (Z.leb_spec 0 (0 - j)); [reflexivity|].
  replace (- (0 - j)) with j by lia.
  rewrite Hm, Z.div_mul by (apply Z.pow_nonzero; lia).
  rewrite <- Hc. apply normalize_canon0; lia.
Qed.

Lemma to_int_canon (q : Z) :
  0 <= q < 2 ^ 53 -> F64.to_int (canon q 0) = Ok q.
Proof.
  intros Hq. destruct (Z.eq_dec q 0) as [->|Hne]; [reflexivity|].
  destruct (canon_pos q 0) as (m & -> & Hm & Hr); [lia|].
  pose proof (Zdigits2_small q ltac:(lia)) as Hd.
  set (j := 53 - Zdigits2 q) in *. cbn [F64.to_int].
  destruct (Z.leb_spec 0 (0 - j)).
  - replace (0 - j) with 0 by lia. rewrite Hm.
    replace j with 0 by lia. f_equal. change (2 ^ 0) with 1. lia.
  - replace (- (0 - j)) with j by lia.
    rewrite Hm, Z.div_mul by (apply Z.pow_nonzero; lia). reflexivity.
Qed.

Lemma canon_not_zero (N E : Z) :
  0 < N -> F64.is_zero (canon N E) = false /\ F64.ltb (canon N E) F64.zero = false.
Proof. intros H. destruct N; try lia. split; reflexivity. Qed.

Lemma sign_round_aux (m e : Z) (l : location) :
  F64.sign (binary_round_aux F64.prec F64.emax false m e l) = false.
Proof.
  unfold binary_round_aux.
  destruct (shr_fexp F64.prec F64.emax m e l) as [mrs' e'].
  destruct (shr_fexp _ _ _ _ _) as [mrs'' e''].
  destruct (shr_m mrs''); [reflexivity| |reflexivity].
  destruct (e'' <=? _); reflexivity.
Qed.

Lemma sign_div_canon (M E : Z) :
  F64.sign (F64.div (canon M E) ParsedJson.sixty) = false.
Proof.
  change ParsedJson.sixty with (S754_finite false 8444249301319680 (-47)).
  destruct M as [|p|p]; try reflexivity.
  cbn [canon]. unfold F64.div, SFdiv.
  destruct (SFdiv_core_binary _ _ _ _ _ _) as [[mz ez] lz].
  apply sign_round_aux.
Qed.

Lemma canon_unscale (N E : Z) :
  0 <= N -> E <= 0 -> 2 ^ (- E) * N < 2 ^ 53 ->
  canon (2 ^ (- E) * N) E = canon N 0.
Proof.
  intros HN HE Hlt. destruct (Z.eq_dec N 0) as [->|Hne].
  - rewrite Z.mul_0_r. reflexivity.
  - pose proof (canon_scale N (- E) 0 ltac:(lia) ltac:(lia) Hlt) as H.
    replace (0 - - E) with E in H by lia. exact H.
Qed.

Lemma sixty_quotient (M E : Z) :
  0 <= M -> E <= 0 ->
  let D := 60 * 2 ^ (- E) in
  0 < D /\ 0 <= M / D /\ D * (M / D) <= M /\ 60 * (M / D) <= M /\
  0 <= M mod D < D /\ M mod D = M - D * (M / D).
Proof.
  intros HM HE D.
  assert (HE2 : 0 < 2 ^ (- E)) by (apply Z.pow_pos_nonneg; lia).
  assert (HD : 0 < D) by (unfold D; lia).
  pose proof (Z.mod_pos_bound M D HD) as Hr.
  pose proof (Z.div_mod M D ltac:(lia)) as Hdm.
  assert (Hq : 0 <= M / D) by (apply Z.div_pos; lia).
  repeat split; try lia.
  unfold D in *. nia.
Qed.

(** [x // 60] and [x % 60] of the interpreter on the float of [M * 2^E]:
    the quotient and the remainder of the integers, without rounding. *)
Lemma divmod_canon (M E : Z) :
  0 <= M < 2 ^ 53 -> -1000 <= E <= 0 ->
  F64.divmod (canon M E) ParsedJson.sixty =
    (canon (M / (60 * 2 ^ (- E))) 0, canon (M mod (60 * 2 ^ (- E))) E).
Proof.
  intros HM HE.
  destruct (Z.eq_dec M 0) as [->|HM0].
  { rewrite Z.div_0_l, Z.mod_0_l; [reflexivity| |];
      apply Z.neq_mul_0; (split; [lia|apply Z.pow_nonzero; lia]). }
  destruct (sixty_quotient M E ltac:(lia) ltac:(lia))
    as (HD & Hq & HDq & H60 & Hr & Hmod).
  unfold F64.divmod. rewrite fmod_canon by lia.
  set (D := 60 * 2 ^ (- E)) in *.
  assert (Hsub : F64.sub (canon M E) (canon (M mod D) E) = canon (60 * (M / D)) 0).
  { rewrite <- (canon_unscale (60 * (M / D)) E) by (unfold D in *; lia).
    destruct (Z.eq_dec (M mod D) 0) as [E0|Hne].
    - rewrite E0, sub_canon_zero by lia. f_equal. unfold D in *. lia.
    - rewrite sub_canon by lia. f_equal. unfold D in *. lia. }
  rewrite Hsub.
  assert (Hdv : F64.div (canon (60 * (M / D)) 0) ParsedJson.sixty = canon (M / D) 0).
  { destruct (Z.eq_dec (M / D) 0) as [->|Hq0]; [reflexivity|].
    apply div_canon; lia. }
  rewrite Hdv.
  assert (Hmd : (if negb (F64.is_zero (canon (M mod D) E))
                 then if negb (Bool.eqb (F64.ltb ParsedJson.sixty F64.zero)
                                        (F64.ltb (canon (M mod D) E) F64.zero))
                      then (F64.add (canon (M mod D) E) ParsedJson.sixty,
                            F64.sub (canon (M / D) 0) F64.one)
                      else (canon (M mod D) E, canon (M / D) 0)
                 else (F64.copysign_zero ParsedJson.sixty, canon (M / D) 0)) =
                (canon (M mod D) E, canon (M / D) 0)).
  { destruct (Z.eq_dec (M mod D) 0) as [->|Hne]; [reflexivity|].
    destruct (canon_not_zero (M mod D) E ltac:(lia)) as [-> ->]. reflexivity. }
  rewrite Hmd. f_equal.
  destruct (Z.eq_dec (M / D) 0) as [->|Hq0].
  - cbn [canon F64.is_zero negb]. unfold F64.copysign_zero.
    rewrite sign_div_canon. reflexivity.
  - destruct (canon_not_zero (M / D) 0 ltac:(lia)) as [-> _]. cbn [negb].
    rewrite floor_canon by lia.
    rewrite sub_canon, Z.sub_diag by lia. reflexivity.
Qed.

(** What is left of the float of [M * 2^E] when sixty times the quotient
    is taken out: the remainder, again without rounding. *)
Lemma minus_minutes_canon (M E : Z) :
  0 <= M < 2 ^ 53 -> -1000 <= E <= 0 ->
  F64.sub (canon M E) (F64.mul (canon (M / (60 * 2 ^ (- E))) 0) ParsedJson.sixty) =
    canon (M mod (60 * 2 ^ (- E))) E.
Proof.
  intros HM HE.
  destruct (Z.eq_dec M 0) as [->|HM0].
  { rewrite Z.div_0_l, Z.mod_0_l; [reflexivity| |];
      apply Z.neq_mul_0; (split; [lia|apply Z.pow_nonzero; lia]). }
  destruct (sixty_quotient M E ltac:(lia) ltac:(lia))
    as (HD & Hq & HDq & H60 & Hr & Hmod).
  set (D := 60 * 2 ^ (- E)) in *.
  rewrite sixty_canon.
  destruct (Z.eq_dec (M / D) 0) as [Hz|Hq0].
  - rewrite Hz, mul_zero_canon by lia. rewrite Hz in Hmod.
    change (canon 0 0) with (canon 0 E).
    rewrite sub_canon_zero by lia. f_equal. lia.
  - rewrite mul_canon by lia.
    rewrite <- (canon_unscale (M / D * 60) E) by (unfold D in *; lia).
    rewrite sub_canon by (unfold D in *; lia). f_equal. unfold D in *. lia.
Qed.

Lemma float_int_canon (n : Z) :
  0 <= n < 2 ^ 53 -> float_ (PInt n) = Ok (canon n 0).
Proof.
  intros Hn. cbn [float_]. unfold F64.of_int. rewrite of_Z_canon by assumption.
  destruct n; try lia; reflexivity.
Qed.

Lemma canon_normal (m : positive) (e : Z) :
  2 ^ 52 <= Z.pos m < 2 ^ 53 -> canon (Z.pos m) e = S754_finite false m e.
Proof.
  intros Hm. cbn [canon].
  rewrite (Zdigits2_unique (Z.pos m) 53) by (change (53 - 1) with 52; lia).
  change (53 - 53) with 0. cbv zeta. change (2 ^ 0) with 1.
  rewrite Z.mul_1_r, Z.sub_0_r. reflexivity.
Qed.

(** X23.  [get_duration_as_human] splits a duration without any rounding
    error.  Let the duration be the float of [M * 2^E] seconds, with
    [0 <= M < 2^53] and [-1000 <= E <= 0] (every whole number of seconds
    below [2^53], and every positive double from [2^52 * 2^(-1000)] up to
    [2^53]).  With [q] the whole minutes [M / (60 * 2^(-E))], the method
    returns the hours [q / 60] and the minutes [q mod 60] printed with
    [%02d], and the seconds printed with [%05.2f] from the float of
    [(M mod (60 * 2^(-E))) * 2^E], which is the duration minus sixty times
    [q] exactly.  The hours are not reduced modulo a day. *)
Theorem duration_as_human_exact (self : dict) (v default : value) (M E : Z) :
  dict_getitem self (PStr "duration") = Ok v ->
  float_ v = Ok (canon M E) ->
  0 <= M < 2 ^ 53 -> -1000 <= E <= 0 ->
  let q := M / (60 * 2 ^ (- E)) in
  ParsedJson.get_duration_as_human self default =
    Ok (PStr (Text.format_0d 2 (q / 60) ++ ":" ++
              Text.format_0d 2 (q mod 60) ++ ":" ++
              Text.format_0f 5 2 (canon (M mod (60 * 2 ^ (- E))) E))).
Proof.
  intros Hget Hfloat HM HE q.
  destruct (sixty_quotient M E ltac:(lia) ltac:(lia))
    as (HD & Hq & HDq & H60 & Hr & Hmod).
  fold q in Hq, HDq, H60, Hmod.
  assert (Hq53 : 0 <= q < 2 ^ 53) by lia.
  assert (Hh : 0 <= q / 60 < 2 ^ 53).
  { split; [apply Z.div_pos; lia|].
    apply Z.le_lt_trans with q; [|lia]. apply Z.div_le_upper_bound; lia. }
  assert (Hm : 0 <= q mod 60 < 2 ^ 53).
  { pose proof (Z.mod_pos_bound q 60 ltac:(lia)). lia. }
  unfold ParsedJson.get_duration_as_human, ParsedJson.get_duration_as_human_body.
  rewrite Hget. cbn [bind]. rewrite Hfloat. cbn [bind]. unfold F64.floordiv.
  rewrite (divmod_canon M E) by assumption. cbn [fst].
  rewrite (minus_minutes_canon M E) by assumption. fold q.
  rewrite (divmod_canon q 0) by lia. cbn [fst].
  rewrite (minus_minutes_canon q 0) by lia.
  change (60 * 2 ^ (- 0)) with 60.
  rewrite !to_int_canon by assumption. reflexivity.
Qed.

Lemma duration_as_human_exact_witness :
  let self := [("duration", PStr "3854.8")] in
  dict_getitem self (PStr "duration") = Ok (PStr "3854.8") /\
  float_ (PStr "3854.8") = Ok (canon 8476794845501850 (-41)) /\
  ParsedJson.get_duration_as_human self PNone = Ok (PStr "01:04:14.80").
Proof.
  split; [reflexivity|]. split; [vm_compute; reflexivity|].
  apply (duration_as_human_exact [("duration", PStr "3854.8")] (PStr "3854.8")
           PNone 8476794845501850 (-41)); try reflexivity; vm_compute; intuition congruence.
Defined.

(** X24.  A duration that converts to a float that is not a number or
    is infinite (the texts [nan], [inf], [-Infinity], ...) makes
    [get_duration_as_human] return its default: the floor division gives
    not-a-number, and [int] of it raises inside the [try]. *)
Theorem duration_not_finite (self : dict) (v default : value) (x : spec_float) :
  dict_getitem self (PStr "duration") = Ok v ->
  float_ v = Ok x ->
  F64.is_nan x || F64.is_inf x = true ->
  ParsedJson.get_duration_as_human self default = Ok default.
Proof.
  intros Hget Hfloat Hx.
  unfold ParsedJson.get_duration_as_human, ParsedJson.get_duration_as_human_body.
  rewrite Hget. cbn [bind]. rewrite Hfloat. cbn [bind].
  destruct x as [s|s| |s m e]; try discriminate Hx.
  - destruct s; reflexivity.
  - reflexivity.
Qed.

Lemma duration_not_finite_witness :
  let self := [("duration", PStr "inf")] in
  float_ (PStr "inf") = Ok (S754_infinity false) /\
  ParsedJson.get_duration_as_human self (PStr "unknown") = Ok (PStr "unknown").
Proof.
  split; [reflexivity|].
  apply (duration_not_finite [("duration", PStr "inf")] (PStr "inf")
           (PStr "unknown") (S754_infinity false)); reflexivity.
Defined.
